(** * json-formatter-js: the tree node and its open/close lifecycle

    A shallow embedding of [src/index.ts] (class [JSONFormatter]) and the
    properties of its derived getters, of the inline preview, of the
    configuration defaults and of attaching and detaching children.

    A method of the class is a function of the formatter it is called on
    and of the state shared by the formatters of a tree: the configuration
    object and the callbacks waiting for an animation frame.  It returns
    the formatter as the call leaves it. *)

From Stdlib Require Import ZArith String Ascii List Bool Arith Lia.
From Stdlib Require Import DecimalString DecimalNat Permutation Sorted.
Import ListNotations.

Set Warnings "-register-all".

Open Scope string_scope.
Open Scope Z_scope.

(** ** JavaScript values handed to the formatter

    The formatter receives a live value ([json: any]).  The values modelled
    here are JSON data: [undefined], [null], booleans, numbers (integers
    stand for them, the formatter never computes with a number it renders),
    strings, arrays and objects.  An object lists its own enumerable
    members in the order [Object.keys] enumerates them, and may inherit a
    callable [toJSON] from its prototype (as [Date] does), recorded with the
    string the call returns.  Functions and cyclic values are not
    modelled. *)

Inductive value : Type :=
| VUndefined
| VNull
| VBoolean (b : bool)
| VNumber (n : Z)
| VString (s : string)
| VArray (items : list value)
| VObject (proto_toJSON : option string) (members : list (string * value)).

(** JavaScript truthiness ([!!v]). *)
Definition truthy (v : value) : bool :=
  match v with
  | VUndefined | VNull => false
  | VBoolean b => b
  | VNumber n => negb (n =? 0)
  | VString s => negb (s =? "")%string
  | VArray _ | VObject _ _ => true
  end.

(** [String(n)] for an array index or a length. *)
Definition String_of_nat (n : nat) : string :=
  NilEmpty.string_of_uint (Nat.to_uint n).

(** The array index a property name denotes, when it is the canonical
    decimal form of one. *)
Definition array_index (key : string) : option nat :=
  match NilEmpty.uint_of_string key with
  | Some d =>
      let i := Nat.of_uint d in
      if (String_of_nat i =? key)%string then Some i else None
  | None => None
  end.

Fixpoint own_member (key : string) (members : list (string * value))
  : option value :=
  match members with
  | [] => None
  | (k, v) :: rest => if (k =? key)%string then Some v else own_member key rest
  end.

(** [json[key]] for the member names [Object.keys] yields; a name that is
    not a member gives [undefined]. *)
Definition get (json : value) (key : string) : value :=
  match json with
  | VArray items =>
      match array_index key with
      | Some i => nth i items VUndefined
      | None => VUndefined
      end
  | VObject _ members =>
      match own_member key members with
      | Some v => v
      | None => VUndefined
      end
  | _ => VUndefined
  end.

(** [json[key]] where [key] itself may be [undefined] ([this.keys[index]]
    past the end). *)
Definition get_opt (json : value) (key : option string) : value :=
  match key with
  | Some k => get json k
  | None => VUndefined
  end.

(** [Object.keys(json)], called on arrays and objects only. *)
Definition Object_keys (json : value) : list string :=
  match json with
  | VArray items => map String_of_nat (seq 0 (length items))
  | VObject _ members => map fst members
  | _ => []
  end.

(** [Array.isArray]. *)
Definition Array_isArray (json : value) : bool :=
  match json with
  | VArray _ => true
  | _ => false
  end.

(** Modelled from the spec: the helper [isObject] of [./helpers], which is
    not among the sources.  The getter that calls it is documented "is this
    an object? Note: In this context arrays are object as well", and the
    specification gives [keys] "for object/array values" and keeps
    "object/array classification mutually exclusive with primitive
    classification": it holds of arrays and objects and of nothing else. *)
Definition helpers_isObject (json : value) : bool :=
  match json with
  | VArray _ | VObject _ _ => true
  | _ => false
  end.

(** Modelled from the spec: the helper [getType] of [./helpers], which is
    not among the sources.  The getter [type] documents it: it returns
    [null] for null objects, and its possible values are all JavaScript
    primitive types plus [array] and [null]; the specification lists one of
    the primitive kinds, or [array], or [object], or [null]. *)
Definition helpers_getType (json : value) : string :=
  match json with
  | VUndefined => "undefined"
  | VNull => "null"
  | VBoolean _ => "boolean"
  | VNumber _ => "number"
  | VString _ => "string"
  | VArray _ => "array"
  | VObject _ _ => "object"
  end.

(** [json['toJSON']] is truthy: an own member of that name decides, else
    the inherited method. *)
Definition has_toJSON (json : value) : bool :=
  match json with
  | VObject proto members =>
      match own_member "toJSON" members with
      | Some v => truthy v
      | None => match proto with Some _ => true | None => false end
      end
  | _ => false
  end.

(** [json.toJSON()]: only the inherited method can be called; an own data
    member of that name shadows it and the call raises a TypeError
    ([None]). *)
Definition call_toJSON (json : value) : option value :=
  match json with
  | VObject proto members =>
      match own_member "toJSON" members with
      | Some _ => None
      | None => match proto with Some s => Some (VString s) | None => None end
      end
  | _ => None
  end.

(** The nesting depth of a value, the measure of recursive rendering. *)
Fixpoint depth (v : value) : nat :=
  match v with
  | VArray items => S (fold_right (fun x m => Nat.max (depth x) m) 0%nat items)
  | VObject _ members =>
      S (fold_right (fun kv m => Nat.max (depth (snd kv)) m) 0%nat members)
  | _ => 0%nat
  end.

(** ** The expansion budget [open]

    A JavaScript number used as a level count: an integer or [Infinity]
    ("set it to Infinity to expand the tree deeply").  [NaN] and fractions
    are not modelled. *)

Inductive num : Type :=
| Fin (z : Z)
| Infinity.

Definition num_pred (x : num) : num :=
  match x with Fin z => Fin (z - 1) | Infinity => Infinity end.

Definition num_gt0 (x : num) : bool :=
  match x with Fin z => 0 <? z | Infinity => true end.

Definition num_lt0 (x : num) : bool :=
  match x with Fin z => z <? 0 | Infinity => false end.

Definition num_is0 (x : num) : bool :=
  match x with Fin z => z =? 0 | Infinity => false end.

(** ** The configuration object

    Every option is optional: [None] is an option left [undefined] (or
    [null], for [theme] and [sortPropertiesBy]). *)

Record JSONFormatterConfiguration : Type := mkConfig {
  hoverPreviewEnabled : option bool;
  hoverCopyEnabled : option bool;
  hoverPreviewArrayCount : option Z;
  hoverPreviewFieldCount : option Z;
  animateOpen : option bool;
  animateClose : option bool;
  theme : option string;
  useToJSON : option bool;
  sortPropertiesBy : option (string -> string -> Z)
}.

Definition _defaultConfig : JSONFormatterConfiguration := {|
  hoverPreviewEnabled := Some false;
  hoverCopyEnabled := Some true;
  hoverPreviewArrayCount := Some 100;
  hoverPreviewFieldCount := Some 5;
  animateOpen := Some true;
  animateClose := Some true;
  theme := None;
  useToJSON := Some true;
  sortPropertiesBy := None
|}.

(** The configuration literal [{}]. *)
Definition emptyConfig : JSONFormatterConfiguration := {|
  hoverPreviewEnabled := None;
  hoverCopyEnabled := None;
  hoverPreviewArrayCount := None;
  hoverPreviewFieldCount := None;
  animateOpen := None;
  animateClose := None;
  theme := None;
  useToJSON := None;
  sortPropertiesBy := None
|}.

Definition MAX_ANIMATED_TOGGLE_ITEMS : nat := 10.

(** A boolean option read in a condition, or passed to a parameter that
    defaults to [false]: [undefined] counts as [false]. *)
Definition flag (o : option bool) : bool :=
  match o with Some b => b | None => false end.

(** [keys.sort(compare)]: a stable sort, as ECMAScript has it, written as
    an insertion sort; [a] stays before [b] unless [compare(a, b) > 0].
    For a consistent comparison function this is the order every engine
    gives; for any other the order is left to the engine, and only that it
    rearranges the keys is the same everywhere. *)
Fixpoint sort_insert (compare : string -> string -> Z) (x : string)
  (sorted : list string) : list string :=
  match sorted with
  | [] => [x]
  | y :: rest =>
      if compare x y <=? 0 then x :: y :: rest
      else y :: sort_insert compare x rest
  end.

Definition Array_sort (compare : string -> string -> Z) (l : list string)
  : list string :=
  fold_right (sort_insert compare) [] l.

(** [keys.slice(0, end)]; an [undefined] end keeps everything, a negative
    one counts from the back. *)
Definition Array_slice0 {A : Type} (finish : option Z) (l : list A) : list A :=
  match finish with
  | None => l
  | Some e =>
      if e <? 0 then firstn (Z.to_nat (Z.of_nat (length l) + e)) l
      else firstn (Z.to_nat e) l
  end.

(** [n > limit] and [n >= limit] against an option that may be [undefined]
    (the comparison is then false). *)
Definition gt_option (n : nat) (limit : option Z) : bool :=
  match limit with Some t => t <? Z.of_nat n | None => false end.

Definition ge_option (n : nat) (limit : option Z) : bool :=
  match limit with Some t => t <=? Z.of_nat n | None => false end.

(** ** The formatter object and what it renders

    [render] builds one row element per formatter.  The row is kept as the
    markers and texts the code puts on it; the rows inside its children
    container are the child formatters, each carrying its own row (the click
    listener of a child row is bound to that child formatter). *)

(** The value part of a row header: the constructor name with the bracketed
    length for a container, the typed text for anything else. *)
Inductive ValueSpan : Type :=
| ContainerValue (constructor_name : string) (array_length : option nat)
| PrimitiveValue (anchor : bool) (type_class : string) (date_class : bool)
    (url_href : option value) (text : string).

Record TogglerLink : Type := mkTogglerLink {
  toggler_anchor : bool;
  toggler : bool;
  key_label : option string;
  value_span : ValueSpan;
  preview_text : option string;
  click_listener : bool
}.

Inductive JSONFormatter : Type := mkJSONFormatter {
  json : value;
  open : num;
  key : option string;
  _isOpen : option bool;
  element : option Element
}
with Element : Type := mkElement {
  stamp : nat;
  theme_class : option string;
  open_class : bool;
  togglerLink : TogglerLink;
  copy_text : option string;
  object_class : bool;
  array_class : bool;
  empty_class : bool;
  children : list JSONFormatter
}.

(** [stamp] tells the successive rows of one formatter apart: [render]
    replaces [this.element] by a new row, and a frame callback scheduled
    before holds on to the children container of the row it was created
    for. *)

Definition set_isOpen (b : option bool) (this : JSONFormatter) : JSONFormatter :=
  mkJSONFormatter (json this) (open this) (key this) b (element this).

Definition set_open (d : num) (this : JSONFormatter) : JSONFormatter :=
  mkJSONFormatter (json this) d (key this) (_isOpen this) (element this).

Definition set_element (e : option Element) (this : JSONFormatter)
  : JSONFormatter :=
  mkJSONFormatter (json this) (open this) (key this) (_isOpen this) e.

Definition set_children (cs : list JSONFormatter) (e : Element) : Element :=
  mkElement (stamp e) (theme_class e) (open_class e) (togglerLink e)
    (copy_text e) (object_class e) (array_class e) (empty_class e) cs.

Definition set_open_class (b : bool) (e : Element) : Element :=
  mkElement (stamp e) (theme_class e) b (togglerLink e)
    (copy_text e) (object_class e) (array_class e) (empty_class e)
    (children e).

(** The rows currently inside the children container of a formatter's row:
    its materialized children. *)
Definition materialized (this : JSONFormatter) : list JSONFormatter :=
  match element this with
  | Some e => children e
  | None => []
  end.

(** ** The shared state and the effects of a method

    Every formatter of a tree holds a reference to the same configuration
    object, and the constructor writes into it: it is one cell of the
    state.  The other is the list of callbacks handed to the window's
    [requestAnimationFrame] and not run yet; a callback is the closure
    [addAChild] or [removeAChild] of one call of [appendChildren] or
    [removeChildren], with the row it captured and its counter. *)

Inductive task : Type :=
| AddAChild (row index : nat)
| RemoveAChild (row childrenRemoved : nat).

Record Heap : Type := mkHeap {
  config_object : JSONFormatterConfiguration;
  frames : list task
}.

(** A method returns with a new state, throws (a TypeError), or exhausts
    the fuel of a loop of the model (which no call below does).  What a
    method had changed when it threw is not kept: a statement about a
    sequence of calls is about a sequence in which every call returns, and
    the statements below say when that is so. *)
Inductive outcome (A : Type) : Type :=
| Returns (a : A) (h : Heap)
| Throws
| OutOfFuel.

Arguments Returns {A} a h.
Arguments Throws {A}.
Arguments OutOfFuel {A}.

Definition M (A : Type) : Type := Heap -> outcome A.

Definition ret {A : Type} (a : A) : M A := fun h => Returns a h.

Definition bind {A B : Type} (m : M A) (k : A -> M B) : M B :=
  fun h =>
    match m h with
    | Returns a h' => k a h'
    | Throws => Throws
    | OutOfFuel => OutOfFuel
    end.

Definition throw {A : Type} : M A := fun _ => Throws.

Definition out_of_fuel {A : Type} : M A := fun _ => OutOfFuel.

Definition read_config : M JSONFormatterConfiguration :=
  fun h => Returns (config_object h) h.

Definition schedule (t : task) : M unit :=
  fun h => Returns tt (mkHeap (config_object h) (frames h ++ [t])).

Declare Scope method_scope.
Delimit Scope method_scope with method.
Notation "x <- m ;; k" := (bind m (fun x => k))
  (at level 100, m at next level, right associativity) : method_scope.
Open Scope method_scope.

(** ** The host and the helpers

    What the class takes from outside [src/index.ts]: whether the window
    has [requestAnimationFrame], the formatting helpers of [./helpers]
    (names and previews of values), [JSON.stringify], the three date
    patterns tested on strings, and which objects are instances of [Date]
    (as their constructor name, this is not part of the data an object
    holds). *)

Record Host : Type := mkHost {
  window_requestAnimationFrame : bool;
  getObjectName : value -> string;
  getValuePreview : string -> value -> value -> string;
  getPreview : value -> string;
  JSON_stringify : value -> string;
  date_patterns : string -> bool;
  instanceof_Date : value -> bool
}.

Section Formatter.

Variable host : Host.

(** *** Derived getters: functions of the value and the shared
    configuration, recomputed at every use. *)

Section Getters.

Variable config : JSONFormatterConfiguration.
Variable this : JSONFormatter.

Definition isOpen : bool :=
  match _isOpen this with
  | Some b => b
  | None => num_gt0 (open this)
  end.

Definition isArray : bool := Array_isArray (json this).

Definition isObject : bool := helpers_isObject (json this).

Definition type : string :=
  if flag (useToJSON config) && truthy (json this) && has_toJSON (json this)
  then "stringifiable"
  else helpers_getType (json this).

(** [this.json instanceof Date]: only an object can be one, and the host
    tells which. *)
Definition is_Date_instance : bool :=
  match json this with
  | VObject _ _ => instanceof_Date host (json this)
  | _ => false
  end.

(** The three patterns are those of the host. *)
Definition isDate : bool :=
  is_Date_instance ||
  ((type =? "string")%string &&
   match json this with
   | VString s => date_patterns host s
   | _ => false
   end).

Definition isUrl : bool :=
  (type =? "string")%string &&
  match json this with
  | VString s => String.prefix "http" s
  | _ => false
  end.

Definition keys : list string :=
  if isObject then
    let keys := Object_keys (json this) in
    match (if negb isArray then sortPropertiesBy config else None) with
    | Some compare => Array_sort compare keys
    | None => keys
    end
  else [].

Definition isEmptyObject : bool :=
  (length keys =? 0)%nat && negb isArray.

(** In [this.keys && !this.keys.length && this.isArray] the first operand
    is an array, which is always truthy. *)
Definition isEmpty : bool :=
  isEmptyObject || (true && (length keys =? 0)%nat && isArray).

(** The getter [useToJSON]; the option of that name is the field of the
    configuration. *)
Definition getter_useToJSON : bool :=
  flag (useToJSON config) && (type =? "stringifiable")%string.

Definition hasKey : bool :=
  match key this with Some _ => true | None => false end.

Definition constructorName : string := getObjectName host (json this).

(** *** [getInlinepreview] *)

(** [this.json.length] and [this.json] where the value is an array. *)
Definition Array_length : nat :=
  match json this with VArray items => length items | _ => 0%nat end.

Definition Array_items : list value :=
  match json this with VArray items => items | _ => [] end.

Definition narrowKeys : list string :=
  Array_slice0 (hoverPreviewFieldCount config) keys.

Definition kvs : list string :=
  map (fun key => key ++ ":" ++ getPreview host (get (json this) key))
    narrowKeys.

Definition ellipsis : string :=
  if ge_option (length keys) (hoverPreviewFieldCount config)
  then "…" else "".

Definition getInlinepreview : string :=
  if isArray then
    if gt_option Array_length (hoverPreviewArrayCount config)
    then "Array[" ++ String_of_nat Array_length ++ "]"
    else "[" ++ String.concat ", " (map (getPreview host) Array_items) ++ "]"
  else
    "{" ++ String.concat ", " kvs ++ ellipsis ++ "}".

End Getters.

(** *** The constructor

    It writes the default of five options into the configuration object it
    is given, where the option is [undefined], and shows an empty key as a
    pair of quotes.  The configuration it is given is the shared object of
    the state; a caller that passes none shares [_defaultConfig] itself. *)

(** [if (option === undefined) option = default]. *)
Definition default_to {A : Type} (default current : option A) : option A :=
  match current with
  | None => default
  | Some _ => current
  end.

Definition with_defaults (c : JSONFormatterConfiguration)
  : JSONFormatterConfiguration := {|
  hoverPreviewEnabled :=
    default_to (hoverPreviewEnabled _defaultConfig) (hoverPreviewEnabled c);
  hoverCopyEnabled :=
    default_to (hoverCopyEnabled _defaultConfig) (hoverCopyEnabled c);
  hoverPreviewArrayCount :=
    default_to (hoverPreviewArrayCount _defaultConfig) (hoverPreviewArrayCount c);
  hoverPreviewFieldCount :=
    default_to (hoverPreviewFieldCount _defaultConfig) (hoverPreviewFieldCount c);
  animateOpen := animateOpen c;
  animateClose := animateClose c;
  theme := theme c;
  useToJSON := default_to (useToJSON _defaultConfig) (useToJSON c);
  sortPropertiesBy := sortPropertiesBy c
|}.

(** The two-character string made of two double quotes. *)
Definition quoted_empty : string :=
  String (ascii_of_nat 34) (String (ascii_of_nat 34) EmptyString).

Definition visible_key (key : option string) : option string :=
  match key with
  | Some k => if (k =? "")%string then Some quoted_empty else Some k
  | None => None
  end.

Definition constructor (json : value) (open : num) (key : option string)
  : M JSONFormatter :=
  fun h =>
    Returns (mkJSONFormatter json open (visible_key key) None None)
            (mkHeap (with_defaults (config_object h)) (frames h)).

(** *** Attaching and detaching children *)

(** [requestAnimationFrame(cb)]: the window's, which keeps the callback
    for the next frame, or the fallback, which calls it at once. *)
Definition requestAnimationFrame (t : task) (cb : M JSONFormatter)
  (this : JSONFormatter) : M JSONFormatter :=
  if window_requestAnimationFrame host
  then _ <- schedule t ;; ret this
  else cb.

(** [children.appendChild(row)] on the children container of the row. *)
Definition appendChild (child : JSONFormatter) (this : JSONFormatter)
  : JSONFormatter :=
  match element this with
  | Some e => set_element (Some (set_children (children e ++ [child]) e)) this
  | None => this
  end.

(** [this.element.classList] with the class [open] toggled ([negb]),
    added or removed. *)
Definition classList_open (f : bool -> bool) (this : JSONFormatter)
  : JSONFormatter :=
  match element this with
  | Some e => set_element (Some (set_open_class (f (open_class e)) e)) this
  | None => this
  end.

Section Children.

(** [formatter.render()] of a child formatter. *)
Variable render_child : JSONFormatter -> M JSONFormatter.

(** The closure [addAChild]; [fuel] bounds its calls by the keys left. *)
Fixpoint addAChild (fuel : nat) (row index : nat) (this : JSONFormatter)
  : M JSONFormatter :=
  match fuel with
  | O => out_of_fuel
  | S fuel' =>
      c <- read_config ;;
      let key := nth_error (keys c this) index in
      formatter <-
        constructor (get_opt (json this) key) (num_pred (open this)) key ;;
      child <- render_child formatter ;;
      let this := appendChild child this in
      let index := S index in
      c <- read_config ;;
      if (index <? length (keys c this))%nat then
        if (MAX_ANIMATED_TOGGLE_ITEMS <? index)%nat
        then addAChild fuel' row index this
        else requestAnimationFrame (AddAChild row index)
               (addAChild fuel' row index this) this
      else ret this
  end.

(** [this.keys.forEach(key => ...)]. *)
Fixpoint forEach_key (keys : list string) (this : JSONFormatter)
  : M JSONFormatter :=
  match keys with
  | [] => ret this
  | key :: rest =>
      formatter <-
        constructor (get (json this) key) (num_pred (open this)) (Some key) ;;
      child <- render_child formatter ;;
      forEach_key rest (appendChild child this)
  end.

(** [appendChildren(animated)].  Without a row, [this.element.querySelector]
    is a TypeError; a row always has its children container. *)
Definition appendChildren_with (animated : bool) (this : JSONFormatter)
  : M JSONFormatter :=
  match element this with
  | None => throw
  | Some e =>
      c <- read_config ;;
      if isEmpty c this then ret this
      else if animated then
        requestAnimationFrame (AddAChild (stamp e) 0)
          (addAChild (S (length (keys c this))) (stamp e) 0 this) this
      else forEach_key (keys c this) this
  end.

End Children.

(** The closure [removeAChild]; [fuel] bounds its calls by the rows left. *)
Fixpoint removeAChild (fuel : nat) (row childrenRemoved : nat)
  (this : JSONFormatter) : M JSONFormatter :=
  match fuel with
  | O => out_of_fuel
  | S fuel' =>
      match element this with
      | Some e =>
          match children e with
          | [] => ret this
          | _ :: rest =>
              let this := set_element (Some (set_children rest e)) this in
              let childrenRemoved := S childrenRemoved in
              if (MAX_ANIMATED_TOGGLE_ITEMS <? childrenRemoved)%nat
              then removeAChild fuel' row childrenRemoved this
              else requestAnimationFrame (RemoveAChild row childrenRemoved)
                     (removeAChild fuel' row childrenRemoved this) this
          end
      | None => ret this
      end
  end.

(** [removeChildren(animated)]. *)
Definition removeChildren (animated : bool) (this : JSONFormatter)
  : M JSONFormatter :=
  match element this with
  | None => throw
  | Some e =>
      if animated then
        requestAnimationFrame (RemoveAChild (stamp e) 0)
          (removeAChild (S (length (children e))) (stamp e) 0 this) this
      else ret (set_element (Some (set_children [] e)) this)
  end.

(** *** [render] *)

(** The value part of the header: for an array or object that is not
    stringifiable, the constructor name (and the length of an array);
    otherwise the typed preview of the value, or of what its [toJSON]
    returns. *)
Definition render_value_span (c : JSONFormatterConfiguration)
  (this : JSONFormatter) : M ValueSpan :=
  if isObject this && negb (getter_useToJSON c this) then
    ret (ContainerValue (constructorName this)
           (if isArray this then Some (Array_length this) else None))
  else
    let preview_of value :=
      PrimitiveValue (isUrl c this) (type c this) (isDate c this)
        (if isUrl c this then Some (json this) else None)
        (getValuePreview host (type c this) (json this) value) in
    if getter_useToJSON c this then
      match call_toJSON (json this) with
      | Some value => ret (preview_of value)
      | None => throw
      end
    else ret (preview_of (json this)).

(** The body of [render], the rendering of the children left open.  The
    theme is put on the row as it is: [classList.add] throws on a name that
    holds white space, and such a theme is outside the model. *)
Definition render_with (render_child : JSONFormatter -> M JSONFormatter)
  (this : JSONFormatter) : M JSONFormatter :=
  c <- read_config ;;
  let row := match element this with
             | Some e => S (stamp e)
             | None => O
             end in
  value <- render_value_span c this ;;
  let togglerLink := {|
    toggler_anchor := isObject this;
    toggler := isObject this && negb (getter_useToJSON c this);
    key_label := match key this with
                 | Some k => Some (k ++ ":")
                 | None => None
                 end;
    value_span := value;
    preview_text :=
      if isObject this && flag (hoverPreviewEnabled c)
      then Some (getInlinepreview c this) else None;
    click_listener := isObject this && negb (getter_useToJSON c this)
  |} in
  let element := {|
    stamp := row;
    theme_class := match theme c with
                   | Some t => if (t =? "")%string then None else Some t
                   | None => None
                   end;
    open_class := isOpen this;
    togglerLink := togglerLink;
    copy_text :=
      if isObject this && flag (hoverCopyEnabled c)
      then Some (JSON_stringify host (json this)) else None;
    object_class := isObject this;
    array_class := isArray this;
    empty_class := isEmpty c this;
    children := []
  |} in
  let this := set_element (Some element) this in
  if isObject this && isOpen this
  then appendChildren_with render_child false this
  else ret this.

(** A rendering goes at most as deep as the value: that depth is the fuel
    of the recursion through the children. *)
Fixpoint render_fuel (fuel : nat) (this : JSONFormatter) : M JSONFormatter :=
  match fuel with
  | O => out_of_fuel
  | S fuel' => render_with (render_fuel fuel') this
  end.

Definition render (this : JSONFormatter) : M JSONFormatter :=
  render_fuel (S (depth (json this))) this.

Definition appendChildren (animated : bool) (this : JSONFormatter)
  : M JSONFormatter :=
  appendChildren_with render animated this.

(** *** [toggleOpen] and [openAtDepth] *)

Definition toggleOpen (this : JSONFormatter) : M JSONFormatter :=
  let this := set_isOpen (Some (negb (isOpen this))) this in
  match element this with
  | Some _ =>
      c <- read_config ;;
      this <- (if isOpen this
               then appendChildren (flag (animateOpen c)) this
               else removeChildren (flag (animateClose c)) this) ;;
      ret (classList_open negb this)
  | None => ret this
  end.

Definition openAtDepth (depth : num) (this : JSONFormatter)
  : M JSONFormatter :=
  if num_lt0 depth then ret this
  else
    let this := set_open depth this in
    let this := set_isOpen (Some (negb (num_is0 depth))) this in
    match element this with
    | Some _ =>
        this <- removeChildren false this ;;
        if num_is0 depth then ret (classList_open (fun _ => false) this)
        else
          c <- read_config ;;
          this <- appendChildren (flag (animateOpen c)) this ;;
          ret (classList_open (fun _ => true) this)
    | None => ret this
    end.

(** *** A frame of the window

    The callbacks kept by [requestAnimationFrame] run, in the order they
    were handed over; what they schedule waits for the next frame.  A
    callback made for a row that [render] has since replaced works on that
    detached row and leaves this one alone; that it may hand itself to the
    window again, for the detached row, is left out.  A callback that
    throws ends the frame. *)

Definition run_task (t : task) (this : JSONFormatter) : M JSONFormatter :=
  match element this with
  | Some e =>
      match t with
      | AddAChild row index =>
          if (row =? stamp e)%nat then
            c <- read_config ;;
            addAChild render (S (length (keys c this) - index)) row index this
          else ret this
      | RemoveAChild row childrenRemoved =>
          if (row =? stamp e)%nat then
            removeAChild (S (length (children e))) row childrenRemoved this
          else ret this
      end
  | None => ret this
  end.

Fixpoint run_tasks (ts : list task) (this : JSONFormatter)
  : M JSONFormatter :=
  match ts with
  | [] => ret this
  | t :: rest => this <- run_task t this ;; run_tasks rest this
  end.

Definition frame (this : JSONFormatter) : M JSONFormatter :=
  fun h => run_tasks (frames h) this (mkHeap (config_object h) []).

Fixpoint run_frames (n : nat) (this : JSONFormatter) : M JSONFormatter :=
  match n with
  | O => ret this
  | S n' => this <- frame this ;; run_frames n' this
  end.

End Formatter.

(** * The vocabulary of the statements

    The definitions below are not part of the code: they name what the
    theorems speak of. *)

(** ** Values the formatter can render *)

(** No object inside the value has an own, truthy member named [toJSON]:
    with [useToJSON] on, such a member makes the value "stringifiable" and
    [render] then calls it, although it is data. *)
Fixpoint toJSON_callable (v : value) : bool :=
  match v with
  | VArray items => forallb toJSON_callable items
  | VObject _ members =>
      negb (match own_member "toJSON" members with
            | Some x => truthy x
            | None => false
            end)
      && forallb (fun kv => toJSON_callable (snd kv)) members
  | _ => true
  end.

(** ** How the configuration object may change *)

(** A configuration evolves by staying as it is or by getting the
    defaults of the constructor. *)
Definition evolves (c c' : JSONFormatterConfiguration) : Prop :=
  c' = c \/ c' = with_defaults c.

(** A method is steady when, if it returns, it has at most let the
    configuration evolve. *)
Definition steady {A : Type} (m : M A) : Prop :=
  forall h a h', m h = Returns a h' ->
    evolves (config_object h) (config_object h').

(** A method is quiet when, if it returns, it has handed nothing to
    [requestAnimationFrame]. *)
Definition quiet {A : Type} (m : M A) : Prop :=
  forall h a h', m h = Returns a h' -> frames h' = frames h.

(** ** The children of a node *)

(** [children.appendChild] of several rows, one after the other. *)
Definition append_children (cs : list JSONFormatter) (this : JSONFormatter)
  : JSONFormatter :=
  match element this with
  | Some e => set_element (Some (set_children (children e ++ cs) e)) this
  | None => this
  end.

(** The children of the keys [ks] of a node over [v] with budget [d]:
    each constructed over its member with one level less, then rendered. *)
Fixpoint build_children (render_child : JSONFormatter -> M JSONFormatter)
  (v : value) (d : num) (ks : list string) : M (list JSONFormatter) :=
  match ks with
  | [] => ret []
  | key :: rest =>
      formatter <- constructor (get v key) (num_pred d) (Some key) ;;
      child <- render_child formatter ;;
      cs <- build_children render_child v d rest ;;
      ret (child :: cs)
  end.

(** The child made for a key: over the member of that key, with one level
    less to expand, not toggled, rendered. *)
Definition child_of (this : JSONFormatter) (name : string)
  (child : JSONFormatter) : Prop :=
  json child = get (json this) name /\
  open child = num_pred (open this) /\
  key child = visible_key (Some name) /\
  _isOpen child = None /\
  element child <> None.

(** The stamp of the row the next [render] makes. *)
Definition next_stamp (this : JSONFormatter) : nat :=
  match element this with
  | Some e => S (stamp e)
  | None => O
  end.

(** ** Budgets and sequences of operations *)


(** The operations of a formatter, to speak of any sequence of them. *)
Inductive operation : Type :=
| Construct (v : value) (d : num) (k : option string)
| Render
| ToggleOpen
| OpenAtDepth (d : num)
| AppendChildren (animated : bool)
| RemoveChildren (animated : bool)
| Frame.

Definition perform (host : Host) (op : operation) (this : JSONFormatter)
  : M JSONFormatter :=
  match op with
  | Construct v d k => constructor v d k
  | Render => render host this
  | ToggleOpen => toggleOpen host this
  | OpenAtDepth d => openAtDepth host d this
  | AppendChildren animated => appendChildren host animated this
  | RemoveChildren animated => removeChildren host animated this
  | Frame => frame host this
  end.

Fixpoint perform_all (host : Host) (ops : list operation) (this : JSONFormatter)
  : M JSONFormatter :=
  match ops with
  | [] => ret this
  | op :: rest => this <- perform host op this ;; perform_all host rest this
  end.

(** ** Sample values for the concrete instances *)

Definition sample_host (raf : bool) : Host := {|
  window_requestAnimationFrame := raf;
  getObjectName := fun _ => "Object";
  getValuePreview := fun _ _ _ => "value";
  getPreview := fun _ => "preview";
  JSON_stringify := fun _ => "json";
  date_patterns := fun _ => false;
  instanceof_Date := fun _ => false
|}.

(** [new JSONFormatter(v, d, c).render()], as the formatter it leaves. *)
Definition rendered (host : Host) (v : value) (d : num)
  (c : JSONFormatterConfiguration) : JSONFormatter :=
  match (this <- constructor v d None ;; render host this) (mkHeap c []) with
  | Returns this _ => this
  | _ => mkJSONFormatter v d None None None
  end.

Definition twelve_numbers : value :=
  VArray (map (fun i => VNumber (Z.of_nat i)) (seq 0 12)).

Definition two_members : value :=
  VObject None [("a", VNumber 1); ("b", VNumber 2)].

Definition a_and_b : value :=
  VObject None [("a", VNumber 1); ("b", VArray [VNumber 1; VNumber 2; VNumber 3])].


Definition five_members : value :=
  VObject None
    [("a", VNumber 1); ("b", VNumber 2); ("c", VNumber 3); ("d", VNumber 4);
     ("e", VNumber 5)].

Definition preview_threshold (T : Z) : JSONFormatterConfiguration := {|
  hoverPreviewEnabled := Some true;
  hoverCopyEnabled := Some true;
  hoverPreviewArrayCount := Some T;
  hoverPreviewFieldCount := Some 5;
  animateOpen := Some true;
  animateClose := Some true;
  theme := None;
  useToJSON := Some true;
  sortPropertiesBy := None
|}.

(** ** What attaching and detaching may change *)

(** The node with the rows [cs] in the children container of its row; a
    node without a row stays as it is. *)
Definition with_children (cs : list JSONFormatter) (this : JSONFormatter)
  : JSONFormatter :=
  match element this with
  | Some e => set_element (Some (set_children cs e)) this
  | None => this
  end.

(** [this'] is [this] up to the rows inside its children container. *)
Definition reshaped (this this' : JSONFormatter) : Prop :=
  exists cs, this' = with_children cs this.

(** A method reshapes the node when, if it returns, it has changed at most
    the rows inside the children container. *)
Definition reshapes (this : JSONFormatter) (m : M JSONFormatter) : Prop :=
  forall h this' h', m h = Returns this' h' -> reshaped this this'.

(** The levels of rows materialized below a node. *)
Fixpoint levels (this : JSONFormatter) : nat :=
  match this with
  | mkJSONFormatter _ _ _ _ (Some (mkElement _ _ _ _ _ _ _ _ cs)) =>
      fold_right (fun child m => Nat.max (S (levels child)) m) 0%nat cs
  | mkJSONFormatter _ _ _ _ None => 0%nat
  end.

(** [n] levels fit in the budget [d]. *)
Definition within (d : num) (n : nat) : Prop :=
  match d with
  | Fin z => Z.of_nat n <= Z.max z 0
  | Infinity => True
  end.

(** The [open] marker of a rendered row tells whether the node is open. *)
Definition marker_agrees (this : JSONFormatter) : Prop :=
  forall e, element this = Some e -> open_class e = isOpen this.

(** A rendered node holds the child of each of its keys, in their order,
    when it is open, and no row when it is closed. *)
Definition children_match (c : JSONFormatterConfiguration)
  (this : JSONFormatter) : Prop :=
  forall e, element this = Some e ->
    Forall2 (child_of this) (if isOpen this then keys c this else [])
      (children e).

(** The operations a page performs on a node it keeps: everything but the
    construction of another node. *)
Definition keeps_node (op : operation) : bool :=
  match op with
  | Construct _ _ _ => false
  | _ => true
  end.

(** The operations of the public lifecycle: [render], a click on the
    toggler, [openAtDepth]. *)
Definition lifecycle (op : operation) : bool :=
  match op with
  | Render | ToggleOpen | OpenAtDepth _ => true
  | _ => false
  end.

(** The operations that keep the row of a node: everything but the
    construction of another node and [render], which makes a new row. *)
Definition keeps_row (op : operation) : bool :=
  match op with
  | Construct _ _ _ | Render => false
  | _ => true
  end.

(** Two rows that differ at most by their [open] marker and the rows in
    their children container. *)
Definition same_header (e e' : Element) : Prop :=
  stamp e' = stamp e /\
  theme_class e' = theme_class e /\
  togglerLink e' = togglerLink e /\
  copy_text e' = copy_text e /\
  object_class e' = object_class e /\
  array_class e' = array_class e /\
  empty_class e' = empty_class e.

(** The row of [this] is still the row of [this'], up to the marker and
    the children; a node without a row has got none. *)
Definition row_kept (this this' : JSONFormatter) : Prop :=
  match element this with
  | Some e => exists e', element this' = Some e' /\ same_header e e'
  | None => element this' = None
  end.

(** ** The row [render] makes *)

(** What [render] puts on the row [e] of a node, its children apart, with
    [vs] the value part of the header. *)
Definition row_made (host : Host) (c : JSONFormatterConfiguration)
  (this : JSONFormatter) (vs : ValueSpan) (e : Element) : Prop :=
  stamp e = next_stamp this /\
  theme_class e =
    match theme c with
    | Some t => if (t =? "")%string then None else Some t
    | None => None
    end /\
  open_class e = isOpen this /\
  toggler_anchor (togglerLink e) = isObject this /\
  toggler (togglerLink e) = isObject this && negb (getter_useToJSON c this) /\
  click_listener (togglerLink e) =
    isObject this && negb (getter_useToJSON c this) /\
  key_label (togglerLink e) = option_map (fun k => k ++ ":") (key this) /\
  value_span (togglerLink e) = vs /\
  preview_text (togglerLink e) =
    (if isObject this && flag (hoverPreviewEnabled c)
     then Some (getInlinepreview host c this) else None) /\
  copy_text e =
    (if isObject this && flag (hoverCopyEnabled c)
     then Some (JSON_stringify host (json this)) else None) /\
  object_class e = isObject this /\
  array_class e = isArray this /\
  empty_class e = isEmpty c this.

(** Attaching and detaching happen at once: the window has no
    [requestAnimationFrame], or both animations are off. *)
Definition unanimated (host : Host) (c : JSONFormatterConfiguration) : Prop :=
  window_requestAnimationFrame host = false \/
  (flag (animateOpen c) = false /\ flag (animateClose c) = false).

(** No callback of an animated attach waits among the tasks. *)
Definition no_attach (ts : list task) : bool :=
  forallb (fun t => match t with AddAChild _ _ => false | _ => true end) ts.

(** An operation followed by the eleven frames that let its animation
    end, and a sequence of such steps. *)
Definition settle (host : Host) (op : operation) (this : JSONFormatter)
  : M JSONFormatter :=
  this <- perform host op this ;; run_frames host 11 this.

Fixpoint settle_all (host : Host) (ops : list operation) (this : JSONFormatter)
  : M JSONFormatter :=
  match ops with
  | [] => ret this
  | op :: rest => this <- settle host op this ;; settle_all host rest this
  end.

(** ** Themes

    [render] hands the theme to [classList.add], which refuses a name that
    holds white space (the call throws); the model has no such names in
    view, and the statements that say [render] returns say it for a theme
    that is a class name. *)

Definition white_space (a : ascii) : bool :=
  let n := nat_of_ascii a in
  (n =? 9)%nat || (n =? 10)%nat || (n =? 12)%nat || (n =? 13)%nat ||
  (n =? 32)%nat.

Definition class_name (t : string) : bool :=
  forallb (fun a => negb (white_space a)) (list_ascii_of_string t).

Definition theme_is_class (c : JSONFormatterConfiguration) : Prop :=
  match theme c with
  | Some t => class_name t = true
  | None => True
  end.

(** ** Sequences that call the methods in time *)

(** [appendChildren] and [removeChildren] are called on a rendered node
    only, and no other node is constructed in between; [rendered] tells
    whether the node has a row when the sequence starts. *)
Fixpoint well_timed (rendered : bool) (ops : list operation) : bool :=
  match ops with
  | [] => true
  | Construct _ _ _ :: _ => false
  | Render :: rest => well_timed true rest
  | (AppendChildren _ | RemoveChildren _) :: rest =>
      rendered && well_timed rendered rest
  | _ :: rest => well_timed rendered rest
  end.

Definition is_rendered (this : JSONFormatter) : bool :=
  match element this with
  | Some _ => true
  | None => false
  end.

(** ** Comparators *)

(** A consistent comparison function, as ECMAScript defines it for
    [Array.prototype.sort]: the sign of [compare a b] tells whether [a]
    comes before [b], is as good as [b] or comes after it; every key is as
    good as itself, being as good is symmetric and transitive, and so are
    coming before and coming after.  For such a function the sorted order
    is the one stable order every engine gives; for any other the order is
    left to the engine. *)
Definition consistent (compare : string -> string -> Z) : Prop :=
  (forall a, compare a a = 0) /\
  (forall a b, compare a b = 0 -> compare b a = 0) /\
  (forall a b c, compare a b = 0 -> compare b c = 0 -> compare a c = 0) /\
  (forall a b c, compare a b < 0 -> compare b c < 0 -> compare a c < 0) /\
  (forall a b c, 0 < compare a b -> 0 < compare b c -> 0 < compare a c).

(** [a] may precede [b]. *)
Definition precedes (compare : string -> string -> Z) (a b : string) : Prop :=
  compare a b <= 0.

(** Shorter keys first. *)
Definition by_length (a b : string) : Z :=
  Z.of_nat (String.length a) - Z.of_nat (String.length b).

(** ** Sample sequences of operations *)

Definition a_session : list operation :=
  [Render; ToggleOpen; Frame; ToggleOpen; OpenAtDepth (Fin 2); Frame;
   RemoveChildren true; AppendChildren true; ToggleOpen].

Definition a_session_without_render : list operation :=
  [ToggleOpen; Frame; OpenAtDepth (Fin 0); OpenAtDepth Infinity; Frame;
   Frame; RemoveChildren false].

Definition a_lifecycle : list operation :=
  [Render; ToggleOpen; ToggleOpen; OpenAtDepth (Fin 0); OpenAtDepth (Fin 2);
   ToggleOpen; Render; ToggleOpen; OpenAtDepth Infinity].

(** The default options with both animations off. *)
Definition without_animation : JSONFormatterConfiguration := {|
  hoverPreviewEnabled := Some false;
  hoverCopyEnabled := Some true;
  hoverPreviewArrayCount := Some 100;
  hoverPreviewFieldCount := Some 5;
  animateOpen := Some false;
  animateClose := Some false;
  theme := None;
  useToJSON := Some true;
  sortPropertiesBy := None
|}.

(** * Properties *)

(** ** Lists of keys *)

Lemma sort_insert_length (compare : string -> string -> Z) (x : string)
  (l : list string) :
  length (sort_insert compare x l) = S (length l).
Proof.
  induction l as [|y l IH]; simpl; [reflexivity|].
  destruct (compare x y <=? 0); simpl; [reflexivity|].
  now rewrite IH.
Qed.

Lemma Array_sort_length (compare : string -> string -> Z) (l : list string) :
  length (Array_sort compare l) = length l.
Proof.
  induction l as [|x l IH]; simpl; [reflexivity|].
  unfold Array_sort in *. now rewrite sort_insert_length, IH.
Qed.

Lemma Object_keys_length_array (items : list value) :
  length (Object_keys (VArray items)) = length items.
Proof. simpl. now rewrite length_map, length_seq. Qed.

Lemma Object_keys_length_object (proto : option string)
  (members : list (string * value)) :
  length (Object_keys (VObject proto members)) = length members.
Proof. simpl. now rewrite length_map. Qed.

Lemma keys_length (c : JSONFormatterConfiguration) (this : JSONFormatter) :
  length (keys c this) =
  if isObject this then length (Object_keys (json this)) else 0%nat.
Proof.
  unfold keys. destruct (isObject this); [|reflexivity].
  destruct (if negb (isArray this) then sortPropertiesBy c else None);
    [apply Array_sort_length | reflexivity].
Qed.

Lemma keys_of_primitive (c : JSONFormatterConfiguration) (this : JSONFormatter) :
  isObject this = false -> keys c this = [].
Proof. unfold keys. now intros ->. Qed.

Lemma keys_of_array (c : JSONFormatterConfiguration) (this : JSONFormatter)
  (items : list value) :
  json this = VArray items ->
  keys c this = map String_of_nat (seq 0 (length items)).
Proof.
  intros E. unfold keys, isObject, isArray. now rewrite E.
Qed.

(** ** [isEmpty] *)

Lemma isEmpty_no_keys (c : JSONFormatterConfiguration) (this : JSONFormatter) :
  isEmpty c this = (length (keys c this) =? 0)%nat.
Proof.
  unfold isEmpty, isEmptyObject.
  destruct (length (keys c this) =? 0)%nat, (isArray this); reflexivity.
Qed.

(** On arrays and objects [isEmpty] is what its comment says, "is this an
    empty object or array?": it holds exactly when there is no member. *)
Lemma isEmpty_of_array (c : JSONFormatterConfiguration) (this : JSONFormatter)
  (items : list value) :
  json this = VArray items -> (isEmpty c this = true <-> items = []).
Proof.
  intros E. rewrite isEmpty_no_keys, keys_length. unfold isObject.
  rewrite E, Object_keys_length_array. simpl.
  destruct items; simpl; split; congruence.
Qed.

Lemma isEmpty_of_object (c : JSONFormatterConfiguration) (this : JSONFormatter)
  (proto : option string) (members : list (string * value)) :
  json this = VObject proto members -> (isEmpty c this = true <-> members = []).
Proof.
  intros E. rewrite isEmpty_no_keys, keys_length. unfold isObject.
  rewrite E, Object_keys_length_object. simpl.
  destruct members; simpl; split; congruence.
Qed.

(** [isEmpty] reads the value and the configuration only: neither the
    toggled state, nor the budget, nor the row. *)
Lemma isEmpty_independent_of_state (c : JSONFormatterConfiguration)
  (v : value) (open open' : num) (key key' : option string)
  (toggled toggled' : option bool) (row row' : option Element) :
  isEmpty c (mkJSONFormatter v open key toggled row) =
  isEmpty c (mkJSONFormatter v open' key' toggled' row').
Proof. reflexivity. Qed.

(** C1 (the code departs from the claim).  The claim wants [isEmpty] false
    for every value that is neither an object nor an array.  The getter
    [isEmptyObject] tests [!this.keys.length && !this.isArray] and never
    asks whether the value is an object: a primitive has no keys and is no
    array, so [isEmpty] is true for it, for every configuration and every
    open state. *)
Theorem isEmpty_of_primitive (c : JSONFormatterConfiguration)
  (this : JSONFormatter) :
  isObject this = false -> isEmpty c this = true.
Proof.
  intros H. rewrite isEmpty_no_keys, keys_of_primitive by exact H.
  reflexivity.
Qed.

Lemma isEmpty_of_primitive_witness :
  isObject (mkJSONFormatter (VNumber 42) (Fin 0) (Some "a") None None) = false /\
  isEmpty _defaultConfig
    (mkJSONFormatter (VNumber 42) (Fin 0) (Some "a") None None) = true.
Proof.
  split; [reflexivity|].
  apply isEmpty_of_primitive. reflexivity.
Defined.

(** ** The inline preview *)

Section Preview.

Variable host : Host.
Variable c : JSONFormatterConfiguration.
Variable this : JSONFormatter.

Lemma Array_slice0_nonneg {A : Type} (e : Z) (l : list A) :
  0 <= e -> Array_slice0 (Some e) l = firstn (Nat.min (length l) (Z.to_nat e)) l.
Proof.
  intros He. unfold Array_slice0.
  destruct (e <? 0) eqn:E; [apply Z.ltb_lt in E; lia|].
  destruct (Nat.le_ge_cases (length l) (Z.to_nat e)) as [Hle|Hge].
  - rewrite Nat.min_l by exact Hle.
    now rewrite !firstn_all2 by lia.
  - now rewrite Nat.min_r by exact Hge.
Qed.

Lemma keys_length_object (proto : option string)
  (members : list (string * value)) :
  json this = VObject proto members -> length (keys c this) = length members.
Proof.
  intros Ej. rewrite keys_length. unfold isObject. rewrite Ej.
  apply Object_keys_length_object.
Qed.

Lemma ellipsis_cases : ellipsis c this = "…" \/ ellipsis c this = "".
Proof. unfold ellipsis. destruct (ge_option _ _); auto. Qed.

Lemma ellipsis_present (F : Z) :
  hoverPreviewFieldCount c = Some F ->
  (ellipsis c this = "…" <-> F <= Z.of_nat (length (keys c this))).
Proof.
  intros EF. unfold ellipsis, ge_option. rewrite EF.
  destruct (F <=? Z.of_nat (length (keys c this))) eqn:E.
  - apply Z.leb_le in E. split; [intros _; exact E | reflexivity].
  - apply Z.leb_gt in E. split; [discriminate | lia].
Qed.

(** C5.  For an object with K members and a field-preview count F (a
    count: not negative), the inline preview is the braces around the
    comma-joined ["key:preview"] pairs of the first [min K F] keys followed
    by the ellipsis part; there are exactly [min K F] pairs, and the
    ellipsis part is the marker if and only if K >= F (it is empty
    otherwise). *)
Theorem object_preview_pairs (proto : option string)
  (members : list (string * value)) (F : Z) :
  json this = VObject proto members ->
  hoverPreviewFieldCount c = Some F ->
  0 <= F ->
  let K := length members in
  let shown := Nat.min K (Z.to_nat F) in
  length (keys c this) = K /\
  kvs host c this =
    map (fun key => key ++ ":" ++ getPreview host (get (json this) key))
      (firstn shown (keys c this)) /\
  length (kvs host c this) = shown /\
  (ellipsis c this = "…" <-> Z.of_nat K >= F) /\
  (ellipsis c this <> "…" -> ellipsis c this = "") /\
  getInlinepreview host c this =
    "{" ++ String.concat ", " (kvs host c this) ++ ellipsis c this ++ "}".
Proof.
  intros Ej EF HF K shown.
  assert (HK : length (keys c this) = K)
    by exact (keys_length_object proto members Ej).
  assert (Hn : narrowKeys c this = firstn shown (keys c this)).
  { unfold narrowKeys. rewrite EF, Array_slice0_nonneg by exact HF.
    now rewrite HK. }
  split; [exact HK|].
  split; [unfold kvs; now rewrite Hn|].
  split.
  { unfold kvs. rewrite length_map, Hn, length_firstn, HK. subst shown. lia. }
  split.
  { rewrite (ellipsis_present F EF), HK. lia. }
  split.
  { destruct ellipsis_cases as [E|E]; [congruence | intros _; exact E]. }
  unfold getInlinepreview, isArray. now rewrite Ej.
Qed.

(** C7.  For an array of length L and an array-preview count T, the inline
    preview is the bracketed, comma-joined previews of the elements when
    L <= T, and the string [Array[L]] when L > T. *)
Theorem array_preview_threshold (items : list value) (T : Z) :
  json this = VArray items ->
  hoverPreviewArrayCount c = Some T ->
  let L := length items in
  (Z.of_nat L <= T ->
   getInlinepreview host c this =
     "[" ++ String.concat ", " (map (getPreview host) items) ++ "]") /\
  (Z.of_nat L > T ->
   getInlinepreview host c this = "Array[" ++ String_of_nat L ++ "]").
Proof.
  intros Ej ET L.
  unfold getInlinepreview, isArray, Array_length, Array_items, gt_option.
  rewrite Ej, ET. simpl. fold L.
  destruct (T <? Z.of_nat L) eqn:E.
  - apply Z.ltb_lt in E. split; [lia | reflexivity].
  - apply Z.ltb_ge in E. split; [reflexivity | lia].
Qed.

(** C6 (the code departs from the claim).  The claim, like the comment
    "if keys count greater then 5 then show ellipsis", wants the marker
    only when keys are left out.  The code tests [keys.length >=
    hoverPreviewFieldCount]: when an object has exactly as many keys as the
    count, every key is shown and the marker is appended all the same. *)
Theorem object_preview_ellipsis_at_count (proto : option string)
  (members : list (string * value)) (F : Z) :
  json this = VObject proto members ->
  hoverPreviewFieldCount c = Some F ->
  Z.of_nat (length members) = F ->
  narrowKeys c this = keys c this /\
  ellipsis c this = "…".
Proof.
  intros Ej EF HK.
  assert (HF : 0 <= F) by lia.
  pose proof (keys_length_object proto members Ej) as HL.
  split.
  - unfold narrowKeys. rewrite EF, Array_slice0_nonneg by exact HF.
    apply firstn_all2. rewrite HL. lia.
  - apply (ellipsis_present F EF). rewrite HL. lia.
Qed.

End Preview.

(** ** Members of a value *)

Lemma own_member_In (key : string) (members : list (string * value))
  (v : value) :
  own_member key members = Some v -> exists k, In (k, v) members.
Proof.
  induction members as [|[k x] rest IH]; simpl; [discriminate|].
  destruct (k =? key)%string.
  - intros [= ->]. exists k. now left.
  - intros H. destruct (IH H) as [k' Hk']. exists k'. now right.
Qed.

Lemma depth_item (items : list value) (x : value) :
  In x items ->
  (depth x <= fold_right (fun x m => Nat.max (depth x) m) 0 items)%nat.
Proof.
  induction items as [|y rest IH]; simpl; [contradiction|].
  intros [-> |H]; [lia|]. specialize (IH H). lia.
Qed.

Lemma depth_member (members : list (string * value)) (k : string) (x : value) :
  In (k, x) members ->
  (depth x <= fold_right (fun kv m => Nat.max (depth (snd kv)) m) 0 members)%nat.
Proof.
  induction members as [|y rest IH]; simpl; [contradiction|].
  intros [-> |H]; [simpl; lia|]. specialize (IH H). lia.
Qed.

Lemma depth_get (v : value) (key : string) :
  helpers_isObject v = true -> (depth (get v key) < depth v)%nat.
Proof.
  destruct v as [| | | | |items|proto members]; try discriminate; intros _.
  - simpl. destruct (array_index key) as [i|]; [|simpl; lia].
    destruct (nth_in_or_default i items VUndefined) as [H| ->]; [|simpl; lia].
    apply depth_item in H. lia.
  - simpl. destruct (own_member key members) as [x|] eqn:E; [|simpl; lia].
    apply own_member_In in E. destruct E as [k Hk].
    apply depth_member in Hk. lia.
Qed.

Lemma toJSON_callable_get (v : value) (key : string) :
  toJSON_callable v = true -> toJSON_callable (get v key) = true.
Proof.
  destruct v as [| | | | |items|proto members]; try reflexivity.
  - simpl. intros H. destruct (array_index key) as [i|]; [|reflexivity].
    destruct (nth_in_or_default i items VUndefined) as [Hin| ->]; [|reflexivity].
    rewrite forallb_forall in H. now apply H.
  - simpl. intros H. apply andb_prop in H. destruct H as [_ H].
    destruct (own_member key members) as [x|] eqn:E; [|reflexivity].
    apply own_member_In in E. destruct E as [k Hk].
    rewrite forallb_forall in H. exact (H _ Hk).
Qed.

Lemma array_index_String_of_nat (i : nat) :
  array_index (String_of_nat i) = Some i.
Proof.
  unfold array_index, String_of_nat.
  rewrite NilEmpty.usu, Unsigned.of_to.
  now rewrite String.eqb_refl.
Qed.

(** The key [String(i)] of an array reads its [i]-th element. *)
Lemma get_array_element (items : list value) (i : nat) :
  get (VArray items) (String_of_nat i) = nth i items VUndefined.
Proof. simpl. now rewrite array_index_String_of_nat. Qed.

(** ** What the constructor does to the configuration *)

Lemma with_defaults_idempotent (c : JSONFormatterConfiguration) :
  with_defaults (with_defaults c) = with_defaults c.
Proof.
  destruct c as [a b d e f g t u s].
  destruct a, b, d, e, u; reflexivity.
Qed.

Lemma evolves_refl (c : JSONFormatterConfiguration) : evolves c c.
Proof. now left. Qed.

Lemma evolves_trans (c1 c2 c3 : JSONFormatterConfiguration) :
  evolves c1 c2 -> evolves c2 c3 -> evolves c1 c3.
Proof.
  intros [-> | ->] [-> | ->]; unfold evolves; auto.
  right. apply with_defaults_idempotent.
Qed.

Lemma evolves_defaults (c c' : JSONFormatterConfiguration) :
  evolves (with_defaults c) c' -> c' = with_defaults c.
Proof.
  intros [-> | ->]; [reflexivity | apply with_defaults_idempotent].
Qed.

Lemma keys_with_defaults (c : JSONFormatterConfiguration) (this : JSONFormatter) :
  keys (with_defaults c) this = keys c this.
Proof. reflexivity. Qed.

Lemma keys_evolves (c c' : JSONFormatterConfiguration) (this : JSONFormatter) :
  evolves c c' -> keys c' this = keys c this.
Proof. intros [-> | ->]; reflexivity. Qed.

Lemma isEmpty_evolves (c c' : JSONFormatterConfiguration) (this : JSONFormatter) :
  evolves c c' -> isEmpty c' this = isEmpty c this.
Proof. intros [-> | ->]; reflexivity. Qed.

Lemma animate_evolves (c c' : JSONFormatterConfiguration) :
  evolves c c' ->
  animateOpen c' = animateOpen c /\ animateClose c' = animateClose c.
Proof. intros [-> | ->]; split; reflexivity. Qed.

(** The getters that decide the children read the value only. *)
Lemma keys_same_json (c : JSONFormatterConfiguration) (this this' : JSONFormatter) :
  json this' = json this -> keys c this' = keys c this.
Proof. intros E. unfold keys, isObject, isArray. now rewrite E. Qed.

Lemma isEmpty_same_json (c : JSONFormatterConfiguration)
  (this this' : JSONFormatter) :
  json this' = json this -> isEmpty c this' = isEmpty c this.
Proof.
  intros E. rewrite !isEmpty_no_keys. now rewrite (keys_same_json c this this' E).
Qed.

(** ** Methods that only let the configuration evolve *)

Lemma steady_ret {A : Type} (a : A) : steady (ret a).
Proof. intros h a' h' [= _ <-]. apply evolves_refl. Qed.

Lemma steady_throw {A : Type} : steady (@throw A).
Proof. intros h a h' H. discriminate H. Qed.

Lemma steady_out_of_fuel {A : Type} : steady (@out_of_fuel A).
Proof. intros h a h' H. discriminate H. Qed.

Lemma steady_bind {A B : Type} (m : M A) (k : A -> M B) :
  steady m -> (forall a, steady (k a)) -> steady (bind m k).
Proof.
  intros Hm Hk h b h'. unfold bind.
  destruct (m h) as [a h1| |] eqn:E; try discriminate.
  intros H. eapply evolves_trans; [eapply Hm, E | eapply Hk, H].
Qed.

Lemma steady_read_config : steady read_config.
Proof. intros h a h' [= _ <-]. apply evolves_refl. Qed.

Lemma steady_schedule (t : task) : steady (schedule t).
Proof. intros h a h' [= _ <-]. apply evolves_refl. Qed.

Lemma steady_constructor (v : value) (d : num) (k : option string) :
  steady (constructor v d k).
Proof. intros h a h' [= _ <-]. now right. Qed.

Create HintDb steady.

#[local] Hint Resolve steady_ret steady_throw steady_out_of_fuel
  steady_read_config steady_schedule steady_constructor : steady.

Ltac steady_step :=
  match goal with
  | |- steady (bind _ _) => apply steady_bind; [|intros ?]
  | |- steady (if ?b then _ else _) => destruct b
  | |- steady (match ?x with _ => _ end) => destruct x
  | |- steady _ => solve [auto with steady]
  end.

Section Steady.

Variable host : Host.

Lemma steady_requestAnimationFrame (t : task) (cb : M JSONFormatter)
  (this : JSONFormatter) :
  steady cb -> steady (requestAnimationFrame host t cb this).
Proof.
  intros H. unfold requestAnimationFrame. repeat steady_step.
Qed.

Section SteadyChildren.

Variable render_child : JSONFormatter -> M JSONFormatter.
Hypothesis steady_render_child : forall child, steady (render_child child).

Lemma steady_addAChild (fuel row index : nat) (this : JSONFormatter) :
  steady (addAChild host render_child fuel row index this).
Proof.
  revert index this.
  induction fuel as [|fuel IH]; intros index this; simpl;
    [apply steady_out_of_fuel|].
  repeat steady_step; auto using steady_requestAnimationFrame.
Qed.

Lemma steady_forEach_key (ks : list string) (this : JSONFormatter) :
  steady (forEach_key render_child ks this).
Proof.
  revert this. induction ks as [|k ks IH]; intros this; simpl.
  - apply steady_ret.
  - repeat steady_step; auto.
Qed.

Lemma steady_appendChildren_with (animated : bool) (this : JSONFormatter) :
  steady (appendChildren_with host render_child animated this).
Proof.
  unfold appendChildren_with.
  repeat steady_step;
    auto using steady_requestAnimationFrame, steady_addAChild,
      steady_forEach_key.
Qed.

End SteadyChildren.

Lemma steady_removeAChild (fuel row removed : nat) (this : JSONFormatter) :
  steady (removeAChild host fuel row removed this).
Proof.
  revert removed this.
  induction fuel as [|fuel IH]; intros removed this; simpl;
    [apply steady_out_of_fuel|].
  repeat steady_step; auto using steady_requestAnimationFrame.
Qed.

Lemma steady_removeChildren (animated : bool) (this : JSONFormatter) :
  steady (removeChildren host animated this).
Proof.
  unfold removeChildren.
  repeat steady_step;
    auto using steady_requestAnimationFrame, steady_removeAChild.
Qed.

Lemma steady_render_value_span (c : JSONFormatterConfiguration)
  (this : JSONFormatter) :
  steady (render_value_span host c this).
Proof. unfold render_value_span. repeat steady_step. Qed.

Lemma steady_render_fuel (fuel : nat) (this : JSONFormatter) :
  steady (render_fuel host fuel this).
Proof.
  revert this. induction fuel as [|fuel IH]; intros this; simpl;
    [apply steady_out_of_fuel|].
  unfold render_with.
  repeat steady_step;
    auto using steady_render_value_span, steady_appendChildren_with.
Qed.

Lemma steady_render (this : JSONFormatter) : steady (render host this).
Proof. apply steady_render_fuel. Qed.

Lemma steady_appendChildren (animated : bool) (this : JSONFormatter) :
  steady (appendChildren host animated this).
Proof. apply steady_appendChildren_with, steady_render. Qed.

Lemma steady_toggleOpen (this : JSONFormatter) : steady (toggleOpen host this).
Proof.
  unfold toggleOpen.
  repeat steady_step;
    auto using steady_appendChildren, steady_removeChildren.
Qed.

Lemma steady_openAtDepth (d : num) (this : JSONFormatter) :
  steady (openAtDepth host d this).
Proof.
  unfold openAtDepth.
  repeat steady_step;
    auto using steady_appendChildren, steady_removeChildren.
Qed.

Lemma steady_run_task (t : task) (this : JSONFormatter) :
  steady (run_task host t this).
Proof.
  unfold run_task.
  repeat steady_step;
    auto using steady_addAChild, steady_removeAChild, steady_render.
Qed.

Lemma steady_run_tasks (ts : list task) (this : JSONFormatter) :
  steady (run_tasks host ts this).
Proof.
  revert this. induction ts as [|t ts IH]; intros this; simpl.
  - apply steady_ret.
  - repeat steady_step; auto using steady_run_task.
Qed.

Lemma steady_frame (this : JSONFormatter) : steady (frame host this).
Proof.
  intros h a h' H. unfold frame in H.
  exact (steady_run_tasks (frames h) this _ _ _ H).
Qed.

Lemma steady_run_frames (n : nat) (this : JSONFormatter) :
  steady (run_frames host n this).
Proof.
  revert this. induction n as [|n IH]; intros this; simpl.
  - apply steady_ret.
  - repeat steady_step; auto using steady_frame.
Qed.

End Steady.

(** ** The children a loop attaches

    Both loops of [appendChildren] construct and render one child per key
    and append its row: what they append is the list [build_children]
    computes, in the order of the keys. *)

Lemma appendChild_fields (child this : JSONFormatter) :
  json (appendChild child this) = json this /\
  open (appendChild child this) = open this /\
  key (appendChild child this) = key this /\
  _isOpen (appendChild child this) = _isOpen this.
Proof. unfold appendChild. destruct (element this); repeat split. Qed.

Lemma append_children_fields (cs : list JSONFormatter) (this : JSONFormatter) :
  json (append_children cs this) = json this /\
  open (append_children cs this) = open this /\
  key (append_children cs this) = key this /\
  _isOpen (append_children cs this) = _isOpen this.
Proof. unfold append_children. destruct (element this); repeat split. Qed.

Lemma append_children_cons (child : JSONFormatter) (cs : list JSONFormatter)
  (this : JSONFormatter) :
  append_children cs (appendChild child this) = append_children (child :: cs) this.
Proof.
  destruct this as [v d k o [e|]]; [|reflexivity].
  unfold append_children, appendChild, set_element, set_children. simpl.
  now rewrite <- app_assoc.
Qed.

Lemma append_children_nil (this : JSONFormatter) :
  append_children [] this = this.
Proof.
  unfold append_children. destruct this as [v d k o [e|]]; simpl; [|reflexivity].
  unfold set_element, set_children. simpl. rewrite app_nil_r.
  now destruct e.
Qed.


Section Loops.

Variable host : Host.

Lemma forEach_key_build (render_child : JSONFormatter -> M JSONFormatter)
  (ks : list string) (this : JSONFormatter) (h : Heap) :
  forEach_key render_child ks this h =
  (cs <- build_children render_child (json this) (open this) ks ;;
   ret (append_children cs this)) h.
Proof.
  revert this h. induction ks as [|k ks IH]; intros this h; simpl.
  - unfold bind, ret. now rewrite append_children_nil.
  - unfold bind, constructor, ret. simpl.
    destruct (render_child _ _) as [child h1| |]; try reflexivity.
    rewrite IH. unfold bind, ret.
    destruct (appendChild_fields child this) as (-> & -> & _).
    destruct (build_children _ _ _ _ _) as [cs h2| |]; try reflexivity.
    now rewrite append_children_cons.
Qed.

(** Two renderers that agree on the members of a value build the same
    children from it. *)
Lemma build_children_ext (r1 r2 : JSONFormatter -> M JSONFormatter)
  (v : value) (d : num) (ks : list string) (h : Heap) :
  (forall key child h0, In key ks -> json child = get v key ->
     r1 child h0 = r2 child h0) ->
  build_children r1 v d ks h = build_children r2 v d ks h.
Proof.
  revert h. induction ks as [|k ks IH]; intros h Hr; simpl; [reflexivity|].
  unfold bind, constructor. simpl.
  rewrite (Hr k) by (simpl; auto).
  destruct (r2 _ _) as [child h1| |]; try reflexivity.
  rewrite IH; [reflexivity|].
  intros key c0 h0 Hin. apply Hr. now right.
Qed.

(** Fuel beyond the depth of the value changes nothing. *)
Lemma render_fuel_enough (f1 f2 : nat) (this : JSONFormatter) (h : Heap) :
  (depth (json this) < f1)%nat -> (depth (json this) < f2)%nat ->
  render_fuel host f1 this h = render_fuel host f2 this h.
Proof.
  revert f2 this h.
  induction f1 as [|f1 IH]; intros f2 this h H1 H2; [lia|].
  destruct f2 as [|f2]; [lia|].
  simpl. unfold render_with, bind. simpl.
  destruct (render_value_span host (config_object h) this h) as [vs h1| |];
    try reflexivity.
  match goal with
  | |- (if ?b then _ else _) _ = _ => destruct b eqn:Hopen
  end; [|reflexivity].
  unfold appendChildren_with. simpl. unfold bind. simpl.
  match goal with
  | |- (if ?b then _ else _) _ = _ => destruct b
  end; [reflexivity|].
  rewrite !forEach_key_build. unfold bind. simpl.
  apply andb_prop in Hopen. destruct Hopen as [Hobj _].
  unfold isObject in Hobj. simpl in Hobj.
  rewrite (build_children_ext (render_fuel host f1) (render_fuel host f2));
    [reflexivity|].
  intros key child h0 _ Hc.
  pose proof (depth_get (json this) key Hobj) as Hd.
  apply IH; rewrite Hc; lia.
Qed.

Lemma render_fuel_render (fuel : nat) (this : JSONFormatter) (h : Heap) :
  (depth (json this) < fuel)%nat ->
  render_fuel host fuel this h = render host this h.
Proof. intros H. unfold render. apply render_fuel_enough; lia. Qed.

End Loops.

(** ** Rendering returns

    On a value whose [toJSON] members can be called, [render] returns: the
    formatter gets a row, nothing is scheduled, the row carries the open
    marker of an open node and, for an open array or object, one rendered
    child per key. *)

Lemma call_toJSON_callable (v : value) :
  toJSON_callable v = true -> has_toJSON v = true ->
  exists x, call_toJSON v = Some x.
Proof.
  destruct v as [| | | | |items|proto members]; try discriminate.
  simpl. intros Hc Hh. apply andb_prop in Hc. destruct Hc as [Hc _].
  destruct (own_member "toJSON" members) as [x|].
  - rewrite Hh in Hc. discriminate.
  - destruct proto as [s|]; [now exists (VString s) | discriminate].
Qed.

Section Returning.

Variable host : Host.

Lemma render_value_span_returns (c : JSONFormatterConfiguration)
  (this : JSONFormatter) (h : Heap) :
  toJSON_callable (json this) = true ->
  exists vs, render_value_span host c this h = Returns vs h.
Proof.
  intros Hc. unfold render_value_span.
  destruct (isObject this && negb (getter_useToJSON c this));
    [eexists; reflexivity|].
  destruct (getter_useToJSON c this) eqn:Hu; [|eexists; reflexivity].
  unfold getter_useToJSON in Hu. apply andb_prop in Hu. destruct Hu as [Hf Ht].
  unfold type in Ht. rewrite Hf in Ht. simpl in Ht.
  destruct (truthy (json this) && has_toJSON (json this)) eqn:Hh.
  - apply andb_prop in Hh. destruct Hh as [_ Hh].
    destruct (call_toJSON_callable _ Hc Hh) as [x ->]. eexists; reflexivity.
  - destruct (json this); discriminate.
Qed.

Lemma build_children_returns (r : JSONFormatter -> M JSONFormatter)
  (this : JSONFormatter) (ks : list string) (h : Heap) :
  (forall key child h0, In key ks -> json child = get (json this) key ->
     exists e h1, r child h0 = Returns (set_element (Some e) child) h1 /\
       frames h1 = frames h0) ->
  exists cs h',
    build_children r (json this) (open this) ks h = Returns cs h' /\
    frames h' = frames h /\
    Forall2 (child_of this) ks cs.
Proof.
  revert h. induction ks as [|k ks IH]; intros h Hr; simpl.
  - exists [], h. repeat split. constructor.
  - unfold bind, constructor. simpl.
    edestruct (Hr k) as (e & h1 & -> & Hf1); [now left | reflexivity |].
    destruct (IH h1) as (cs & h2 & -> & Hf2 & Hcs).
    { intros key child h0 Hin. apply Hr. now right. }
    eexists. eexists. split; [reflexivity|].
    split; [now rewrite Hf2, Hf1|].
    constructor; [|exact Hcs].
    unfold child_of. simpl. repeat split. discriminate.
Qed.

Lemma render_fuel_returns (fuel : nat) (this : JSONFormatter) (h : Heap) :
  (depth (json this) < fuel)%nat ->
  toJSON_callable (json this) = true ->
  exists e h',
    render_fuel host fuel this h = Returns (set_element (Some e) this) h' /\
    frames h' = frames h /\
    stamp e = next_stamp this /\
    open_class e = isOpen this /\
    empty_class e = isEmpty (config_object h) this /\
    Forall2 (child_of this)
      (if isObject this && isOpen this then keys (config_object h) this else [])
      (children e).
Proof.
  revert this h. induction fuel as [|fuel IH]; intros this h Hd Hc; [lia|].
  simpl. unfold render_with, bind, read_config.
  destruct (render_value_span_returns (config_object h) this h Hc) as [vs ->].
  match goal with
  | |- context [set_element (Some ?el) this] => remember el as row eqn:Hrow
  end.
  assert (Hfacts : stamp row = next_stamp this /\
                   open_class row = isOpen this /\
                   empty_class row = isEmpty (config_object h) this /\
                   children row = [])
    by (subst row; repeat split; reflexivity).
  destruct Hfacts as (Hs & Ho & Hem & Hch). clear Hrow.
  change (isObject (set_element (Some row) this)) with (isObject this).
  change (isOpen (set_element (Some row) this)) with (isOpen this).
  destruct (isObject this && isOpen this) eqn:Hopen.
  - unfold appendChildren_with, bind, read_config.
    change (element (set_element (Some row) this)) with (Some row).
    cbv beta iota.
    change (isEmpty (config_object h) (set_element (Some row) this))
      with (isEmpty (config_object h) this).
    change (keys (config_object h) (set_element (Some row) this))
      with (keys (config_object h) this).
    destruct (isEmpty (config_object h) this) eqn:He.
    + exists row, h. repeat split; try assumption.
      rewrite isEmpty_no_keys in He. apply Nat.eqb_eq in He.
      apply length_zero_iff_nil in He. rewrite He, Hch. constructor.
    + rewrite forEach_key_build. unfold bind, ret.
      apply andb_prop in Hopen. destruct Hopen as [Hobj _].
      destruct (build_children_returns (render_fuel host fuel)
                  (set_element (Some row) this)
                  (keys (config_object h) this) h)
        as (cs & h' & Hb & Hf & Hcs).
      { intros key child h0 _ Hj.
        change (json (set_element (Some row) this)) with (json this) in Hj.
        destruct (IH child h0) as (e & h1 & He1 & Hf1 & _).
        - rewrite Hj. pose proof (depth_get (json this) key Hobj). lia.
        - rewrite Hj. now apply toJSON_callable_get.
        - now exists e, h1. }
      rewrite Hb.
      exists (set_children cs row), h'.
      split.
      { unfold append_children, set_element. simpl. now rewrite Hch. }
      repeat split; assumption.
  - exists row, h. repeat split; try assumption. rewrite Hch. constructor.
Qed.

Lemma render_returns (this : JSONFormatter) (h : Heap) :
  toJSON_callable (json this) = true ->
  exists e h',
    render host this h = Returns (set_element (Some e) this) h' /\
    frames h' = frames h /\
    stamp e = next_stamp this /\
    open_class e = isOpen this /\
    empty_class e = isEmpty (config_object h) this /\
    Forall2 (child_of this)
      (if isObject this && isOpen this then keys (config_object h) this else [])
      (children e).
Proof. apply render_fuel_returns. lia. Qed.

End Returning.

(** ** The animated loops, run to their end

    Where [requestAnimationFrame] is the fallback, or once the counter has
    passed [MAX_ANIMATED_TOGGLE_ITEMS], the closure calls itself until the
    keys (the rows) are used up: [addAChild] then does what the plain
    [forEach] does on the keys from [index] on, and [removeAChild] empties
    the container. *)

Lemma skipn_nth_error {A : Type} (l : list A) (i : nat) :
  (i < length l)%nat ->
  exists x, nth_error l i = Some x /\ skipn i l = x :: skipn (S i) l.
Proof.
  revert i. induction l as [|y l IH]; intros i H; simpl in H; [lia|].
  destruct i as [|i]; [now exists y|].
  destruct (IH i) as (x & E1 & E2); [lia|].
  exists x. split; [exact E1 | exact E2].
Qed.

Section Flushing.

Variable host : Host.
Variable render_child : JSONFormatter -> M JSONFormatter.
Hypothesis steady_render_child : forall child, steady (render_child child).

Lemma addAChild_flush (fuel row index : nat) (this : JSONFormatter) (h : Heap) :
  window_requestAnimationFrame host = false \/
    (MAX_ANIMATED_TOGGLE_ITEMS <= index)%nat ->
  (index < length (keys (config_object h) this))%nat ->
  (length (keys (config_object h) this) - index <= fuel)%nat ->
  addAChild host render_child fuel row index this h =
  forEach_key render_child (skipn index (keys (config_object h) this)) this h.
Proof.
  revert index this h.
  induction fuel as [|fuel IH]; intros index this h Hmode Hlt Hfuel; [lia|].
  destruct (skipn_nth_error _ _ Hlt) as (k & Enth & Eskip).
  rewrite Eskip.
  remember (skipn (S index) (keys (config_object h) this)) as rest eqn:Erest.
  simpl.
  unfold bind at 1, read_config at 1. rewrite Enth.
  unfold bind at 1 4. unfold constructor. simpl.
  unfold bind at 1 3.
  destruct (render_child _ _) as [child h1| |] eqn:Er; try reflexivity.
  apply steady_render_child in Er. simpl in Er. apply evolves_defaults in Er.
  unfold bind, read_config.
  destruct (appendChild_fields child this) as (Ej & _).
  assert (Ek : keys (config_object h1) (appendChild child this) =
               keys (config_object h) this).
  { rewrite Er, keys_with_defaults. now apply keys_same_json. }
  rewrite Ek.
  destruct (S index <? length (keys (config_object h) this))%nat eqn:Emore.
  - apply Nat.ltb_lt in Emore.
    assert (Hnext : addAChild host render_child fuel row (S index)
                      (appendChild child this) h1 =
                    forEach_key render_child rest (appendChild child this) h1).
    { subst rest. rewrite <- Ek. apply IH; rewrite ?Ek.
      - destruct Hmode as [Hraf|Hmax]; [now left | right; lia].
      - exact Emore.
      - lia. }
    destruct (MAX_ANIMATED_TOGGLE_ITEMS <? S index)%nat eqn:Emax.
    + exact Hnext.
    + unfold requestAnimationFrame.
      destruct Hmode as [-> |Hmax]; [exact Hnext|].
      apply Nat.ltb_ge in Emax. lia.
  - apply Nat.ltb_ge in Emore.
    rewrite (skipn_all2 (keys (config_object h) this)) in Erest by lia.
    subst rest. reflexivity.
Qed.

Lemma removeAChild_flush (fuel row removed : nat) (this : JSONFormatter)
  (e : Element) (h : Heap) :
  window_requestAnimationFrame host = false \/
    (MAX_ANIMATED_TOGGLE_ITEMS <= removed)%nat ->
  element this = Some e ->
  (length (children e) < fuel)%nat ->
  removeAChild host fuel row removed this h =
  Returns (set_element (Some (set_children [] e)) this) h.
Proof.
  revert removed this e h.
  induction fuel as [|fuel IH]; intros removed this e h Hmode He Hfuel; [lia|].
  simpl. rewrite He.
  destruct (children e) as [|c rest] eqn:Ec.
  - unfold ret. f_equal.
    destruct this as [v d k o el]. simpl in He. subst el.
    destruct e. simpl in Ec. subst. reflexivity.
  - simpl in Hfuel.
    assert (Hnext : removeAChild host fuel row (S removed)
                      (set_element (Some (set_children rest e)) this) h =
                    Returns (set_element (Some (set_children [] e)) this) h).
    { rewrite (IH (S removed) _ (set_children rest e));
        [reflexivity | | reflexivity | simpl; lia].
      destruct Hmode as [Hraf|Hmax]; [now left | right; lia]. }
    destruct (MAX_ANIMATED_TOGGLE_ITEMS <? S removed)%nat eqn:Emax.
    + exact Hnext.
    + unfold requestAnimationFrame.
      destruct Hmode as [-> |Hmax]; [exact Hnext|].
      apply Nat.ltb_ge in Emax. lia.
Qed.

End Flushing.

(** ** Attaching and detaching, when nothing is left to a later frame *)

Section Attaching.

Variable host : Host.

Lemma children_of_value_return (this : JSONFormatter) (ks : list string)
  (h : Heap) :
  toJSON_callable (json this) = true ->
  exists cs h',
    build_children (render host) (json this) (open this) ks h = Returns cs h' /\
    frames h' = frames h /\
    Forall2 (child_of this) ks cs.
Proof.
  intros Hc. apply build_children_returns.
  intros key child h0 _ Hj.
  destruct (render_returns host child h0) as (e & h1 & Hr & Hf & _).
  - rewrite Hj. now apply toJSON_callable_get.
  - now exists e, h1.
Qed.

Lemma keys_nil_of_isEmpty (c : JSONFormatterConfiguration)
  (this : JSONFormatter) :
  isEmpty c this = true -> keys c this = [].
Proof.
  rewrite isEmpty_no_keys. intros H. apply Nat.eqb_eq in H.
  now apply length_zero_iff_nil.
Qed.

Lemma keys_cons_of_isEmpty (c : JSONFormatterConfiguration)
  (this : JSONFormatter) :
  isEmpty c this = false -> (0 < length (keys c this))%nat.
Proof.
  rewrite isEmpty_no_keys. intros H. apply Nat.eqb_neq in H. lia.
Qed.

(** Not animated, or animated over the fallback: [appendChildren] returns
    with the children of all the keys appended. *)
Lemma appendChildren_now (animated : bool) (this : JSONFormatter)
  (e : Element) (h : Heap) :
  animated = false \/ window_requestAnimationFrame host = false ->
  element this = Some e ->
  appendChildren host animated this h =
  (cs <- build_children (render host) (json this) (open this)
           (keys (config_object h) this) ;;
   ret (append_children cs this)) h.
Proof.
  intros Hmode He. unfold appendChildren, appendChildren_with. rewrite He.
  unfold bind at 1, read_config. 
  destruct (isEmpty (config_object h) this) eqn:Hem.
  - rewrite (keys_nil_of_isEmpty _ _ Hem). simpl. unfold bind, ret.
    now rewrite append_children_nil.
  - pose proof (keys_cons_of_isEmpty _ _ Hem) as Hlen.
    rewrite <- forEach_key_build.
    destruct animated; [|reflexivity].
    destruct Hmode as [Hf|Hraf]; [discriminate|].
    unfold requestAnimationFrame. rewrite Hraf.
    rewrite addAChild_flush; auto using steady_render; lia.
Qed.

Lemma appendChildren_now_returns (animated : bool) (this : JSONFormatter)
  (e : Element) (h : Heap) :
  animated = false \/ window_requestAnimationFrame host = false ->
  element this = Some e ->
  toJSON_callable (json this) = true ->
  exists cs h',
    appendChildren host animated this h = Returns (append_children cs this) h' /\
    build_children (render host) (json this) (open this)
      (keys (config_object h) this) h = Returns cs h' /\
    frames h' = frames h /\
    Forall2 (child_of this) (keys (config_object h) this) cs.
Proof.
  intros Hmode He Hc.
  destruct (children_of_value_return this (keys (config_object h) this) h Hc)
    as (cs & h' & Hb & Hf & Hcs).
  exists cs, h'. rewrite (appendChildren_now animated this e h Hmode He).
  unfold bind. rewrite Hb. auto.
Qed.

(** Not animated, or animated over the fallback: [removeChildren] returns
    with the container emptied. *)
Lemma removeChildren_now (animated : bool) (this : JSONFormatter)
  (e : Element) (h : Heap) :
  animated = false \/ window_requestAnimationFrame host = false ->
  element this = Some e ->
  removeChildren host animated this h =
  Returns (set_element (Some (set_children [] e)) this) h.
Proof.
  intros Hmode He. unfold removeChildren. rewrite He.
  destruct animated; [|reflexivity].
  destruct Hmode as [Hf|Hraf]; [discriminate|].
  unfold requestAnimationFrame. rewrite Hraf.
  apply removeAChild_flush; auto.
Qed.

End Attaching.

(** ** C4: the animated attach *)




(** ** [toggleOpen] and [openAtDepth], case by case *)

Section Toggling.

Variable host : Host.

Lemma toggleOpen_unrendered (this : JSONFormatter) (h : Heap) :
  element this = None ->
  toggleOpen host this h =
  Returns (set_isOpen (Some (negb (isOpen this))) this) h.
Proof.
  intros He. unfold toggleOpen.
  change (element (set_isOpen (Some (negb (isOpen this))) this))
    with (element this).
  now rewrite He.
Qed.

Lemma toggleOpen_closed (this : JSONFormatter) (e : Element) (h : Heap) :
  element this = Some e ->
  isOpen this = false ->
  toggleOpen host this h =
  (this' <- appendChildren host (flag (animateOpen (config_object h)))
              (set_isOpen (Some true) this) ;;
   ret (classList_open negb this')) h.
Proof.
  intros He Ho. unfold toggleOpen. rewrite Ho.
  change (element (set_isOpen (Some (negb false)) this)) with (element this).
  rewrite He. reflexivity.
Qed.

Lemma toggleOpen_open (this : JSONFormatter) (e : Element) (h : Heap) :
  element this = Some e ->
  isOpen this = true ->
  toggleOpen host this h =
  (this' <- removeChildren host (flag (animateClose (config_object h)))
              (set_isOpen (Some false) this) ;;
   ret (classList_open negb this')) h.
Proof.
  intros He Ho. unfold toggleOpen. rewrite Ho.
  change (element (set_isOpen (Some (negb true)) this)) with (element this).
  rewrite He. reflexivity.
Qed.

Lemma openAtDepth_unrendered (d : num) (this : JSONFormatter) (h : Heap) :
  element this = None ->
  num_lt0 d = false ->
  openAtDepth host d this h =
  Returns (set_isOpen (Some (negb (num_is0 d))) (set_open d this)) h.
Proof.
  intros He Hd. unfold openAtDepth. rewrite Hd.
  change (element (set_isOpen (Some (negb (num_is0 d))) (set_open d this)))
    with (element this).
  now rewrite He.
Qed.

Lemma openAtDepth_negative (d : num) (this : JSONFormatter) (h : Heap) :
  num_lt0 d = true -> openAtDepth host d this h = Returns this h.
Proof. intros Hd. unfold openAtDepth. now rewrite Hd. Qed.

Lemma openAtDepth_zero (this : JSONFormatter) (e : Element) (h : Heap) :
  element this = Some e ->
  openAtDepth host (Fin 0) this h =
  Returns
    (set_element (Some (set_open_class false (set_children [] e)))
       (set_isOpen (Some false) (set_open (Fin 0) this))) h.
Proof.
  intros He. unfold openAtDepth. simpl.
  change (element (set_isOpen (Some false) (set_open (Fin 0) this)))
    with (element this).
  rewrite He. unfold bind.
  rewrite (removeChildren_now host false
             (set_isOpen (Some false) (set_open (Fin 0) this)) e h
             (or_introl eq_refl) He).
  reflexivity.
Qed.

Lemma openAtDepth_positive (d : num) (this : JSONFormatter) (e : Element)
  (h : Heap) :
  element this = Some e ->
  num_gt0 d = true ->
  openAtDepth host d this h =
  (this' <- appendChildren host (flag (animateOpen (config_object h)))
              (set_element (Some (set_children [] e))
                 (set_isOpen (Some true) (set_open d this))) ;;
   ret (classList_open (fun _ => true) this')) h.
Proof.
  intros He Hd. unfold openAtDepth.
  assert (H0 : num_lt0 d = false /\ num_is0 d = false).
  { destruct d as [z|]; simpl in *; [|auto].
    apply Z.ltb_lt in Hd. split; [apply Z.ltb_ge | apply Z.eqb_neq]; lia. }
  destruct H0 as [-> ->]. change (negb false) with true.
  change (element (set_isOpen (Some true) (set_open d this)))
    with (element this).
  rewrite He. unfold bind at 1.
  rewrite (removeChildren_now host false
             (set_isOpen (Some true) (set_open d this)) e h
             (or_introl eq_refl) He).
  reflexivity.
Qed.

End Toggling.

(** ** C10: a node that has not been rendered *)




(** ** C8: the configuration object under construction and later *)

Lemma steady_perform (host : Host) (op : operation) (this : JSONFormatter) :
  steady (perform host op this).
Proof.
  destruct op; simpl;
    auto using steady_constructor, steady_render, steady_toggleOpen,
      steady_openAtDepth, steady_appendChildren, steady_removeChildren,
      steady_frame.
Qed.

Lemma steady_perform_all (host : Host) (ops : list operation)
  (this : JSONFormatter) :
  steady (perform_all host ops this).
Proof.
  revert this. induction ops as [|op ops IH]; intros this; simpl.
  - apply steady_ret.
  - apply steady_bind; [apply steady_perform | intros a; apply IH].
Qed.

(** C8, as the claim states it, fails: constructing a node over the
    configuration literal [{}] changes that object. *)
Lemma construction_writes_configuration :
  ~ (forall (c : JSONFormatterConfiguration) (v : value) (d : num)
            (k : option string) (this : JSONFormatter) (h' : Heap),
       constructor v d k (mkHeap c []) = Returns this h' ->
       config_object h' = c).
Proof.
  intros H.
  specialize (H emptyConfig VNull (Fin 1) None _ _ eq_refl).
  discriminate H.
Qed.

(** C8, amended.  The constructor returns the new node and has written
    into the configuration object it was given the default of each of
    [hoverPreviewEnabled] (false), [hoverCopyEnabled] (true),
    [hoverPreviewArrayCount] (100), [hoverPreviewFieldCount] (5) and
    [useToJSON] (true) that was unset; an option that was set, and the four
    other options, unset or not, are as they were.  From then on the object
    does not change: no sequence of constructions, renderings, toggles,
    depth resets, attachments, detachments and frames that returns changes
    it. *)
Theorem construction_fills_defaults (host : Host)
  (c : JSONFormatterConfiguration) (scheduled : list task)
  (v : value) (d : num) (k : option string) :
  exists this h',
    constructor v d k (mkHeap c scheduled) = Returns this h' /\
    frames h' = scheduled /\
    hoverPreviewEnabled (config_object h') =
      default_to (Some false) (hoverPreviewEnabled c) /\
    hoverCopyEnabled (config_object h') =
      default_to (Some true) (hoverCopyEnabled c) /\
    hoverPreviewArrayCount (config_object h') =
      default_to (Some 100) (hoverPreviewArrayCount c) /\
    hoverPreviewFieldCount (config_object h') =
      default_to (Some 5) (hoverPreviewFieldCount c) /\
    useToJSON (config_object h') = default_to (Some true) (useToJSON c) /\
    animateOpen (config_object h') = animateOpen c /\
    animateClose (config_object h') = animateClose c /\
    theme (config_object h') = theme c /\
    sortPropertiesBy (config_object h') = sortPropertiesBy c /\
    (forall (ops : list operation) (node node' : JSONFormatter) (h1 h2 : Heap),
       config_object h1 = config_object h' ->
       perform_all host ops node h1 = Returns node' h2 ->
       config_object h2 = config_object h').
Proof.
  eexists. eexists. split; [reflexivity|].
  repeat (split; [reflexivity|]).
  simpl. intros ops node node' h1 h2 E1 Hops.
  apply steady_perform_all in Hops. rewrite E1 in Hops.
  now apply evolves_defaults.
Qed.

(** A configuration with the five options set is left alone from the
    start. *)
Lemma with_defaults_when_set (c : JSONFormatterConfiguration) :
  hoverPreviewEnabled c <> None -> hoverCopyEnabled c <> None ->
  hoverPreviewArrayCount c <> None -> hoverPreviewFieldCount c <> None ->
  useToJSON c <> None ->
  with_defaults c = c.
Proof.
  destruct c as [a b x y f g t u s]. simpl.
  destruct a, b, x, y, u; intros; try congruence; reflexivity.
Qed.

(** ** C9: the default of [animateOpen] *)

Section AnimateOpen.

Variable host : Host.
Hypothesis window_has_requestAnimationFrame :
  window_requestAnimationFrame host = true.

(** With [animateOpen] on, opening a rendered node hands [addAChild] to the
    window and attaches nothing yet: this is the animated attach. *)
Lemma toggleOpen_animated (this : JSONFormatter) (e : Element) (h : Heap) :
  animateOpen (config_object h) = Some true ->
  element this = Some e ->
  isOpen this = false ->
  isEmpty (config_object h) this = false ->
  toggleOpen host this h =
  Returns (classList_open negb (set_isOpen (Some true) this))
    (mkHeap (config_object h) (frames h ++ [AddAChild (stamp e) 0])).
Proof.
  intros Ha He Ho Hne.
  rewrite (toggleOpen_closed host this e h He Ho), Ha.
  unfold bind, appendChildren, appendChildren_with.
  change (element (set_isOpen (Some true) this)) with (element this).
  rewrite He. unfold bind, read_config.
  change (isEmpty (config_object h) (set_isOpen (Some true) this))
    with (isEmpty (config_object h) this).
  rewrite Hne. simpl.
  unfold requestAnimationFrame.
  now rewrite window_has_requestAnimationFrame.
Qed.

End AnimateOpen.

(** C9 (the code departs from the claim).  [_defaultConfig] gives
    [animateOpen] the default true, but the constructor fills in five other
    options and not this one: in a configuration that does not specify it,
    it stays [undefined] after construction, and [appendChildren(undefined)]
    takes the default of its parameter, false.  Opening a rendered node by
    [toggleOpen] then attaches all the children at once and hands nothing
    to [requestAnimationFrame], in a window that has it: the attach is not
    the animated one.  (The node is closed, rendered and not empty, over a
    value whose [toJSON] members can be called.) *)
Theorem toggleOpen_without_animateOpen (host : Host)
  (c : JSONFormatterConfiguration) (this : JSONFormatter) (e : Element)
  (h : Heap) :
  window_requestAnimationFrame host = true ->
  animateOpen c = None ->
  config_object h = with_defaults c ->
  element this = Some e ->
  isOpen this = false ->
  isEmpty (config_object h) this = false ->
  toJSON_callable (json this) = true ->
  exists cs h',
    toggleOpen host this h =
      Returns (classList_open negb
                 (append_children cs (set_isOpen (Some true) this))) h' /\
    frames h' = frames h /\
    length cs = length (keys (config_object h) this) /\
    cs <> [].
Proof.
  intros Hraf Ha Hc He Ho Hne Hcall.
  rewrite (toggleOpen_closed host this e h He Ho).
  rewrite Hc. simpl animateOpen. rewrite Ha. simpl flag. rewrite <- Hc.
  destruct (appendChildren_now_returns host false
              (set_isOpen (Some true) this) e h (or_introl eq_refl) He Hcall)
    as (cs & h' & Happ & _ & Hf & Hcs).
  exists cs, h'. unfold bind. rewrite Happ.
  split; [reflexivity|]. split; [exact Hf|].
  pose proof (Forall2_length Hcs) as Hlen.
  change (keys (config_object h) (set_isOpen (Some true) this))
    with (keys (config_object h) this) in Hlen.
  split; [now symmetry|].
  pose proof (keys_cons_of_isEmpty _ _ Hne).
  destruct cs; [simpl in Hlen; lia | discriminate].
Qed.

Lemma toggleOpen_without_animateOpen_witness :
  exists cs h',
    toggleOpen (sample_host true)
      (rendered (sample_host true) two_members (Fin 0) emptyConfig)
      (mkHeap (with_defaults emptyConfig) []) =
    Returns
      (classList_open negb
         (append_children cs
            (set_isOpen (Some true)
               (rendered (sample_host true) two_members (Fin 0) emptyConfig))))
      h' /\
    frames h' = [] /\
    length cs = 2%nat.
Proof.
  destruct (toggleOpen_without_animateOpen (sample_host true) emptyConfig
              (rendered (sample_host true) two_members (Fin 0) emptyConfig)
              (match element (rendered (sample_host true) two_members (Fin 0)
                                emptyConfig) with
               | Some e => e
               | None => mkElement 0 None false
                           (mkTogglerLink false false None
                              (ContainerValue "" None) None false)
                           None false false false []
               end)
              (mkHeap (with_defaults emptyConfig) [])
              eq_refl eq_refl eq_refl eq_refl eq_refl eq_refl eq_refl)
    as (cs & h' & Ht & Hf & Hn & _).
  exists cs, h'. split; [exact Ht|]. split; [exact Hf | exact Hn].
Defined.

(** The same node under [_defaultConfig], where [animateOpen] is true:
    the attach is handed to [requestAnimationFrame]. *)
Example toggleOpen_default_configuration :
  toggleOpen (sample_host true)
    (rendered (sample_host true) two_members (Fin 0) _defaultConfig)
    (mkHeap _defaultConfig []) =
  Returns
    (classList_open negb
       (set_isOpen (Some true)
          (rendered (sample_host true) two_members (Fin 0) _defaultConfig)))
    (mkHeap _defaultConfig [AddAChild 0 0]).
Proof. reflexivity. Qed.

(** ** Concrete previews *)

Lemma object_preview_pairs_witness :
  length (kvs (sample_host false) _defaultConfig
            (mkJSONFormatter a_and_b (Fin 1) None None None)) = 2%nat /\
  ellipsis _defaultConfig (mkJSONFormatter a_and_b (Fin 1) None None None)
    <> "…".
Proof.
  destruct (object_preview_pairs (sample_host false) _defaultConfig
              (mkJSONFormatter a_and_b (Fin 1) None None None)
              None
              [("a", VNumber 1);
               ("b", VArray [VNumber 1; VNumber 2; VNumber 3])]
              5 eq_refl eq_refl)
    as (_ & _ & Hn & He & _).
  - discriminate.
  - split; [exact Hn|].
    intros H. apply He in H. apply H. reflexivity.
Defined.

Lemma array_preview_threshold_witness :
  getInlinepreview (sample_host false) (preview_threshold 3)
    (mkJSONFormatter (VArray [VNumber 1; VNumber 2; VNumber 3]) (Fin 0)
       (Some "b") None None) =
  "[preview, preview, preview]" /\
  getInlinepreview (sample_host false) (preview_threshold 2)
    (mkJSONFormatter (VArray [VNumber 1; VNumber 2; VNumber 3]) (Fin 0)
       (Some "b") None None) =
  "Array[3]".
Proof.
  split.
  - apply (array_preview_threshold (sample_host false) (preview_threshold 3)
             (mkJSONFormatter (VArray [VNumber 1; VNumber 2; VNumber 3])
                (Fin 0) (Some "b") None None)
             [VNumber 1; VNumber 2; VNumber 3] 3 eq_refl eq_refl).
    discriminate.
  - apply (array_preview_threshold (sample_host false) (preview_threshold 2)
             (mkJSONFormatter (VArray [VNumber 1; VNumber 2; VNumber 3])
                (Fin 0) (Some "b") None None)
             [VNumber 1; VNumber 2; VNumber 3] 2 eq_refl eq_refl).
    reflexivity.
Defined.

Lemma object_preview_ellipsis_at_count_witness :
  narrowKeys _defaultConfig (mkJSONFormatter five_members (Fin 1) None None None)
    = ["a"; "b"; "c"; "d"; "e"] /\
  ellipsis _defaultConfig (mkJSONFormatter five_members (Fin 1) None None None)
    = "…".
Proof.
  exact (object_preview_ellipsis_at_count _defaultConfig
           (mkJSONFormatter five_members (Fin 1) None None None)
           None
           [("a", VNumber 1); ("b", VNumber 2); ("c", VNumber 3);
            ("d", VNumber 4); ("e", VNumber 5)]
           5 eq_refl eq_refl eq_refl).
Defined.

(** The preview of that object under the default configuration: all five
    keys, then the marker. *)
Example five_members_preview :
  getInlinepreview (sample_host false) _defaultConfig
    (mkJSONFormatter five_members (Fin 1) None None None) =
  "{a:preview, b:preview, c:preview, d:preview, e:preview…}".
Proof. reflexivity. Qed.

(** ** Methods that hand nothing to [requestAnimationFrame]

    Rendering attaches children with the attach that is not animated: it
    leaves the scheduled callbacks as they are. *)

Lemma quiet_ret {A : Type} (a : A) : quiet (ret a).
Proof. now intros h a' h' [= _ <-]. Qed.

Lemma quiet_throw {A : Type} : quiet (@throw A).
Proof. intros h a h' H. discriminate H. Qed.

Lemma quiet_out_of_fuel {A : Type} : quiet (@out_of_fuel A).
Proof. intros h a h' H. discriminate H. Qed.

Lemma quiet_bind {A B : Type} (m : M A) (k : A -> M B) :
  quiet m -> (forall a, quiet (k a)) -> quiet (bind m k).
Proof.
  intros Hm Hk h b h'. unfold bind.
  destruct (m h) as [a h1| |] eqn:E; try discriminate.
  intros H. rewrite (Hk _ _ _ _ H). eapply Hm, E.
Qed.

Lemma quiet_read_config : quiet read_config.
Proof. now intros h a h' [= _ <-]. Qed.

Lemma quiet_constructor (v : value) (d : num) (k : option string) :
  quiet (constructor v d k).
Proof. now intros h a h' [= _ <-]. Qed.

Create HintDb quiet.

#[local] Hint Resolve quiet_ret quiet_throw quiet_out_of_fuel
  quiet_read_config quiet_constructor : quiet.

Ltac quiet_step :=
  match goal with
  | |- quiet (bind _ _) => apply quiet_bind; [|intros ?]
  | |- quiet (if ?b then _ else _) => destruct b
  | |- quiet (match ?x with _ => _ end) => destruct x
  | |- quiet _ => solve [auto with quiet]
  end.

Section Quiet.

Variable host : Host.

Lemma quiet_forEach_key (r : JSONFormatter -> M JSONFormatter)
  (ks : list string) (this : JSONFormatter) :
  (forall child, quiet (r child)) -> quiet (forEach_key r ks this).
Proof.
  intros Hr. revert this. induction ks as [|k ks IH]; intros this; simpl.
  - apply quiet_ret.
  - repeat quiet_step; auto.
Qed.

Lemma quiet_render_fuel (fuel : nat) (this : JSONFormatter) :
  quiet (render_fuel host fuel this).
Proof.
  revert this. induction fuel as [|fuel IH]; intros this; simpl;
    [apply quiet_out_of_fuel|].
  unfold render_with, render_value_span, appendChildren_with.
  repeat quiet_step; auto using quiet_forEach_key.
Qed.

Lemma quiet_render (this : JSONFormatter) : quiet (render host this).
Proof. apply quiet_render_fuel. Qed.

End Quiet.

(** ** The window's frames

    From here on the window has [requestAnimationFrame]: an animated
    attach or detach appends or removes one row per frame until its counter
    passes [MAX_ANIMATED_TOGGLE_ITEMS], and does the rest in that frame. *)

Lemma forEach_key_app (r : JSONFormatter -> M JSONFormatter)
  (ks1 ks2 : list string) (this : JSONFormatter) (h : Heap) :
  forEach_key r (ks1 ++ ks2)%list this h =
  (this1 <- forEach_key r ks1 this ;; forEach_key r ks2 this1) h.
Proof.
  revert this h. induction ks1 as [|k ks1 IH]; intros this h; simpl.
  - reflexivity.
  - unfold bind, constructor. simpl.
    destruct (r _ _) as [child h1| |]; try reflexivity.
    rewrite IH. reflexivity.
Qed.

Lemma forEach_key_fields (r : JSONFormatter -> M JSONFormatter)
  (ks : list string) (this this' : JSONFormatter) (h h' : Heap) :
  forEach_key r ks this h = Returns this' h' ->
  exists cs, this' = append_children cs this /\ length cs = length ks.
Proof.
  revert this h. induction ks as [|k ks IH]; intros this h; simpl.
  - intros [= <- <-]. exists []. now rewrite append_children_nil.
  - unfold bind, constructor. simpl.
    destruct (r _ _) as [child h1| |]; try discriminate.
    intros H. destruct (IH _ _ H) as (cs & -> & Hlen).
    exists (child :: cs). rewrite append_children_cons. simpl. now rewrite Hlen.
Qed.

Lemma heap_eta (h : Heap) : mkHeap (config_object h) (frames h) = h.
Proof. now destruct h. Qed.

Section Frames.

Variable host : Host.
Hypothesis window_has_requestAnimationFrame :
  window_requestAnimationFrame host = true.

Lemma frame_idle (this : JSONFormatter) (h : Heap) :
  frames h = [] -> frame host this h = Returns this h.
Proof.
  intros Hf. unfold frame. rewrite Hf. simpl. unfold ret.
  now rewrite <- Hf, heap_eta.
Qed.

Lemma run_frames_idle (n : nat) (this : JSONFormatter) (h : Heap) :
  frames h = [] -> run_frames host n this h = Returns this h.
Proof.
  intros Hf. induction n as [|n IH]; simpl; [reflexivity|].
  unfold bind. now rewrite frame_idle.
Qed.

Lemma addAChild_paced (r : JSONFormatter -> M JSONFormatter)
  (fuel row index : nat) (this : JSONFormatter) (h : Heap) (name : string) :
  (forall child, steady (r child)) ->
  nth_error (keys (config_object h) this) index = Some name ->
  (S index <= MAX_ANIMATED_TOGGLE_ITEMS)%nat ->
  addAChild host r (S fuel) row index this h =
  (this1 <- forEach_key r [name] this ;;
   if (S index <? length (keys (config_object h) this))%nat
   then _ <- schedule (AddAChild row (S index)) ;; ret this1
   else ret this1) h.
Proof.
  intros Hr Enth Hmax. simpl.
  unfold bind, read_config, constructor, schedule, ret. rewrite Enth. simpl.
  destruct (r _ _) as [child h1| |] eqn:Er; try reflexivity.
  apply Hr in Er. simpl in Er. apply evolves_defaults in Er.
  destruct (appendChild_fields child this) as (Ej & _).
  rewrite Er, keys_with_defaults, (keys_same_json _ this _ Ej).
  destruct (S index <? length (keys (config_object h) this))%nat;
    [|reflexivity].
  apply Nat.leb_le in Hmax. rewrite Nat.leb_antisym in Hmax.
  apply negb_true_iff in Hmax. rewrite Hmax.
  unfold requestAnimationFrame.
  rewrite window_has_requestAnimationFrame. reflexivity.
Qed.

Lemma removeAChild_paced (fuel row removed : nat) (this : JSONFormatter)
  (e : Element) (c : JSONFormatter) (rest : list JSONFormatter) (h : Heap) :
  element this = Some e ->
  children e = c :: rest ->
  (S removed <= MAX_ANIMATED_TOGGLE_ITEMS)%nat ->
  removeAChild host (S fuel) row removed this h =
  Returns (set_element (Some (set_children rest e)) this)
    (mkHeap (config_object h) (frames h ++ [RemoveAChild row (S removed)])).
Proof.
  intros He Ec Hmax. simpl. rewrite He, Ec.
  apply Nat.leb_le in Hmax. rewrite Nat.leb_antisym in Hmax.
  apply negb_true_iff in Hmax. rewrite Hmax.
  unfold requestAnimationFrame.
  now rewrite window_has_requestAnimationFrame.
Qed.

Lemma removeAChild_nothing (fuel row removed : nat) (this : JSONFormatter)
  (e : Element) (h : Heap) :
  element this = Some e ->
  children e = [] ->
  removeAChild host (S fuel) row removed this h = Returns this h.
Proof. intros He Ec. simpl. now rewrite He, Ec. Qed.

Lemma run_task_add (index : nat) (this : JSONFormatter) (e : Element)
  (h : Heap) :
  element this = Some e ->
  run_task host (AddAChild (stamp e) index) this h =
  addAChild host (render host)
    (S (length (keys (config_object h) this) - index)) (stamp e) index this h.
Proof.
  intros He. unfold run_task. rewrite He, Nat.eqb_refl. reflexivity.
Qed.

Lemma run_task_remove (removed : nat) (this : JSONFormatter) (e : Element)
  (h : Heap) :
  element this = Some e ->
  run_task host (RemoveAChild (stamp e) removed) this h =
  removeAChild host (S (length (children e))) (stamp e) removed this h.
Proof.
  intros He. unfold run_task. rewrite He, Nat.eqb_refl. reflexivity.
Qed.

Lemma append_children_element (cs : list JSONFormatter) (this : JSONFormatter)
  (e : Element) :
  element this = Some e ->
  element (append_children cs this) =
  Some (set_children (children e ++ cs) e).
Proof. intros He. unfold append_children. now rewrite He. Qed.

(** What one attach loop leaves when it returns. *)
Lemma forEach_key_result (ks : list string) (this this' : JSONFormatter)
  (e : Element) (h h' : Heap) :
  element this = Some e ->
  forEach_key (render host) ks this h = Returns this' h' ->
  frames h' = frames h /\
  (forall x, keys (config_object h') x = keys (config_object h) x) /\
  json this' = json this /\
  exists cs,
    length cs = length ks /\
    this' = append_children cs this /\
    element this' = Some (set_children (children e ++ cs) e).
Proof.
  intros He H.
  split; [exact (quiet_forEach_key (render host) ks this (quiet_render host)
                   _ _ _ H)|].
  split.
  { intros x. apply keys_evolves.
    exact (steady_forEach_key (render host) (steady_render host) ks this
             _ _ _ H). }
  destruct (forEach_key_fields _ _ _ _ _ _ H) as (cs & -> & Hlen).
  split; [apply append_children_fields|].
  exists cs. split; [exact Hlen|]. split; [reflexivity|].
  now apply append_children_element.
Qed.

(** An animated attach in flight (its callback scheduled at [index], not
    past the threshold) ends, after at most [11 - index] frames, with what
    the plain loop does on the keys from [index] on. *)
Lemma add_chain_drains (n index : nat) (this : JSONFormatter) (e : Element)
  (h : Heap) :
  element this = Some e ->
  frames h = [AddAChild (stamp e) index] ->
  (index < length (keys (config_object h) this))%nat ->
  (index <= MAX_ANIMATED_TOGGLE_ITEMS)%nat ->
  (11 - index <= n)%nat ->
  run_frames host n this h =
  forEach_key (render host) (skipn index (keys (config_object h) this)) this
    (mkHeap (config_object h) []).
Proof.
  unfold MAX_ANIMATED_TOGGLE_ITEMS.
  revert index this e h.
  induction n as [|n IH]; intros index this e h He Hf Hlt Hk Hn; [lia|].
  simpl run_frames. unfold bind, frame. rewrite Hf. simpl run_tasks.
  unfold bind. rewrite (run_task_add index this e _ He).
  set (h0 := mkHeap (config_object h) []).
  change (config_object h0) with (config_object h).
  destruct (skipn_nth_error _ _ Hlt) as (name & Enth & Eskip).
  destruct (Nat.eq_dec index 10) as [E10|N10].
  - rewrite (addAChild_flush host (render host) (steady_render host));
      [| right; unfold MAX_ANIMATED_TOGGLE_ITEMS; lia | exact Hlt
       | change (config_object h0) with (config_object h); lia].
    change (config_object h0) with (config_object h).
    destruct (forEach_key _ _ _ _) as [this' h'| |] eqn:E; try reflexivity.
    unfold ret. apply run_frames_idle.
    now destruct (forEach_key_result _ _ _ _ _ _ He E) as (-> & _).
  - rewrite (addAChild_paced (render host) _ _ _ _ h0 name
               (steady_render host) Enth)
      by (unfold MAX_ANIMATED_TOGGLE_ITEMS; lia).
    change (config_object h0) with (config_object h).
    rewrite Eskip.
    change (name :: skipn (S index) (keys (config_object h) this))
      with ([name] ++ skipn (S index) (keys (config_object h) this))%list.
    rewrite forEach_key_app. unfold bind.
    destruct (forEach_key (render host) [name] this h0)
      as [this1 h1| |] eqn:E1; try reflexivity.
    destruct (forEach_key_result _ _ _ _ _ _ He E1)
      as (Hf1 & Hk1 & Hj1 & cs & _ & _ & He1).
    simpl in Hf1.
    destruct (S index <? length (keys (config_object h) this))%nat eqn:Emore.
    + apply Nat.ltb_lt in Emore.
      unfold schedule, ret. rewrite Hf1.
      change ([] ++ [AddAChild (stamp e) (S index)])%list
        with [AddAChild (stamp e) (S index)].
      assert (Hkeys : keys (config_object h1) this1 =
                      keys (config_object h) this).
      { rewrite Hk1. apply (keys_same_json _ _ _ Hj1). }
      rewrite (IH (S index) this1 _
                 (mkHeap (config_object h1) [AddAChild (stamp e) (S index)])
                 He1);
        [ | reflexivity | cbn [config_object]; rewrite Hkeys; exact Emore
          | lia | lia ].
      cbn [config_object]. rewrite Hkeys. now rewrite <- Hf1, heap_eta.
    + apply Nat.ltb_ge in Emore.
      rewrite (skipn_all2 (keys (config_object h) this)) by lia.
      simpl. unfold ret. now apply run_frames_idle.
Qed.

(** An animated detach in flight ends, after at most [11 - removed]
    frames, with the container emptied. *)
Lemma remove_chain_drains (n removed : nat) (this : JSONFormatter)
  (e : Element) (h : Heap) :
  element this = Some e ->
  frames h = [RemoveAChild (stamp e) removed] ->
  (removed <= MAX_ANIMATED_TOGGLE_ITEMS)%nat ->
  (11 - removed <= n)%nat ->
  run_frames host n this h =
  Returns (set_element (Some (set_children [] e)) this)
    (mkHeap (config_object h) []).
Proof.
  unfold MAX_ANIMATED_TOGGLE_ITEMS.
  revert removed this e h.
  induction n as [|n IH]; intros removed this e h He Hf Hk Hn; [lia|].
  simpl run_frames. unfold bind, frame. rewrite Hf. simpl run_tasks.
  unfold bind. rewrite (run_task_remove removed this e _ He).
  set (h0 := mkHeap (config_object h) []).
  destruct (children e) as [|c rest] eqn:Ec.
  - rewrite (removeAChild_nothing _ _ _ _ e h0 He Ec). unfold ret.
    rewrite run_frames_idle by reflexivity. f_equal.
    destruct this as [v d k o el]. simpl in He. subst el.
    destruct e. simpl in Ec. subst. reflexivity.
  - destruct (Nat.eq_dec removed 10) as [E10|N10].
    + rewrite (removeAChild_flush host _ _ _ this e h0);
        [| right; unfold MAX_ANIMATED_TOGGLE_ITEMS; lia | exact He
         | rewrite Ec; simpl; lia].
      unfold ret. now rewrite run_frames_idle.
    + rewrite <- Ec at 1.
      rewrite (removeAChild_paced _ _ _ this e c rest h0 He Ec)
        by (unfold MAX_ANIMATED_TOGGLE_ITEMS; lia).
      unfold ret.
      rewrite (IH (S removed) _ (set_children rest e));
        [reflexivity | reflexivity | reflexivity | lia | lia].
Qed.

End Frames.

(** ** Two toggles in a row *)

Lemma emptied_same (this : JSONFormatter) (e : Element) :
  element this = Some e -> children e = [] ->
  set_element (Some (set_children [] e)) this = this.
Proof.
  intros He Ec. destruct this as [v d k o el]. simpl in He. subst el.
  destruct e. simpl in Ec. subst. reflexivity.
Qed.


Section TwoToggles.

Variable host : Host.


End TwoToggles.

Section ToggleCases.

Variable host : Host.

(** Opening a rendered, closed node without animation in flight: the
    children are there when [toggleOpen] returns. *)
Lemma toggle_open_now (this : JSONFormatter) (e : Element) (h : Heap) :
  flag (animateOpen (config_object h)) = false \/
    window_requestAnimationFrame host = false ->
  element this = Some e ->
  isOpen this = false ->
  toJSON_callable (json this) = true ->
  exists cs h1,
    toggleOpen host this h =
      Returns (classList_open negb
                 (append_children cs (set_isOpen (Some true) this))) h1 /\
    frames h1 = frames h /\
    evolves (config_object h) (config_object h1).
Proof.
  intros Hmode He Ho Hc.
  rewrite (toggleOpen_closed host this e h He Ho). unfold bind.
  destruct (appendChildren_now_returns host
              (flag (animateOpen (config_object h)))
              (set_isOpen (Some true) this) e h Hmode He Hc)
    as (cs & h1 & Ha & _ & Hf & _).
  exists cs, h1. rewrite Ha. split; [reflexivity|]. split; [exact Hf|].
  exact (steady_appendChildren host _ _ _ _ _ Ha).
Qed.

(** Closing a rendered, open node without animation in flight: the
    container is empty when [toggleOpen] returns. *)
Lemma toggle_closed_now (this : JSONFormatter) (e : Element) (h : Heap) :
  flag (animateClose (config_object h)) = false \/
    window_requestAnimationFrame host = false ->
  element this = Some e ->
  isOpen this = true ->
  toggleOpen host this h =
  Returns (classList_open negb
             (set_element (Some (set_children [] e))
                (set_isOpen (Some false) this))) h.
Proof.
  intros Hmode He Ho.
  rewrite (toggleOpen_open host this e h He Ho). unfold bind.
  now rewrite (removeChildren_now host _ (set_isOpen (Some false) this) e h
                 Hmode He).
Qed.

Hypothesis window_has_requestAnimationFrame :
  window_requestAnimationFrame host = true.


Lemma toggle_closed_later (this : JSONFormatter) (e : Element) (h : Heap) :
  flag (animateClose (config_object h)) = true ->
  element this = Some e ->
  isOpen this = true ->
  toggleOpen host this h =
  Returns (classList_open negb (set_isOpen (Some false) this))
    (mkHeap (config_object h) (frames h ++ [RemoveAChild (stamp e) 0])).
Proof.
  intros Ha He Ho.
  rewrite (toggleOpen_open host this e h He Ho), Ha.
  unfold bind, removeChildren.
  change (element (set_isOpen (Some false) this)) with (element this).
  rewrite He. unfold requestAnimationFrame.
  now rewrite window_has_requestAnimationFrame.
Qed.

End ToggleCases.

Section Closing.

Variable host : Host.

(** Closing a rendered, open node with nothing in flight, followed by the
    frames an animated detach needs: the container ends empty. *)
Lemma close_then_frames (this : JSONFormatter) (e : Element) (h : Heap)
  (n : nat) :
  element this = Some e ->
  isOpen this = true ->
  frames h = [] ->
  (11 <= n)%nat ->
  (this' <- toggleOpen host this ;; run_frames host n this') h =
  Returns (classList_open negb
             (set_element (Some (set_children [] e))
                (set_isOpen (Some false) this))) h.
Proof.
  intros He Ho Hf Hn. unfold bind.
  destruct (window_requestAnimationFrame host
            && flag (animateClose (config_object h))) eqn:Hmode.
  - apply andb_prop in Hmode. destruct Hmode as [Hraf Hac].
    rewrite (toggle_closed_later host Hraf this e h Hac He Ho), Hf.
    cbn [app].
    destruct this as [v d k o el]. simpl in He. subst el.
    rewrite (remove_chain_drains host Hraf n 0
               (classList_open negb
                  (set_isOpen (Some false) (mkJSONFormatter v d k o (Some e))))
               (set_open_class (negb (open_class e)) e)
               (mkHeap (config_object h) [RemoveAChild (stamp e) 0])
               eq_refl eq_refl)
      by (unfold MAX_ANIMATED_TOGGLE_ITEMS; lia).
    cbn [config_object]. rewrite <- Hf at 1. rewrite heap_eta. reflexivity.
  - assert (Hnow : flag (animateClose (config_object h)) = false \/
                   window_requestAnimationFrame host = false).
    { destruct (window_requestAnimationFrame host); [left | now right].
      exact Hmode. }
    rewrite (toggle_closed_now host this e h Hnow He Ho).
    now apply run_frames_idle.
Qed.

End Closing.

(** ** C2: toggling twice *)


Section TwoTogglesAnimated.

Variable host : Host.
Hypothesis window_has_requestAnimationFrame :
  window_requestAnimationFrame host = true.


End TwoTogglesAnimated.



(** ** C3: collapsing, then expanding to a depth *)



Section Reopening.

Variable host : Host.

(** [render] in terms of itself: the children of a node are rendered by
    [render]. *)
Lemma render_unfold (this : JSONFormatter) (h : Heap) :
  render host this h = render_with host (render host) this h.
Proof.
  unfold render at 1. simpl render_fuel. unfold render_with, bind. simpl.
  destruct (render_value_span host (config_object h) this h) as [vs h1| |];
    try reflexivity.
  match goal with
  | |- (if ?b then _ else _) _ = _ => destruct b eqn:Hopen
  end; [|reflexivity].
  unfold appendChildren_with. simpl. unfold bind. simpl.
  match goal with
  | |- (if ?b then _ else _) _ = _ => destruct b
  end; [reflexivity|].
  rewrite !forEach_key_build. unfold bind. simpl.
  apply andb_prop in Hopen. destruct Hopen as [Hobj _].
  unfold isObject in Hobj. simpl in Hobj.
  rewrite (build_children_ext (render_fuel host (depth (json this)))
             (render host)); [reflexivity|].
  intros key child h0 _ Hc. apply render_fuel_render.
  rewrite Hc. now apply depth_get.
Qed.


(** The animated attach, in a window that has [requestAnimationFrame]:
    only the first step is scheduled. *)
Lemma appendChildren_later (this : JSONFormatter) (e : Element) (h : Heap) :
  window_requestAnimationFrame host = true ->
  element this = Some e ->
  appendChildren host true this h =
  Returns this
    (mkHeap (config_object h)
       (frames h ++ if isEmpty (config_object h) this then []
                    else [AddAChild (stamp e) 0])).
Proof.
  intros Hraf He. unfold appendChildren, appendChildren_with.
  rewrite He. unfold bind, read_config.
  destruct (isEmpty (config_object h) this).
  - unfold ret. now rewrite app_nil_r, heap_eta.
  - unfold requestAnimationFrame. now rewrite Hraf.
Qed.

End Reopening.

Section ReopeningFrames.

Variable host : Host.



End ReopeningFrames.




(** ** Companions of C2 and C4 *)

(** Under the fallback the two toggles need no assumption on the children
    the closed node starts with: every row is gone when the second call
    returns. *)
Lemma toggle_twice_fallback (host : Host) (this : JSONFormatter)
  (e : Element) (h : Heap) :
  window_requestAnimationFrame host = false ->
  element this = Some e ->
  isOpen this = false ->
  toJSON_callable (json this) = true ->
  exists h',
    (this1 <- toggleOpen host this ;; toggleOpen host this1) h =
    Returns (set_element (Some (set_children [] e))
               (set_isOpen (Some false) this)) h' /\
    frames h' = frames h.
Proof.
  intros Hraf He Ho Hc. unfold bind.
  destruct (toggle_open_now host this e h (or_intror Hraf) He Ho Hc)
    as (cs & h1 & -> & Hf1 & _).
  destruct this as [v d k o el]. simpl in He. subst el.
  rewrite (toggle_closed_now host
             (classList_open negb
                (append_children cs
                   (set_isOpen (Some true) (mkJSONFormatter v d k o (Some e)))))
             (set_open_class (negb (open_class e))
                (set_children (children e ++ cs) e))
             h1 (or_intror Hraf) eq_refl eq_refl).
  exists h1. split; [|exact Hf1]. f_equal.
  unfold classList_open, set_element, set_isOpen, set_open_class, set_children.
  simpl. now rewrite negb_involutive.
Qed.


(** * More of the class

    Properties of the getters and methods beyond the ones above: the list
    of keys, the header of a row, what attaching and detaching leave
    untouched, the pace of the animation and the depth of a rendering. *)

(** ** The keys of arrays and objects *)

Lemma map_nth_seq {A : Type} (d : A) (l : list A) :
  map (fun i => nth i l d) (seq 0 (length l)) = l.
Proof.
  apply (nth_ext _ _ d d).
  - now rewrite length_map, length_seq.
  - intros n Hn. rewrite length_map, length_seq in Hn.
    rewrite (nth_indep _ d (nth (length l) l d))
      by now rewrite length_map, length_seq.
    rewrite (map_nth (fun i => nth i l d)), seq_nth by exact Hn.
    reflexivity.
Qed.

Lemma String_of_nat_injective (i j : nat) :
  String_of_nat i = String_of_nat j -> i = j.
Proof.
  intros H. pose proof (array_index_String_of_nat i) as Hi.
  rewrite H, array_index_String_of_nat in Hi. now injection Hi.
Qed.

Lemma sort_insert_permutation (compare : string -> string -> Z) (x : string)
  (l : list string) :
  Permutation (sort_insert compare x l) (x :: l).
Proof.
  induction l as [|y l IH]; simpl.
  - apply Permutation_refl.
  - destruct (compare x y <=? 0).
    + apply Permutation_refl.
    + eapply Permutation_trans; [apply perm_skip, IH | apply perm_swap].
Qed.

Lemma Array_sort_permutation (compare : string -> string -> Z)
  (l : list string) :
  Permutation (Array_sort compare l) l.
Proof.
  induction l as [|x l IH]; simpl.
  - apply Permutation_refl.
  - eapply Permutation_trans; [apply sort_insert_permutation|].
    now apply perm_skip.
Qed.

Lemma sort_insert_Forall (P : string -> Prop)
  (compare : string -> string -> Z) (x : string) (l : list string) :
  P x -> Forall P l -> Forall P (sort_insert compare x l).
Proof.
  intros Hx Hl. induction Hl as [|y l Hy Hl IH]; cbn [sort_insert].
  - now constructor.
  - destruct (compare x y <=? 0); repeat constructor; trivial.
Qed.

Lemma consistent_flip (compare : string -> string -> Z) (a b : string) :
  consistent compare -> 0 < compare a b -> compare b a < 0.
Proof.
  intros (Hrefl & Hsym & _ & _ & Hgt) Hab.
  destruct (Z.lt_trichotomy (compare b a) 0) as [Hlt|[Heq|Hba]].
  - exact Hlt.
  - apply Hsym in Heq. lia.
  - pose proof (Hgt a b a Hab Hba). pose proof (Hrefl a). lia.
Qed.

Lemma consistent_precedes_trans (compare : string -> string -> Z)
  (a b c : string) :
  consistent compare ->
  precedes compare a b -> precedes compare b c -> precedes compare a c.
Proof.
  intros Hc Hab Hbc. unfold precedes in *.
  destruct (Z_lt_le_dec 0 (compare a c)) as [Hac|Hac]; [|exact Hac].
  exfalso. pose proof (consistent_flip compare a c Hc Hac) as Hca.
  destruct Hc as (Hrefl & Hsym & Heq & Hlt & Hgt).
  destruct (Z.eq_dec (compare a b) 0) as [Eab|Nab];
    destruct (Z.eq_dec (compare b c) 0) as [Ebc|Nbc].
  - pose proof (Heq a b c Eab Ebc). lia.
  - assert (Hbc' : compare b c < 0) by lia.
    pose proof (Hlt b c a Hbc' Hca). pose proof (Hsym a b Eab). lia.
  - assert (Hab' : compare a b < 0) by lia.
    pose proof (Hlt c a b Hca Hab'). pose proof (Hsym b c Ebc). lia.
  - assert (Hab' : compare a b < 0) by lia.
    assert (Hbc' : compare b c < 0) by lia.
    pose proof (Hlt a b c Hab' Hbc'). lia.
Qed.

Lemma sort_insert_sorted (compare : string -> string -> Z) (x : string)
  (l : list string) :
  consistent compare ->
  StronglySorted (precedes compare) l ->
  StronglySorted (precedes compare) (sort_insert compare x l).
Proof.
  intros Hc Hl.
  induction Hl as [|y l Hl IH Hy]; cbn [sort_insert].
  - repeat constructor.
  - destruct (compare x y <=? 0) eqn:Hxy.
    + apply Z.leb_le in Hxy. constructor; [now constructor|].
      constructor; [exact Hxy|].
      eapply Forall_impl; [|exact Hy].
      intros z Hyz. exact (consistent_precedes_trans compare x y z Hc Hxy Hyz).
    + apply Z.leb_gt in Hxy. constructor; [exact IH|].
      apply sort_insert_Forall; [|exact Hy].
      pose proof (consistent_flip compare x y Hc Hxy). unfold precedes. lia.
Qed.

Lemma Array_sort_sorted (compare : string -> string -> Z)
  (l : list string) :
  consistent compare -> StronglySorted (precedes compare) (Array_sort compare l).
Proof.
  intros Hc. induction l as [|x l IH].
  - constructor.
  - now apply sort_insert_sorted.
Qed.

Lemma by_length_consistent : consistent by_length.
Proof. unfold consistent, by_length. repeat split; intros; lia. Qed.

(** X1. The keys of an array are its indices in decimal, in order and
    without repetition, whatever comparator [sortPropertiesBy] holds, and
    reading the array at each key gives back its elements in order. *)
Theorem array_keys_are_indices (c : JSONFormatterConfiguration)
  (this : JSONFormatter) (items : list value) :
  json this = VArray items ->
  keys c this = map String_of_nat (seq 0 (length items)) /\
  NoDup (keys c this) /\
  map (get (json this)) (keys c this) = items /\
  (forall i, (i < length items)%nat ->
     nth_error (keys c this) i = Some (String_of_nat i)).
Proof.
  intros Hj. pose proof (keys_of_array c this items Hj) as Hk.
  rewrite Hk, Hj. repeat split.
  - apply Finite.Injective_map_NoDup; [|apply seq_NoDup].
    intros i j. apply String_of_nat_injective.
  - rewrite map_map.
    rewrite (map_ext _ (fun i => nth i items VUndefined))
      by (intros i; apply get_array_element).
    apply map_nth_seq.
  - intros i Hi. rewrite nth_error_map, nth_error_nth' with (d := 0%nat)
      by now rewrite length_seq.
    now rewrite seq_nth.
Qed.

Lemma array_keys_are_indices_witness :
  keys (mkConfig None None None None None None None None (Some by_length))
    (mkJSONFormatter twelve_numbers (Fin 1) None None None) =
  map String_of_nat (seq 0 12) /\
  map (get twelve_numbers)
    (keys (mkConfig None None None None None None None None (Some by_length))
       (mkJSONFormatter twelve_numbers (Fin 1) None None None)) =
  map (fun i => VNumber (Z.of_nat i)) (seq 0 12).
Proof.
  destruct (array_keys_are_indices
              (mkConfig None None None None None None None None (Some by_length))
              (mkJSONFormatter twelve_numbers (Fin 1) None None None)
              (map (fun i => VNumber (Z.of_nat i)) (seq 0 12)) eq_refl)
    as (Hk & _ & Hg & _).
  split; [exact Hk | exact Hg].
Defined.

(** X2. The keys of an object are its member names: in the order of
    enumeration without [sortPropertiesBy], and with a comparator a
    rearrangement of them that loses and repeats none; when the comparator
    is a consistent comparison function in the sense of ECMAScript, the
    keys are sorted by it: every key comes before, or is as good as, all
    those after it. *)
Theorem object_keys_sorted (c : JSONFormatterConfiguration)
  (this : JSONFormatter) (proto : option string)
  (members : list (string * value)) :
  json this = VObject proto members ->
  Permutation (keys c this) (map fst members) /\
  (sortPropertiesBy c = None -> keys c this = map fst members) /\
  (forall compare, sortPropertiesBy c = Some compare ->
     consistent compare ->
     StronglySorted (precedes compare) (keys c this)).
Proof.
  intros Hj. unfold keys, isObject, isArray. rewrite Hj. cbn.
  split; [|split].
  - destruct (sortPropertiesBy c) as [compare|].
    + apply Array_sort_permutation.
    + apply Permutation_refl.
  - now intros ->.
  - intros compare -> Hc. now apply Array_sort_sorted.
Qed.

Lemma object_keys_sorted_witness :
  Permutation
    (keys (mkConfig None None None None None None None None (Some by_length))
       (mkJSONFormatter
          (VObject None
             [("ccc", VNull); ("a", VNull); ("bb", VNull); ("d", VNull)])
          (Fin 1) None None None))
    ["ccc"; "a"; "bb"; "d"] /\
  StronglySorted (precedes by_length)
    (keys (mkConfig None None None None None None None None (Some by_length))
       (mkJSONFormatter
          (VObject None
             [("ccc", VNull); ("a", VNull); ("bb", VNull); ("d", VNull)])
          (Fin 1) None None None)).
Proof.
  destruct (object_keys_sorted
              (mkConfig None None None None None None None None (Some by_length))
              (mkJSONFormatter
                 (VObject None
                    [("ccc", VNull); ("a", VNull); ("bb", VNull); ("d", VNull)])
                 (Fin 1) None None None)
              None [("ccc", VNull); ("a", VNull); ("bb", VNull); ("d", VNull)]
              eq_refl) as (Hp & _ & Hs).
  split; [exact Hp | exact (Hs by_length eq_refl by_length_consistent)].
Defined.

(** X3. On an array or an object [isEmpty] holds exactly when the value
    has no element and no member, with or without a comparator. *)
Theorem isEmpty_exact_on_containers (c : JSONFormatterConfiguration)
  (this : JSONFormatter) :
  isObject this = true ->
  (isEmpty c this = true <->
   json this = VArray [] \/ exists proto, json this = VObject proto []).
Proof.
  unfold isObject. destruct (json this) as [| | | | |items|proto members] eqn:Hj;
    try discriminate; intros _.
  - rewrite (isEmpty_of_array c this items Hj). split.
    + intros ->. now left.
    + intros [[= ->]|[p [=]]]. reflexivity.
  - rewrite (isEmpty_of_object c this proto members Hj). split.
    + intros ->. right. now exists proto.
    + intros [[=]|[p [= _ ->]]]. reflexivity.
Qed.

Lemma isEmpty_exact_on_containers_witness :
  isEmpty (mkConfig None None None None None None None None (Some by_length))
    (mkJSONFormatter (VObject None []) (Fin 1) None None None) = true /\
  isEmpty _defaultConfig
    (mkJSONFormatter two_members (Fin 1) None None None) = false.
Proof.
  split.
  - apply (isEmpty_exact_on_containers
             (mkConfig None None None None None None None None (Some by_length))
             (mkJSONFormatter (VObject None []) (Fin 1) None None None) eq_refl).
    right. now exists None.
  - reflexivity.
Defined.

(** ** What attaching and detaching leave untouched *)

Lemma with_children_twice (cs1 cs2 : list JSONFormatter) (this : JSONFormatter) :
  with_children cs2 (with_children cs1 this) = with_children cs2 this.
Proof.
  unfold with_children. destruct this as [v d k o [e|]]; reflexivity.
Qed.

Lemma with_children_materialized (this : JSONFormatter) :
  with_children (materialized this) this = this.
Proof.
  unfold with_children, materialized.
  destruct this as [v d k o [[s t oc tl ct ob ar em cs]|]]; reflexivity.
Qed.

Lemma append_children_with (cs : list JSONFormatter) (this : JSONFormatter) :
  append_children cs this = with_children (materialized this ++ cs) this.
Proof.
  unfold append_children, with_children, materialized.
  destruct (element this); reflexivity.
Qed.

Lemma appendChild_with (child this : JSONFormatter) :
  appendChild child this = with_children (materialized this ++ [child]) this.
Proof.
  unfold appendChild, with_children, materialized.
  destruct (element this); reflexivity.
Qed.

Lemma reshaped_refl (this : JSONFormatter) : reshaped this this.
Proof.
  exists (materialized this). symmetry. apply with_children_materialized.
Qed.

Lemma reshaped_trans (this1 this2 this3 : JSONFormatter) :
  reshaped this1 this2 -> reshaped this2 this3 -> reshaped this1 this3.
Proof.
  intros [cs1 ->] [cs2 ->]. exists cs2. apply with_children_twice.
Qed.

Lemma reshaped_appendChild (child this : JSONFormatter) :
  reshaped this (appendChild child this).
Proof. eexists. apply appendChild_with. Qed.

Lemma reshaped_append_children (cs : list JSONFormatter) (this : JSONFormatter) :
  reshaped this (append_children cs this).
Proof. eexists. apply append_children_with. Qed.

Lemma reshapes_out_of_fuel (this : JSONFormatter) : reshapes this out_of_fuel.
Proof. intros h this' h' [=]. Qed.

Lemma reshapes_ret (this this' : JSONFormatter) :
  reshaped this this' -> reshapes this (ret this').
Proof. intros H h x h' [= <- <-]. exact H. Qed.

Lemma reshapes_from (this this1 : JSONFormatter) (m : M JSONFormatter) :
  reshaped this this1 -> reshapes this1 m -> reshapes this m.
Proof.
  intros H Hm h this' h' E. eapply reshaped_trans; [exact H|]. eapply Hm, E.
Qed.

Section Reshaping.

Variable host : Host.

Lemma reshapes_requestAnimationFrame (t : task) (cb : M JSONFormatter)
  (this0 this : JSONFormatter) :
  reshaped this0 this -> reshapes this0 cb ->
  reshapes this0 (requestAnimationFrame host t cb this).
Proof.
  intros H Hcb. unfold requestAnimationFrame.
  destruct (window_requestAnimationFrame host); [|exact Hcb].
  intros h this' h'. unfold bind, schedule, ret. intros [= <- <-]. exact H.
Qed.

Lemma reshapes_addAChild (r : JSONFormatter -> M JSONFormatter)
  (fuel row index : nat) (this : JSONFormatter) :
  reshapes this (addAChild host r fuel row index this).
Proof.
  revert index this. induction fuel as [|fuel IH]; intros index this.
  - apply reshapes_out_of_fuel.
  - intros h this' h'. cbn [addAChild]. unfold bind, read_config, constructor.
    destruct (r _ _) as [child h1| |]; try discriminate.
    destruct (_ <? _)%nat; [destruct (_ <? _)%nat|].
    + apply (reshapes_from this _ _ (reshaped_appendChild child this) (IH _ _)).
    + apply reshapes_requestAnimationFrame.
      * apply reshaped_appendChild.
      * apply (reshapes_from this _ _ (reshaped_appendChild child this) (IH _ _)).
    + apply reshapes_ret, reshaped_appendChild.
Qed.

Lemma reshapes_forEach_key (r : JSONFormatter -> M JSONFormatter)
  (ks : list string) (this : JSONFormatter) :
  reshapes this (forEach_key r ks this).
Proof.
  intros h this' h' E. destruct (forEach_key_fields r ks this this' h h' E)
    as (cs & -> & _). apply reshaped_append_children.
Qed.

Lemma reshapes_appendChildren_with (r : JSONFormatter -> M JSONFormatter)
  (animated : bool) (this : JSONFormatter) :
  reshapes this (appendChildren_with host r animated this).
Proof.
  unfold appendChildren_with. destruct (element this) as [e|]; [|intros h x h' [=]].
  intros h this' h'. unfold bind, read_config.
  destruct (isEmpty _ _); [apply reshapes_ret, reshaped_refl|].
  destruct animated.
  - apply reshapes_requestAnimationFrame;
      [apply reshaped_refl | apply reshapes_addAChild].
  - apply reshapes_forEach_key.
Qed.

Lemma reshapes_removeAChild (fuel row removed : nat) (this : JSONFormatter) :
  reshapes this (removeAChild host fuel row removed this).
Proof.
  revert removed this. induction fuel as [|fuel IH]; intros removed this.
  - apply reshapes_out_of_fuel.
  - cbn [removeAChild].
    destruct (element this) as [e|] eqn:He; [|apply reshapes_ret, reshaped_refl].
    destruct (children e) as [|c rest]; [apply reshapes_ret, reshaped_refl|].
    assert (Hr : reshaped this (set_element (Some (set_children rest e)) this)).
    { exists rest. unfold with_children. now rewrite He. }
    destruct (_ <? _)%nat.
    + apply (reshapes_from this _ _ Hr (IH _ _)).
    + apply reshapes_requestAnimationFrame; [exact Hr|].
      apply (reshapes_from this _ _ Hr (IH _ _)).
Qed.

Lemma reshapes_removeChildren (animated : bool) (this : JSONFormatter) :
  reshapes this (removeChildren host animated this).
Proof.
  unfold removeChildren.
  destruct (element this) as [e|] eqn:He; [|intros h x h' [=]].
  destruct animated.
  - apply reshapes_requestAnimationFrame;
      [apply reshaped_refl | apply reshapes_removeAChild].
  - apply reshapes_ret. exists []. unfold with_children. now rewrite He.
Qed.

Lemma reshapes_appendChildren (animated : bool) (this : JSONFormatter) :
  reshapes this (appendChildren host animated this).
Proof. apply reshapes_appendChildren_with. Qed.

Lemma reshapes_run_task (t : task) (this : JSONFormatter) :
  reshapes this (run_task host t this).
Proof.
  unfold run_task.
  destruct (element this) as [e|]; [|apply reshapes_ret, reshaped_refl].
  destruct t as [row index|row removed];
    (destruct (_ =? _)%nat; [|apply reshapes_ret, reshaped_refl]).
  - intros h this' h'. unfold bind, read_config. apply reshapes_addAChild.
  - apply reshapes_removeAChild.
Qed.

Lemma reshapes_run_tasks (ts : list task) (this : JSONFormatter) :
  reshapes this (run_tasks host ts this).
Proof.
  revert this. induction ts as [|t ts IH]; intros this.
  - apply reshapes_ret, reshaped_refl.
  - intros h this' h'. cbn [run_tasks]. unfold bind.
    destruct (run_task host t this h) as [this1 h1| |] eqn:E; try discriminate.
    intros E'. eapply reshaped_trans.
    + eapply reshapes_run_task, E.
    + eapply IH, E'.
Qed.

Lemma reshapes_frame (this : JSONFormatter) : reshapes this (frame host this).
Proof. intros h this' h'. unfold frame. apply reshapes_run_tasks. Qed.

End Reshaping.

(** ** The shape of what the methods return *)

Section Shapes.

Variable host : Host.

Lemma render_value_span_heap (c : JSONFormatterConfiguration)
  (this : JSONFormatter) (h h' : Heap) (vs : ValueSpan) :
  render_value_span host c this h = Returns vs h' -> h' = h.
Proof.
  unfold render_value_span, ret, throw.
  destruct (isObject this && negb (getter_useToJSON c this)).
  - now intros [= _ <-].
  - destruct (getter_useToJSON c this).
    + destruct (call_toJSON (json this)); [now intros [= _ <-] | discriminate].
    + now intros [= _ <-].
Qed.

(** If [render] returns, the node has a new row, made as [row_made] says;
    its children container holds rows only if the node is an open array or
    object. *)
Lemma render_with_row (r : JSONFormatter -> M JSONFormatter)
  (this this' : JSONFormatter) (h h' : Heap) :
  render_with host r this h = Returns this' h' ->
  exists vs e,
    render_value_span host (config_object h) this h = Returns vs h /\
    this' = set_element (Some e) this /\
    row_made host (config_object h) this vs e /\
    (isObject this && isOpen this = false -> children e = [] /\ h' = h) /\
    (isObject this && isOpen this = true ->
     forall row, element this' = Some row ->
       forEach_key r
         (if isEmpty (config_object h) this then []
          else keys (config_object h) this)
         (set_element (Some (set_children [] row)) this) h =
       Returns this' h').
Proof.
  unfold render_with, bind, read_config.
  destruct (render_value_span host (config_object h) this h) as [vs h1| |] eqn:Ev;
    try discriminate.
  pose proof (render_value_span_heap _ _ _ _ _ Ev) as ->.
  match goal with
  | |- context [set_element (Some ?el) this] => remember el as row eqn:Hrow
  end.
  assert (Hmade : row_made host (config_object h) this vs row).
  { subst row. unfold row_made. cbn. destruct (key this); repeat split. }
  assert (Hch : children row = []) by now subst row.
  clear Hrow.
  change (isObject (set_element (Some row) this)) with (isObject this).
  change (isOpen (set_element (Some row) this)) with (isOpen this).
  destruct (isObject this && isOpen this) eqn:Hopen.
  - unfold appendChildren_with, bind, read_config.
    change (element (set_element (Some row) this)) with (Some row).
    cbv beta iota.
    change (isEmpty (config_object h) (set_element (Some row) this))
      with (isEmpty (config_object h) this).
    change (keys (config_object h) (set_element (Some row) this))
      with (keys (config_object h) this).
    intros E.
    assert (E' : forEach_key r
                   (if isEmpty (config_object h) this then []
                    else keys (config_object h) this)
                   (set_element (Some row) this) h = Returns this' h').
    { destruct (isEmpty (config_object h) this); exact E. }
    clear E.
    destruct (forEach_key_fields _ _ _ _ _ _ E') as (cs & Hthis & _).
    exists vs, (set_children (children row ++ cs) row).
    split; [reflexivity|]. split; [exact Hthis|]. split; [exact Hmade|].
    split; [discriminate|].
    intros _ row' Hrow'. rewrite Hthis in Hrow'. cbn in Hrow'.
    injection Hrow' as <-.
    replace (set_children [] (set_children (children row ++ cs) row)) with row;
      [exact E'|].
    destruct row; cbn in *. now subst.
  - unfold ret. intros [= <- <-]. exists vs, row.
    split; [reflexivity|]. split; [reflexivity|]. split; [exact Hmade|].
    split; [now intros _ | discriminate].
Qed.

Lemma render_row (this this' : JSONFormatter) (h h' : Heap) :
  render host this h = Returns this' h' ->
  exists vs e,
    render_value_span host (config_object h) this h = Returns vs h /\
    this' = set_element (Some e) this /\
    row_made host (config_object h) this vs e /\
    (isObject this && isOpen this = false -> children e = [] /\ h' = h).
Proof.
  rewrite render_unfold. intros E.
  destruct (render_with_row _ _ _ _ _ E) as (vs & e & H1 & H2 & H3 & H4 & _).
  now exists vs, e.
Qed.

Lemma toggleOpen_shape (this this' : JSONFormatter) (h h' : Heap) :
  toggleOpen host this h = Returns this' h' ->
  exists cs,
    this' = classList_open negb
              (with_children cs (set_isOpen (Some (negb (isOpen this))) this)).
Proof.
  unfold toggleOpen.
  change (element (set_isOpen (Some (negb (isOpen this))) this))
    with (element this).
  destruct (element this) as [e|] eqn:He.
  - unfold bind, read_config.
    match goal with
    | |- context [match ?m with Returns _ _ => _ | Throws => _ | OutOfFuel => _ end] =>
        destruct m as [this1 h1| |] eqn:E; try discriminate
    end.
    unfold ret. intros [= <- <-].
    assert (Hr : reshaped (set_isOpen (Some (negb (isOpen this))) this) this1).
    { destruct (isOpen (set_isOpen (Some (negb (isOpen this))) this)).
      - eapply reshapes_appendChildren, E.
      - eapply reshapes_removeChildren, E. }
    destruct Hr as [cs ->]. now exists cs.
  - unfold ret. intros [= <- <-]. exists [].
    destruct this as [v d k o el]. cbn in He. now subst el.
Qed.

Lemma openAtDepth_shape (d : num) (this this' : JSONFormatter) (h h' : Heap) :
  num_lt0 d = false ->
  openAtDepth host d this h = Returns this' h' ->
  exists cs,
    this' = classList_open (fun _ => negb (num_is0 d))
              (with_children cs
                 (set_isOpen (Some (negb (num_is0 d))) (set_open d this))).
Proof.
  intros Hd. unfold openAtDepth. rewrite Hd.
  set (this0 := set_isOpen (Some (negb (num_is0 d))) (set_open d this)).
  change (element this0) with (element this).
  destruct (element this) as [e|] eqn:He.
  - unfold bind.
    destruct (removeChildren host false this0 h) as [this1 h1| |] eqn:E1;
      try discriminate.
    pose proof (reshapes_removeChildren host false this0 h this1 h1 E1) as Hr1.
    destruct (num_is0 d).
    + unfold ret. intros [= <- <-]. destruct Hr1 as [cs ->]. now exists cs.
    + unfold read_config.
      destruct (appendChildren host _ this1 h1) as [this2 h2| |] eqn:E2;
        try discriminate.
      unfold ret. intros [= <- <-].
      pose proof (reshapes_appendChildren host _ this1 h1 this2 h2 E2) as Hr2.
      destruct (reshaped_trans _ _ _ Hr1 Hr2) as [cs ->]. now exists cs.
  - unfold ret. intros [= <- <-]. exists [].
    subst this0. destruct this as [v d0 k o el]. cbn in He. now subst el.
Qed.

End Shapes.

(** ** Returning in every mode *)

Section AllModes.

Variable host : Host.

Lemma appendChildren_returns (animated : bool) (this : JSONFormatter)
  (e : Element) (h : Heap) :
  element this = Some e ->
  toJSON_callable (json this) = true ->
  exists this' h', appendChildren host animated this h = Returns this' h'.
Proof.
  intros He Hc.
  destruct (window_requestAnimationFrame host) eqn:Hraf; [destruct animated|].
  - rewrite (appendChildren_later host this e h Hraf He). eauto.
  - destruct (appendChildren_now_returns host false this e h
                (or_introl eq_refl) He Hc) as (cs & h' & -> & _). eauto.
  - destruct (appendChildren_now_returns host animated this e h
                (or_intror Hraf) He Hc) as (cs & h' & -> & _). eauto.
Qed.

Lemma removeChildren_returns (animated : bool) (this : JSONFormatter)
  (e : Element) (h : Heap) :
  element this = Some e ->
  exists this' h', removeChildren host animated this h = Returns this' h'.
Proof.
  intros He.
  destruct (window_requestAnimationFrame host) eqn:Hraf; [destruct animated|].
  - unfold removeChildren, requestAnimationFrame. rewrite He, Hraf.
    unfold bind, schedule, ret. eauto.
  - rewrite (removeChildren_now host false this e h (or_introl eq_refl) He).
    eauto.
  - rewrite (removeChildren_now host animated this e h (or_intror Hraf) He).
    eauto.
Qed.

Lemma toggleOpen_returns (this : JSONFormatter) (h : Heap) :
  toJSON_callable (json this) = true ->
  exists this' h', toggleOpen host this h = Returns this' h'.
Proof.
  intros Hc. unfold toggleOpen.
  set (this0 := set_isOpen (Some (negb (isOpen this))) this).
  destruct (element this0) as [e|] eqn:He; [|unfold ret; eauto].
  unfold bind, read_config.
  destruct (isOpen this0).
  - destruct (appendChildren_returns (flag (animateOpen (config_object h)))
                this0 e h He Hc) as (this1 & h1 & ->). unfold ret. eauto.
  - destruct (removeChildren_returns (flag (animateClose (config_object h)))
                this0 e h He) as (this1 & h1 & ->). unfold ret. eauto.
Qed.

Lemma openAtDepth_returns (d : num) (this : JSONFormatter) (h : Heap) :
  toJSON_callable (json this) = true ->
  exists this' h', openAtDepth host d this h = Returns this' h'.
Proof.
  intros Hc. unfold openAtDepth.
  destruct (num_lt0 d); [unfold ret; eauto|].
  set (this0 := set_isOpen (Some (negb (num_is0 d))) (set_open d this)).
  destruct (element this0) as [e|] eqn:He; [|unfold ret; eauto].
  unfold bind.
  rewrite (removeChildren_now host false this0 e h (or_introl eq_refl) He).
  destruct (num_is0 d); [unfold ret; eauto|].
  unfold read_config.
  destruct (appendChildren_returns (flag (animateOpen (config_object h)))
              (set_element (Some (set_children [] e)) this0)
              (set_children [] e) h eq_refl Hc) as (this1 & h1 & ->).
  unfold ret. eauto.
Qed.

Lemma perform_effect (op : operation) (this this' : JSONFormatter)
  (h h' : Heap) :
  keeps_node op = true ->
  perform host op this h = Returns this' h' ->
  json this' = json this /\
  key this' = key this /\
  (marker_agrees this -> marker_agrees this') /\
  (keeps_row op = true -> row_kept this this').
Proof.
  assert (Hreshaped : reshaped this this' ->
            json this' = json this /\ key this' = key this /\
            (marker_agrees this -> marker_agrees this') /\ row_kept this this').
  { intros [cs ->]. unfold with_children, marker_agrees, row_kept.
    destruct this as [v d k o [e|]]; cbn;
      (split; [reflexivity|split; [reflexivity|split]]).
    - intros Hm e' [= <-]. apply (Hm e eq_refl).
    - exists (set_children cs e). repeat split.
    - intros _ e' [=].
    - reflexivity. }
  destruct op as [v0 d0 k0| | |d|animated|animated|]; cbn [keeps_node perform];
    try discriminate; intros _ E.
  - destruct (render_row host _ _ _ _ E) as (vs & e & _ & -> & Hrow & _).
    split; [reflexivity|split; [reflexivity|split]]; [|discriminate].
    intros _ e' [= <-]. apply Hrow.
  - destruct (toggleOpen_shape host _ _ _ _ E) as [cs ->].
    unfold classList_open, with_children, marker_agrees, row_kept.
    destruct this as [v d k o [e|]]; cbn;
      (split; [reflexivity|split; [reflexivity|split]]).
    + intros Hm e' [= <-]. cbn. now rewrite (Hm e eq_refl).
    + intros _. eexists. split; [reflexivity|]. repeat split.
    + intros _ e' [=].
    + reflexivity.
  - destruct (num_lt0 d) eqn:Hd.
    + rewrite (openAtDepth_negative host d this h Hd) in E.
      injection E as <- <-.
      split; [reflexivity|split; [reflexivity|split]]; [trivial|].
      intros _. apply Hreshaped, reshaped_refl.
    + destruct (openAtDepth_shape host d _ _ _ _ Hd E) as [cs ->].
      unfold classList_open, with_children, marker_agrees, row_kept.
      destruct this as [v d1 k o [e|]]; cbn;
        (split; [reflexivity|split; [reflexivity|split]]).
      * intros _ e' [= <-]. reflexivity.
      * intros _. eexists. split; [reflexivity|]. repeat split.
      * intros _ e' [=].
      * reflexivity.
  - destruct (Hreshaped (reshapes_appendChildren host _ _ _ _ _ E))
      as (H1 & H2 & H3 & H4). auto.
  - destruct (Hreshaped (reshapes_removeChildren host _ _ _ _ _ E))
      as (H1 & H2 & H3 & H4). auto.
  - destruct (Hreshaped (reshapes_frame host _ _ _ _ E))
      as (H1 & H2 & H3 & H4). auto.
Qed.

Lemma perform_all_effect (ops : list operation) (this this' : JSONFormatter)
  (h h' : Heap) :
  forallb keeps_node ops = true ->
  perform_all host ops this h = Returns this' h' ->
  json this' = json this /\
  key this' = key this /\
  (marker_agrees this -> marker_agrees this') /\
  (forallb keeps_row ops = true -> row_kept this this').
Proof.
  revert this h. induction ops as [|op ops IH]; intros this h Hops.
  - unfold perform_all, ret. intros [= <- <-]. repeat split; trivial.
    intros _. unfold row_kept. destruct (element this) as [e|]; trivial.
    exists e. repeat split.
  - cbn [forallb] in Hops. apply andb_prop in Hops. destruct Hops as [Hop Hops].
    cbn [perform_all]. unfold bind.
    destruct (perform host op this h) as [this1 h1| |] eqn:E1; try discriminate.
    intros E2.
    destruct (perform_effect op _ _ _ _ Hop E1) as (J1 & K1 & M1 & R1).
    destruct (IH _ _ Hops E2) as (J2 & K2 & M2 & R2).
    split; [congruence|]. split; [congruence|]. split; [auto|].
    cbn [forallb]. intros Hrows. apply andb_prop in Hrows.
    destruct Hrows as [Hrow Hrows]. specialize (R1 Hrow). specialize (R2 Hrows).
    unfold row_kept in *. destruct (element this) as [e|].
    + destruct R1 as (e1 & He1 & Hh1). rewrite He1 in R2.
      destruct R2 as (e2 & He2 & Hh2). exists e2. split; [exact He2|].
      unfold same_header in *. intuition congruence.
    + now rewrite R1 in R2.
Qed.

End AllModes.

(** ** Frames and sequences that return *)

Lemma theme_evolves (c c' : JSONFormatterConfiguration) :
  evolves c c' -> theme c' = theme c.
Proof. intros [->| ->]; reflexivity. Qed.

Lemma theme_is_class_evolves (c c' : JSONFormatterConfiguration) :
  evolves c c' -> theme_is_class c -> theme_is_class c'.
Proof.
  intros Hev. unfold theme_is_class. now rewrite (theme_evolves c c' Hev).
Qed.

Lemma toJSON_callable_get_opt (v : value) (name : option string) :
  toJSON_callable v = true -> toJSON_callable (get_opt v name) = true.
Proof.
  destruct name as [k|]; [apply toJSON_callable_get | reflexivity].
Qed.

Section FramesReturn.

Variable host : Host.

Lemma addAChild_returns (fuel row index : nat) (this : JSONFormatter)
  (h : Heap) :
  toJSON_callable (json this) = true ->
  (length (keys (config_object h) this) - index < fuel)%nat ->
  exists this' h',
    addAChild host (render host) fuel row index this h = Returns this' h'.
Proof.
  revert index this h.
  induction fuel as [|fuel IH]; intros index this h Hc Hfuel; [lia|].
  cbn [addAChild]. unfold bind, read_config, constructor.
  cbn [config_object frames].
  set (name := nth_error (keys (config_object h) this) index).
  set (h0 := mkHeap (with_defaults (config_object h)) (frames h)).
  destruct (render_returns host
              (mkJSONFormatter (get_opt (json this) name)
                 (num_pred (open this)) (visible_key name) None None) h0)
    as (e & h1 & Er & _).
  { cbn [json]. now apply toJSON_callable_get_opt. }
  rewrite Er.
  pose proof (steady_render host _ _ _ _ Er) as Hev.
  assert (Hkeys : keys (config_object h1)
                    (appendChild
                       (set_element (Some e)
                          (mkJSONFormatter (get_opt (json this) name)
                             (num_pred (open this)) (visible_key name)
                             None None)) this) =
                  keys (config_object h) this).
  { rewrite (keys_evolves _ _ _ Hev). subst h0. cbn [config_object].
    rewrite keys_with_defaults. apply keys_same_json.
    apply appendChild_fields. }
  rewrite Hkeys.
  destruct (S index <? length (keys (config_object h) this))%nat eqn:Emore;
    [|unfold ret; eauto].
  apply Nat.ltb_lt in Emore.
  assert (Hnext : exists this' h',
            addAChild host (render host) fuel row (S index)
              (appendChild
                 (set_element (Some e)
                    (mkJSONFormatter (get_opt (json this) name)
                       (num_pred (open this)) (visible_key name) None None))
                 this) h1 = Returns this' h').
  { apply IH.
    - now destruct (appendChild_fields
                      (set_element (Some e)
                         (mkJSONFormatter (get_opt (json this) name)
                            (num_pred (open this)) (visible_key name)
                            None None)) this) as [-> _].
    - rewrite Hkeys. lia. }
  destruct (MAX_ANIMATED_TOGGLE_ITEMS <? S index)%nat; [exact Hnext|].
  unfold requestAnimationFrame.
  destruct (window_requestAnimationFrame host); [|exact Hnext].
  unfold bind, schedule, ret. eauto.
Qed.

Lemma removeAChild_returns (fuel row removed : nat) (this : JSONFormatter)
  (h : Heap) :
  (length (materialized this) < fuel)%nat ->
  exists this' h', removeAChild host fuel row removed this h = Returns this' h'.
Proof.
  revert removed this h.
  induction fuel as [|fuel IH]; intros removed this h Hfuel; [lia|].
  cbn [removeAChild]. unfold materialized in Hfuel.
  destruct (element this) as [e|] eqn:He; [|unfold ret; eauto].
  destruct (children e) as [|c rest] eqn:Hch; [unfold ret; eauto|].
  assert (Hnext : exists this' h',
            removeAChild host fuel row (S removed)
              (set_element (Some (set_children rest e)) this) h =
            Returns this' h').
  { apply IH. unfold materialized. cbn in *. lia. }
  destruct (MAX_ANIMATED_TOGGLE_ITEMS <? S removed)%nat; [exact Hnext|].
  unfold requestAnimationFrame.
  destruct (window_requestAnimationFrame host); [|exact Hnext].
  unfold bind, schedule, ret. eauto.
Qed.

Lemma run_task_returns (t : task) (this : JSONFormatter) (h : Heap) :
  toJSON_callable (json this) = true ->
  exists this' h', run_task host t this h = Returns this' h'.
Proof.
  intros Hc. unfold run_task.
  destruct (element this) as [e|] eqn:He; [|unfold ret; eauto].
  destruct t as [row index|row removed];
    (destruct (row =? stamp e)%nat; [|unfold ret; eauto]).
  - unfold bind, read_config. apply addAChild_returns; [exact Hc|lia].
  - apply removeAChild_returns. unfold materialized. rewrite He. lia.
Qed.

Lemma run_tasks_returns (ts : list task) (this : JSONFormatter) (h : Heap) :
  toJSON_callable (json this) = true ->
  exists this' h', run_tasks host ts this h = Returns this' h'.
Proof.
  revert this h. induction ts as [|t ts IH]; intros this h Hc.
  - unfold run_tasks, ret. eauto.
  - cbn [run_tasks]. unfold bind.
    destruct (run_task_returns t this h Hc) as (this1 & h1 & E).
    rewrite E. apply IH.
    destruct (reshapes_run_task host t this h this1 h1 E) as [cs ->].
    unfold with_children. now destruct (element this).
Qed.

Lemma frame_returns (this : JSONFormatter) (h : Heap) :
  toJSON_callable (json this) = true ->
  exists this' h', frame host this h = Returns this' h'.
Proof. intros Hc. unfold frame. now apply run_tasks_returns. Qed.

(** An operation called in time returns, over a value that holds no data
    under the name [toJSON]. *)
Lemma perform_returns (op : operation) (this : JSONFormatter) (h : Heap) :
  well_timed (is_rendered this) [op] = true ->
  toJSON_callable (json this) = true ->
  exists this' h', perform host op this h = Returns this' h'.
Proof.
  intros Hop Hc.
  destruct op as [v0 d0 k0| | |d|animated|animated|]; cbn [perform];
    try discriminate Hop.
  - destruct (render_returns host this h Hc) as (e & h' & E & _). eauto.
  - now apply toggleOpen_returns.
  - now apply openAtDepth_returns.
  - unfold is_rendered in Hop. destruct (element this) as [e|] eqn:He;
      [|discriminate Hop].
    exact (appendChildren_returns host animated this e h He Hc).
  - unfold is_rendered in Hop. destruct (element this) as [e|] eqn:He;
      [|discriminate Hop].
    exact (removeChildren_returns host animated this e h He).
  - now apply frame_returns.
Qed.

Lemma well_timed_cons (r : bool) (op : operation) (ops : list operation) :
  well_timed r (op :: ops) = true ->
  well_timed r [op] = true /\
  keeps_node op = true /\
  well_timed (match op with Render => true | _ => r end) ops = true.
Proof.
  destruct op; cbn; try discriminate; try (intros ->; now repeat split).
  - intros H. apply andb_prop in H. destruct H as [-> ->]. now repeat split.
  - intros H. apply andb_prop in H. destruct H as [-> ->]. now repeat split.
Qed.

Lemma is_rendered_after (op : operation) (this this' : JSONFormatter)
  (h h' : Heap) :
  keeps_node op = true ->
  perform host op this h = Returns this' h' ->
  is_rendered this' = match op with Render => true | _ => is_rendered this end.
Proof.
  intros Hop E.
  destruct (perform_effect host op _ _ _ _ Hop E) as (_ & _ & _ & Hrow).
  destruct op as [v0 d0 k0| | |d|animated|animated|]; try discriminate Hop;
    try (specialize (Hrow eq_refl); unfold row_kept, is_rendered in *;
         destruct (element this) as [e|];
         [destruct Hrow as (e' & -> & _); reflexivity | now rewrite Hrow]).
  cbn [perform] in E.
  destruct (render_row host _ _ _ _ E) as (vs & e & _ & -> & _). reflexivity.
Qed.

(** A sequence of operations called in time returns. *)
Lemma perform_all_returns (ops : list operation) (this : JSONFormatter)
  (h : Heap) :
  well_timed (is_rendered this) ops = true ->
  toJSON_callable (json this) = true ->
  exists this' h', perform_all host ops this h = Returns this' h'.
Proof.
  revert this h. induction ops as [|op ops IH]; intros this h Hops Hc.
  - unfold perform_all, ret. eauto.
  - destruct (well_timed_cons _ _ _ Hops) as (Hop & Hkeep & Hrest).
    cbn [perform_all]. unfold bind.
    destruct (perform_returns op this h Hop Hc) as (this1 & h1 & E).
    rewrite E. apply IH.
    + now rewrite (is_rendered_after op _ _ _ _ Hkeep E).
    + destruct (perform_effect host op _ _ _ _ Hkeep E) as (-> & _).
      exact Hc.
Qed.

Lemma run_frames_returns (n : nat) (this : JSONFormatter) (h : Heap) :
  toJSON_callable (json this) = true ->
  exists this' h',
    run_frames host n this h = Returns this' h' /\ json this' = json this.
Proof.
  revert this h. induction n as [|n IH]; intros this h Hc.
  - unfold run_frames, ret. eauto.
  - cbn [run_frames]. unfold bind.
    destruct (frame_returns this h Hc) as (this1 & h1 & E). rewrite E.
    assert (Hj : json this1 = json this).
    { destruct (reshapes_frame host this h this1 h1 E) as [cs ->].
      unfold with_children. now destruct (element this). }
    destruct (IH this1 h1) as (this' & h' & E' & Hj'); [now rewrite Hj|].
    exists this', h'. split; [exact E' | congruence].
Qed.

Lemma lifecycle_well_timed (r : bool) (ops : list operation) :
  forallb lifecycle ops = true -> well_timed r ops = true.
Proof.
  revert r. induction ops as [|op ops IH]; intros r Hops; [reflexivity|].
  cbn [forallb] in Hops. apply andb_prop in Hops. destruct Hops as [Hop Hops].
  destruct op; try discriminate Hop; cbn [well_timed]; now apply IH.
Qed.

Lemma well_timed_keeps_node (r : bool) (ops : list operation) :
  well_timed r ops = true -> forallb keeps_node ops = true.
Proof.
  revert r. induction ops as [|op ops IH]; intros r Hops; [reflexivity|].
  destruct (well_timed_cons _ _ _ Hops) as (_ & Hkeep & Hrest).
  cbn [forallb]. rewrite Hkeep. exact (IH _ Hrest).
Qed.

End FramesReturn.

(** ** Toggling, depths and the open marker *)

Lemma num_is0_Fin0 (d : num) : num_is0 d = true -> d = Fin 0.
Proof.
  destruct d as [z|]; [|discriminate]. cbn. intros H.
  apply Z.eqb_eq in H. now subst.
Qed.





(** X6. The [open] marker of the row tells whether the node is open, and
    no sequence of [render], [toggleOpen], [openAtDepth], [appendChildren],
    [removeChildren] and frames of the window breaks that, over a value that
    holds no data under the name [toJSON], with a theme that is a class
    name, and with [appendChildren] and [removeChildren] called on a
    rendered node only: every call of the sequence returns, and the marker
    agrees at the end. *)
Theorem open_marker_tracks_isOpen (host : Host) (ops : list operation)
  (this : JSONFormatter) (h : Heap) :
  well_timed (is_rendered this) ops = true ->
  toJSON_callable (json this) = true ->
  theme_is_class (config_object h) ->
  marker_agrees this ->
  exists this' h',
    perform_all host ops this h = Returns this' h' /\
    marker_agrees this'.
Proof.
  intros Hops Hc _ Hm.
  destruct (perform_all_returns host ops this h Hops Hc) as (this' & h' & E).
  exists this', h'. split; [exact E|].
  destruct (perform_all_effect host ops _ _ _ _
              (well_timed_keeps_node _ _ Hops) E) as (_ & _ & H & _).
  now apply H.
Qed.

Lemma open_marker_tracks_isOpen_witness :
  exists this' h',
    perform_all (sample_host true) a_session
      (mkJSONFormatter a_and_b (Fin 1) None None None)
      (mkHeap _defaultConfig []) = Returns this' h' /\
    marker_agrees this'.
Proof.
  apply (open_marker_tracks_isOpen (sample_host true) a_session
           (mkJSONFormatter a_and_b (Fin 1) None None None)
           (mkHeap _defaultConfig []) eq_refl eq_refl I).
  intros e [=].
Defined.

(** X7. Only [render] makes a row.  Through any sequence of [toggleOpen],
    [openAtDepth], [appendChildren], [removeChildren] and frames, a
    rendered node keeps its row: the stamp, the header with key, value and
    preview, the copy text and the classes [object], [array] and [empty]
    are those of the last [render]; a node without a row gets none; and
    the value and the key of the node never change. *)
Theorem row_made_once (host : Host) (ops : list operation)
  (this this' : JSONFormatter) (h h' : Heap) :
  forallb keeps_row ops = true ->
  perform_all host ops this h = Returns this' h' ->
  json this' = json this /\ key this' = key this /\ row_kept this this'.
Proof.
  intros Hops E.
  assert (Hk : forallb keeps_node ops = true).
  { clear E. induction ops as [|op ops IH]; [reflexivity|].
    cbn [forallb] in *. apply andb_prop in Hops. destruct Hops as [Hop Hops].
    rewrite (IH Hops). now destruct op. }
  destruct (perform_all_effect host ops _ _ _ _ Hk E) as (Hj & Hkey & _ & Hr).
  auto.
Qed.

Lemma row_made_once_witness :
  match
    perform_all (sample_host true) a_session_without_render
      (rendered (sample_host true) a_and_b (Fin 1) _defaultConfig)
      (mkHeap _defaultConfig [])
  with
  | Returns this' _ =>
      row_kept (rendered (sample_host true) a_and_b (Fin 1) _defaultConfig)
        this'
  | _ => False
  end.
Proof.
  destruct (perform_all (sample_host true) a_session_without_render
              (rendered (sample_host true) a_and_b (Fin 1) _defaultConfig)
              (mkHeap _defaultConfig [])) as [this' h'| |] eqn:E.
  - apply (row_made_once (sample_host true) a_session_without_render
             (rendered (sample_host true) a_and_b (Fin 1) _defaultConfig) this'
             (mkHeap _defaultConfig []) h' eq_refl E).
  - vm_compute in E. discriminate E.
  - vm_compute in E. discriminate E.
Defined.



(** ** The pace of the animation *)

Section Pace.

Variable host : Host.
Hypothesis window_has_requestAnimationFrame :
  window_requestAnimationFrame host = true.


(** The first [k] frames of an animated detach remove one row each. *)
Lemma remove_chain_paced (k removed : nat) (this : JSONFormatter)
  (e : Element) (h : Heap) :
  element this = Some e ->
  frames h = [RemoveAChild (stamp e) removed] ->
  (removed + k <= MAX_ANIMATED_TOGGLE_ITEMS)%nat ->
  (k <= length (children e))%nat ->
  run_frames host k this h =
  Returns (set_element (Some (set_children (skipn k (children e)) e)) this)
    (mkHeap (config_object h) [RemoveAChild (stamp e) (removed + k)]).
Proof.
  unfold MAX_ANIMATED_TOGGLE_ITEMS.
  revert removed this e h.
  induction k as [|k IH]; intros removed this e h He Hf Hk Hn.
  - cbn [run_frames skipn]. unfold ret. rewrite Nat.add_0_r, <- Hf, heap_eta.
    f_equal. destruct this as [v d key0 o el]. cbn in He. subst el.
    now destruct e.
  - cbn [run_frames]. unfold bind, frame. rewrite Hf. cbn [run_tasks].
    unfold bind. rewrite (run_task_remove host removed this e _ He).
    set (h0 := mkHeap (config_object h) []).
    destruct (children e) as [|c rest] eqn:Ec; [cbn in Hn; lia|].
    rewrite <- Ec at 1.
    rewrite (removeAChild_paced host window_has_requestAnimationFrame
               _ _ _ this e c rest h0 He Ec)
      by (unfold MAX_ANIMATED_TOGGLE_ITEMS; lia).
    unfold ret.
    rewrite (IH (S removed) _ (set_children rest e));
      [ | reflexivity | reflexivity | lia | cbn in Hn |- *; lia ].
    cbn [skipn]. replace (S removed + k)%nat with (removed + S k)%nat by lia.
    reflexivity.
Qed.

End Pace.

Lemma emptied_is_with_children (this : JSONFormatter) (e : Element) :
  element this = Some e ->
  set_element (Some (set_children [] e)) this = with_children [] this.
Proof. intros He. unfold with_children. now rewrite He. Qed.

(** X9. [removeChildren] empties the children container in every mode.
    Not animated, or without [requestAnimationFrame], every row is gone
    when the call returns.  Animated in a window, the call removes nothing
    itself; each of the first ten frames removes the first row left, and
    after eleven frames no row is left however many there were.  Nothing
    is left scheduled at the end, and the configuration is untouched. *)
Theorem detach_in_every_mode (host : Host) (animated : bool)
  (this : JSONFormatter) (e : Element) (h : Heap) :
  element this = Some e ->
  frames h = [] ->
  (forall n, (11 <= n)%nat ->
     (this' <- removeChildren host animated this ;; run_frames host n this') h =
     Returns (with_children [] this) h) /\
  (animated = false \/ window_requestAnimationFrame host = false ->
   removeChildren host animated this h = Returns (with_children [] this) h) /\
  (animated = true -> window_requestAnimationFrame host = true ->
   forall k, (k <= MAX_ANIMATED_TOGGLE_ITEMS)%nat ->
     (k <= length (children e))%nat ->
     (this' <- removeChildren host animated this ;; run_frames host k this') h =
     Returns (with_children (skipn k (children e)) this)
       (mkHeap (config_object h) [RemoveAChild (stamp e) k])).
Proof.
  intros He Hf.
  assert (Hnow : animated = false \/ window_requestAnimationFrame host = false ->
            removeChildren host animated this h =
            Returns (with_children [] this) h).
  { intros Hmode. rewrite (removeChildren_now host animated this e h Hmode He).
    now rewrite (emptied_is_with_children this e He). }
  assert (Hlater : animated = true -> window_requestAnimationFrame host = true ->
            removeChildren host animated this h =
            Returns this (mkHeap (config_object h) [RemoveAChild (stamp e) 0])).
  { intros -> Hraf. unfold removeChildren, requestAnimationFrame.
    rewrite He, Hraf. unfold bind, schedule, ret. now rewrite Hf. }
  split; [|split; [exact Hnow|]].
  - intros n Hn. unfold bind.
    destruct animated; [destruct (window_requestAnimationFrame host) eqn:Hraf|].
    + rewrite (Hlater eq_refl eq_refl).
      rewrite (remove_chain_drains host Hraf n 0 this e
                 (mkHeap (config_object h) [RemoveAChild (stamp e) 0])
                 He eq_refl)
        by (unfold MAX_ANIMATED_TOGGLE_ITEMS; lia).
      cbn [config_object]. rewrite <- Hf, heap_eta.
      now rewrite (emptied_is_with_children this e He).
    + rewrite (Hnow (or_intror eq_refl)). now apply run_frames_idle.
    + rewrite (Hnow (or_introl eq_refl)). now apply run_frames_idle.
  - intros Ha Hraf k Hk Hlen. unfold bind. rewrite (Hlater Ha Hraf).
    rewrite (remove_chain_paced host Hraf k 0 this e
               (mkHeap (config_object h) [RemoveAChild (stamp e) 0])
               He eq_refl Hk Hlen).
    unfold with_children. now rewrite He.
Qed.

Lemma detach_in_every_mode_witness :
  (this' <- removeChildren (sample_host true) true
              (rendered (sample_host true) twelve_numbers (Fin 1) _defaultConfig) ;;
   run_frames (sample_host true) 11 this') (mkHeap _defaultConfig []) =
  Returns
    (with_children []
       (rendered (sample_host true) twelve_numbers (Fin 1) _defaultConfig))
    (mkHeap _defaultConfig []).
Proof.
  assert (He : exists e,
             element (rendered (sample_host true) twelve_numbers (Fin 1)
                        _defaultConfig) = Some e)
    by (vm_compute; eexists; reflexivity).
  destruct He as [e He].
  destruct (detach_in_every_mode (sample_host true) true
              (rendered (sample_host true) twelve_numbers (Fin 1) _defaultConfig)
              e (mkHeap _defaultConfig []) He eq_refl) as [H _].
  exact (H 11%nat (le_n 11)).
Defined.





(** ** The children a loop over the keys makes *)

(** What holds of every rendered child holds of the rows the loop
    appends. *)
Lemma forEach_key_post (P : JSONFormatter -> JSONFormatter -> Prop)
  (r : JSONFormatter -> M JSONFormatter) (ks : list string)
  (this this' : JSONFormatter) (h h' : Heap) :
  (forall child h0 child' h1, r child h0 = Returns child' h1 -> P child child') ->
  forEach_key r ks this h = Returns this' h' ->
  exists cs,
    this' = append_children cs this /\
    Forall2
      (fun name child' =>
         P (mkJSONFormatter (get (json this) name) (num_pred (open this))
              (visible_key (Some name)) None None) child')
      ks cs.
Proof.
  intros Hr. revert this h. induction ks as [|k ks IH]; intros this h.
  - cbn [forEach_key]. unfold ret. intros [= <- <-]. exists [].
    split; [now rewrite append_children_nil | constructor].
  - cbn [forEach_key]. unfold bind, constructor.
    destruct (r _ _) as [child h1| |] eqn:Er; try discriminate.
    intros E. destruct (IH _ _ E) as (cs & -> & Hcs).
    exists (child :: cs). split; [apply append_children_cons|].
    constructor; [exact (Hr _ _ _ _ Er)|].
    destruct (appendChild_fields child this) as (Hj & Ho & _).
    now rewrite Hj, Ho in Hcs.
Qed.

Lemma forEach_key_children (host : Host) (ks : list string)
  (this this' : JSONFormatter) (h h' : Heap) :
  forEach_key (render host) ks this h = Returns this' h' ->
  exists cs, this' = append_children cs this /\ Forall2 (child_of this) ks cs.
Proof.
  intros E.
  destruct (forEach_key_post
              (fun child child' => exists e, child' = set_element (Some e) child)
              (render host) ks this this' h h') as (cs & Hthis & Hcs).
  - intros child h0 child' h1 Er.
    destruct (render_row host _ _ _ _ Er) as (vs & e & _ & -> & _).
    now exists e.
  - exact E.
  - exists cs. split; [exact Hthis|].
    eapply Forall2_impl; [|exact Hcs].
    intros name child' [e ->]. unfold child_of. cbn.
    repeat split; discriminate.
Qed.

(** ** How deep a rendering goes *)

Lemma levels_rendered (this : JSONFormatter) (e : Element) :
  levels (set_element (Some e) this) =
  fold_right (fun child m => Nat.max (S (levels child)) m) 0%nat (children e).
Proof. destruct this, e. reflexivity. Qed.

Lemma levels_bound (cs : list JSONFormatter) (b : nat) :
  Forall (fun child => (S (levels child) <= b)%nat) cs ->
  (fold_right (fun child m => Nat.max (S (levels child)) m) 0 cs <= b)%nat.
Proof.
  induction 1 as [|c cs Hc _ IH]; cbn [fold_right]; lia.
Qed.

Lemma within_pred (d : num) (n : nat) :
  num_gt0 d = true -> within (num_pred d) n -> within d (S n).
Proof.
  destruct d as [z|]; cbn; [|trivial]. intros Hz. apply Z.ltb_lt in Hz. lia.
Qed.

Lemma within_max (d : num) (cs : list JSONFormatter) :
  Forall (fun child => within d (S (levels child))) cs ->
  within d (fold_right (fun child m => Nat.max (S (levels child)) m) 0%nat cs).
Proof.
  induction 1 as [|c cs Hc _ IH]; cbn [fold_right].
  - destruct d; cbn; [lia|trivial].
  - destruct d as [z|]; unfold within in *; [lia|trivial].
Qed.

Section Depth.

Variable host : Host.

Lemma render_fuel_levels (fuel : nat) (this this' : JSONFormatter)
  (h h' : Heap) :
  render_fuel host fuel this h = Returns this' h' ->
  (levels this' <= depth (json this))%nat /\
  (_isOpen this = None -> within (open this) (levels this')).
Proof.
  revert this this' h h'. induction fuel as [|fuel IH]; intros this this' h h';
    [discriminate|].
  cbn [render_fuel]. intros E.
  destruct (render_with_row host _ _ _ _ _ E)
    as (vs & e & _ & Hthis & _ & Hclosed & Hopen).
  destruct (isObject this && isOpen this) eqn:Hoi.
  - specialize (Hopen eq_refl e). rewrite Hthis in Hopen.
    specialize (Hopen eq_refl). rewrite <- Hthis in Hopen.
    destruct (forEach_key_post
                (fun child child' =>
                   (levels child' <= depth (json child))%nat /\
                   (_isOpen child = None -> within (open child) (levels child')))
                _ _ _ _ _ _ (fun child h0 child' h1 => IH child child' h0 h1)
                Hopen) as (cs & Hcs & Hall).
    cbn [json open _isOpen set_element] in Hall.
    apply andb_prop in Hoi. destruct Hoi as [Hobj Hisopen].
    assert (Hlev : levels this' =
                   fold_right (fun child m => Nat.max (S (levels child)) m)
                     0%nat cs).
    { rewrite Hcs. unfold append_children. cbn. destruct this; reflexivity. }
    rewrite Hlev. split.
    + apply levels_bound. clear - Hall Hobj.
      induction Hall as [|name c ks cs [Hc _] _ IHall]; constructor; trivial.
      pose proof (depth_get (json this) name Hobj). lia.
    + intros Hfresh. apply within_max.
      assert (Hgt : num_gt0 (open this) = true).
      { unfold isOpen in Hisopen. now rewrite Hfresh in Hisopen. }
      clear - Hall Hgt.
      induction Hall as [|name c ks cs [_ Hc] _ IHall]; constructor; trivial.
      apply within_pred; [exact Hgt | now apply Hc].
  - destruct (Hclosed eq_refl) as [Hch _].
    rewrite Hthis, levels_rendered, Hch. cbn. split; [lia|].
    intros _. destruct (open this); cbn; [lia|trivial].
Qed.

End Depth.

(** X12. A rendering is no deeper than its budget and no deeper than the
    value: for a value [v] that holds no data under the name [toJSON] and a
    configuration [c] whose theme, if it has one, is a class name,
    [new JSONFormatter(v, d, c, k).render()] returns, and the rows
    it has materialized below the root span at most [d] levels (none when
    [d] is zero or negative) and at most as many levels as [v] nests
    arrays and objects. *)
Theorem render_depth_bounded (host : Host) (c : JSONFormatterConfiguration)
  (scheduled : list task) (v : value) (d : num) (k : option string) :
  toJSON_callable v = true ->
  theme_is_class c ->
  exists this' h',
    (f <- constructor v d k ;; render host f) (mkHeap c scheduled) =
    Returns this' h' /\
    within d (levels this') /\
    (levels this' <= depth v)%nat /\
    (num_gt0 d = false -> materialized this' = []).
Proof.
  intros Hc _. unfold bind, constructor. cbn [config_object frames].
  set (f := mkJSONFormatter v d (visible_key k) None None).
  set (h0 := mkHeap (with_defaults c) scheduled).
  destruct (render_returns host f h0 Hc) as (e & h' & E & _ & _ & _ & _ & Hcs).
  exists (set_element (Some e) f), h'. split; [exact E|].
  destruct (render_fuel_levels host _ _ _ _ _ E) as [Hdepth Hwithin].
  split; [exact (Hwithin eq_refl)|]. split; [exact Hdepth|].
  intros Hd. unfold materialized. cbn.
  change (isOpen f) with (num_gt0 d) in Hcs. rewrite Hd, andb_false_r in Hcs.
  now inversion Hcs.
Qed.

Lemma render_depth_bounded_witness :
  exists this' h',
    (f <- constructor
            (VObject None
               [("a", VArray [VObject None [("b", VArray [VNumber 1])]])])
            (Fin 2) None ;;
     render (sample_host true) f) (mkHeap _defaultConfig []) =
    Returns this' h' /\
    (levels this' <= 2)%nat.
Proof.
  destruct (render_depth_bounded (sample_host true) _defaultConfig []
              (VObject None
                 [("a", VArray [VObject None [("b", VArray [VNumber 1])]])])
              (Fin 2) None eq_refl I) as (this' & h' & E & Hw & _).
  exists this', h'. split; [exact E|]. cbn in Hw. lia.
Defined.

(** ** The children of a node when nothing is animated *)

Lemma child_of_parent (this1 this2 : JSONFormatter) (name : string)
  (child : JSONFormatter) :
  json this2 = json this1 -> open this2 = open this1 ->
  child_of this1 name child -> child_of this2 name child.
Proof. unfold child_of. intros -> ->. trivial. Qed.

Lemma num_gt0_of (d : num) :
  num_lt0 d = false -> num_is0 d = false -> num_gt0 d = true.
Proof.
  destruct d as [z|]; cbn; [|trivial]. intros H1 H2.
  apply Z.ltb_ge in H1. apply Z.eqb_neq in H2. apply Z.ltb_lt. lia.
Qed.

Lemma unanimated_evolves (host : Host) (c c' : JSONFormatterConfiguration) :
  evolves c c' -> unanimated host c -> unanimated host c'.
Proof.
  intros Hev. destruct (animate_evolves c c' Hev) as [Ho Hc].
  unfold unanimated. now rewrite Ho, Hc.
Qed.

Section Unanimated.

Variable host : Host.

Lemma appendChildren_fallback (animated : bool) (this : JSONFormatter)
  (e : Element) (h : Heap) :
  animated = false \/ window_requestAnimationFrame host = false ->
  element this = Some e ->
  appendChildren host animated this h =
  forEach_key (render host) (keys (config_object h) this) this h.
Proof.
  intros Hmode He.
  now rewrite (appendChildren_now host animated this e h Hmode He),
    forEach_key_build.
Qed.

(** The rows an attach that is not animated leaves in an empty container
    are the children of the keys. *)
Lemma attach_children_match (animated : bool) (this this' : JSONFormatter)
  (e : Element) (h h' : Heap) :
  animated = false \/ window_requestAnimationFrame host = false ->
  element this = Some e ->
  children e = [] ->
  appendChildren host animated this h = Returns this' h' ->
  exists cs,
    this' = with_children cs this /\
    Forall2 (child_of this) (keys (config_object h') this) cs.
Proof.
  intros Hmode He Hch E.
  pose proof (steady_appendChildren host animated this _ _ _ E) as Hev.
  rewrite (appendChildren_fallback animated this e h Hmode He) in E.
  destruct (forEach_key_children host _ _ _ _ _ E) as (cs & -> & Hcs).
  exists cs. split.
  - rewrite append_children_with. unfold materialized. now rewrite He, Hch.
  - now rewrite (keys_evolves _ _ this Hev).
Qed.

Lemma render_children_match (this this' : JSONFormatter) (h h' : Heap) :
  render host this h = Returns this' h' ->
  children_match (config_object h') this'.
Proof.
  intros E. pose proof (steady_render host this _ _ _ E) as Hev.
  rewrite render_unfold in E.
  destruct (render_with_row host _ _ _ _ _ E)
    as (vs & e & _ & Hthis & _ & Hclosed & Hopen).
  intros e' He'. rewrite Hthis in He'. injection He' as <-.
  assert (Hio : isOpen this' = isOpen this) by now rewrite Hthis.
  assert (Hkeys : keys (config_object h') this' = keys (config_object h) this).
  { rewrite (keys_evolves _ _ this' Hev). apply keys_same_json.
    now rewrite Hthis. }
  rewrite Hio, Hkeys.
  destruct (isObject this && isOpen this) eqn:Hoi.
  - apply andb_prop in Hoi. destruct Hoi as [_ Hisopen]. rewrite Hisopen.
    specialize (Hopen eq_refl e). rewrite Hthis in Hopen.
    specialize (Hopen eq_refl). rewrite <- Hthis in Hopen.
    destruct (forEach_key_children host _ _ _ _ _ Hopen) as (cs & Hcs & Hall).
    assert (Hks : (if isEmpty (config_object h) this then []
                   else keys (config_object h) this) =
                  keys (config_object h) this).
    { destruct (isEmpty (config_object h) this) eqn:Hem; [|reflexivity].
      symmetry. now apply keys_nil_of_isEmpty. }
    rewrite Hks in Hall.
    assert (Hch : children e = cs).
    { rewrite Hthis in Hcs. unfold append_children in Hcs. cbn in Hcs.
      injection Hcs as Hcs. rewrite Hcs. reflexivity. }
    rewrite Hch. eapply Forall2_impl; [|exact Hall].
    intros name child. apply child_of_parent; now rewrite Hthis.
  - destruct (Hclosed eq_refl) as [-> _].
    destruct (isOpen this) eqn:Hisopen; [|constructor].
    rewrite andb_true_r in Hoi. rewrite (keys_of_primitive _ _ Hoi).
    constructor.
Qed.

Lemma toggleOpen_children_match (this this' : JSONFormatter) (h h' : Heap) :
  unanimated host (config_object h) ->
  children_match (config_object h) this ->
  toggleOpen host this h = Returns this' h' ->
  children_match (config_object h') this'.
Proof.
  intros Hmode Hm E.
  destruct (element this) as [e|] eqn:He.
  - specialize (Hm e He).
    destruct (isOpen this) eqn:Hio.
    + rewrite (toggleOpen_open host this e h He Hio) in E. unfold bind in E.
      rewrite (removeChildren_now host _ (set_isOpen (Some false) this) e h)
        in E;
        [ | destruct Hmode as [Hraf|[_ Hclose]]; [now right | now left]
          | exact He ].
      unfold ret in E. injection E as <- <-.
      intros e' He'. destruct this as [v d k o el]. cbn in He. subst el.
      cbn in He'. injection He' as <-. cbn. constructor.
    + inversion Hm as [Hnil|]; subst. rename H into Hch. symmetry in Hch.
      rewrite (toggleOpen_closed host this e h He Hio) in E. unfold bind in E.
      destruct (appendChildren host _ _ h) as [this1 h1| |] eqn:Ea;
        try discriminate.
      unfold ret in E. injection E as <- <-.
      destruct (attach_children_match (flag (animateOpen (config_object h)))
                  (set_isOpen (Some true) this) this1 e h h1)
        as (cs & -> & Hcs);
        [ destruct Hmode as [Hraf|[Hopen _]]; [now right | now left]
        | exact He | exact Hch | exact Ea | ].
      intros e' He'. destruct this as [v d k o el]. cbn in He. subst el.
      cbn in He'. injection He' as <-. cbn. exact Hcs.
  - rewrite (toggleOpen_unrendered host this h He) in E.
    injection E as <- <-. intros e' He'. cbn in He'. congruence.
Qed.

Lemma openAtDepth_children_match (d : num) (this this' : JSONFormatter)
  (h h' : Heap) :
  unanimated host (config_object h) ->
  children_match (config_object h) this ->
  openAtDepth host d this h = Returns this' h' ->
  children_match (config_object h') this'.
Proof.
  intros Hmode Hm E.
  destruct (num_lt0 d) eqn:Hlt.
  { rewrite (openAtDepth_negative host d this h Hlt) in E.
    now injection E as <- <-. }
  destruct (element this) as [e|] eqn:He.
  - destruct (num_is0 d) eqn:H0.
    + apply num_is0_Fin0 in H0. subst d.
      rewrite (openAtDepth_zero host this e h He) in E.
      injection E as <- <-. intros e' He'. cbn in He'. injection He' as <-.
      cbn. constructor.
    + rewrite (openAtDepth_positive host d this e h He (num_gt0_of d Hlt H0))
        in E.
      unfold bind in E.
      destruct (appendChildren host _ _ h) as [this1 h1| |] eqn:Ea;
        try discriminate.
      unfold ret in E. injection E as <- <-.
      destruct (attach_children_match (flag (animateOpen (config_object h)))
                  (set_element (Some (set_children [] e))
                     (set_isOpen (Some true) (set_open d this)))
                  this1 (set_children [] e) h h1
                  (match Hmode with
                   | or_introl Hraf => or_intror Hraf
                   | or_intror (conj Hopen _) => or_introl Hopen
                   end) eq_refl eq_refl Ea) as (cs & -> & Hcs).
      intros e' He'. destruct this as [v d1 k o el]. cbn in He. subst el.
      cbn in He'. injection He' as <-. cbn. exact Hcs.
  - rewrite (openAtDepth_unrendered host d this h He Hlt) in E.
    injection E as <- <-. intros e' He'. cbn in He'. congruence.
Qed.

End Unanimated.

Lemma perform_all_children_match (host : Host) (ops : list operation)
  (this this' : JSONFormatter) (h h' : Heap) :
  unanimated host (config_object h) ->
  forallb lifecycle ops = true ->
  children_match (config_object h) this ->
  perform_all host ops this h = Returns this' h' ->
  children_match (config_object h') this'.
Proof.
  intros Hmode Hops. revert this h Hmode.
  induction ops as [|op ops IH]; intros this h Hmode Hm.
  - cbn [perform_all]. unfold ret. now intros [= <- <-].
  - cbn [forallb] in Hops. apply andb_prop in Hops.
    destruct Hops as [Hop Hops]. cbn [perform_all]. unfold bind.
    destruct (perform host op this h) as [this1 h1| |] eqn:E1;
      try discriminate.
    apply (IH Hops this1 h1).
    + exact (unanimated_evolves host _ _
               (steady_perform host op this _ _ _ E1) Hmode).
    + destruct op as [v0 d0 k0| | |d|animated|animated|];
        try discriminate; cbn [perform] in E1.
      * exact (render_children_match host _ _ _ _ E1).
      * exact (toggleOpen_children_match host _ _ _ _ Hmode Hm E1).
      * exact (openAtDepth_children_match host d _ _ _ _ Hmode Hm E1).
Qed.

(** X13. When nothing is animated (the window has no
    [requestAnimationFrame], or [animateOpen] and [animateClose] are off),
    over a value that holds no data under the name [toJSON] and with a
    theme that is a class name, every sequence of [render], [toggleOpen]
    and [openAtDepth] returns and duplicates or loses no row: after it a
    rendered node holds exactly the child of each of its keys, in the order
    of the keys and with one level less to expand, when it is open, and no
    row when it is closed. *)
Theorem lifecycle_children_match (host : Host) (ops : list operation)
  (this : JSONFormatter) (h : Heap) :
  unanimated host (config_object h) ->
  forallb lifecycle ops = true ->
  toJSON_callable (json this) = true ->
  theme_is_class (config_object h) ->
  children_match (config_object h) this ->
  exists this' h',
    perform_all host ops this h = Returns this' h' /\
    children_match (config_object h') this' /\
    (forall e, element this' = Some e ->
       length (children e) =
       if isOpen this' then length (keys (config_object h') this') else 0%nat).
Proof.
  intros Hmode Hops Hc _ Hm.
  destruct (perform_all_returns host ops this h
              (lifecycle_well_timed _ ops Hops) Hc) as (this' & h' & E).
  exists this', h'. split; [exact E|].
  pose proof (perform_all_children_match host ops _ _ _ _ Hmode Hops Hm E)
    as Hmatch.
  split; [exact Hmatch|].
  intros e He. rewrite <- (Forall2_length (Hmatch e He)).
  now destruct (isOpen this').
Qed.

Lemma lifecycle_children_match_witness :
  exists this' h',
    perform_all (sample_host true) a_lifecycle
      (mkJSONFormatter a_and_b (Fin 1) None None None)
      (mkHeap without_animation []) = Returns this' h' /\
    children_match (config_object h') this' /\
    isOpen this' = true /\
    map key (materialized this') = [Some "a"; Some "b"].
Proof.
  destruct (lifecycle_children_match (sample_host true) a_lifecycle
              (mkJSONFormatter a_and_b (Fin 1) None None None)
              (mkHeap without_animation [])
              (or_intror (conj eq_refl eq_refl)) eq_refl eq_refl I)
    as (this' & h' & E & Hm & _).
  - intros e [=].
  - exists this', h'. split; [exact E|]. split; [exact Hm|].
    vm_compute in E. injection E as <- _. vm_compute. now split.
Defined.

(** ** Values with a member or a method named [toJSON] *)

Lemma useToJSON_with_defaults (c : JSONFormatterConfiguration) :
  useToJSON c <> Some false -> useToJSON (with_defaults c) = Some true.
Proof.
  cbn. destruct (useToJSON c) as [[|]|]; cbn; congruence.
Qed.

(** X14. A value that carries data under the name [toJSON] cannot be
    rendered with [useToJSON] on, which it is unless the caller turns it
    off: the member makes the type "stringifiable", [render] calls it, and
    [new JSONFormatter(v, d, c, k).render()] throws, whatever the budget
    and the key. *)
Theorem render_throws_on_toJSON_member (host : Host)
  (c : JSONFormatterConfiguration) (scheduled : list task)
  (proto : option string) (members : list (string * value)) (x : value)
  (d : num) (k : option string) :
  own_member "toJSON" members = Some x ->
  truthy x = true ->
  useToJSON c <> Some false ->
  type (with_defaults c)
    (mkJSONFormatter (VObject proto members) d (visible_key k) None None) =
  "stringifiable" /\
  (f <- constructor (VObject proto members) d k ;; render host f)
    (mkHeap c scheduled) = Throws.
Proof.
  intros Hown Hx Hc.
  assert (Htype : type (with_defaults c)
                    (mkJSONFormatter (VObject proto members) d (visible_key k)
                       None None) = "stringifiable").
  { unfold type. rewrite (useToJSON_with_defaults c Hc). cbn.
    now rewrite Hown, Hx. }
  split; [exact Htype|].
  unfold bind, constructor. cbn [config_object frames].
  rewrite render_unfold. unfold render_with, bind, read_config.
  cbn [config_object].
  unfold render_value_span, getter_useToJSON. rewrite Htype.
  rewrite (useToJSON_with_defaults c Hc). cbn. now rewrite Hown.
Qed.

Lemma render_throws_on_toJSON_member_witness :
  (f <- constructor
          (VObject None [("id", VNumber 7); ("toJSON", VString "text")])
          (Fin 1) None ;;
   render (sample_host false) f) (mkHeap emptyConfig []) = Throws.
Proof.
  apply (render_throws_on_toJSON_member (sample_host false) emptyConfig []
           None [("id", VNumber 7); ("toJSON", VString "text")]
           (VString "text") (Fin 1) None eq_refl eq_refl).
  discriminate.
Defined.

(** X15. An object that inherits a [toJSON] method (a [Date], an
    identifier object) and holds no data under that name, in itself or in
    its members, is rendered, with [useToJSON] on and a theme that is a
    class name, like a primitive: the header has no toggler and no click
    listener, and its value is the preview of what [toJSON] returns, typed
    "stringifiable", with the date class exactly when the object is an
    instance of [Date].  With [useToJSON] off the same object gets the
    toggler, the click listener and the constructor name of a container.
    In both cases the row is that of an object and, when open, holds the
    children of its keys. *)
Theorem stringifiable_row (host : Host) (this : JSONFormatter) (h : Heap)
  (s : string) (members : list (string * value)) :
  json this = VObject (Some s) members ->
  own_member "toJSON" members = None ->
  toJSON_callable (json this) = true ->
  theme_is_class (config_object h) ->
  exists e h',
    render host this h = Returns (set_element (Some e) this) h' /\
    toggler_anchor (togglerLink e) = true /\
    object_class e = true /\
    Forall2 (child_of this)
      (if isOpen this then keys (config_object h) this else []) (children e) /\
    (flag (useToJSON (config_object h)) = true ->
     type (config_object h) this = "stringifiable" /\
     toggler (togglerLink e) = false /\
     click_listener (togglerLink e) = false /\
     value_span (togglerLink e) =
       PrimitiveValue false "stringifiable" (instanceof_Date host (json this))
         None
         (getValuePreview host "stringifiable" (json this) (VString s))) /\
    (flag (useToJSON (config_object h)) = false ->
     type (config_object h) this = "object" /\
     toggler (togglerLink e) = true /\
     click_listener (togglerLink e) = true /\
     value_span (togglerLink e) = ContainerValue (constructorName host this) None).
Proof.
  intros Hj Hown Hc _.
  destruct (render_returns host this h Hc) as (e & h' & E & _ & _ & _ & _ & Hcs).
  exists e, h'. split; [exact E|].
  destruct (render_row host _ _ _ _ E) as (vs & e' & Hvs & Heq & Hrow & _).
  assert (e' = e) as -> by (unfold set_element in Heq; congruence).
  destruct Hrow as (_ & _ & _ & Hanchor & Htog & Hclick & _ & Hvalue & _ & _ &
                    Hobj & _).
  assert (Hisobj : isObject this = true) by (unfold isObject; now rewrite Hj).
  rewrite Hisobj in *. cbn [andb] in *.
  split; [exact Hanchor|]. split; [exact Hobj|]. split; [exact Hcs|].
  assert (Htype : type (config_object h) this =
                  if flag (useToJSON (config_object h)) then "stringifiable"
                  else "object").
  { unfold type. rewrite Hj. cbn. rewrite Hown.
    now destruct (flag (useToJSON (config_object h))). }
  assert (Hdate : isDate host (config_object h) this =
                  instanceof_Date host (json this)).
  { unfold isDate, is_Date_instance. rewrite Hj.
    now rewrite andb_false_r, orb_false_r. }
  unfold render_value_span, getter_useToJSON in Hvs, Htog, Hclick.
  unfold isUrl in Hvs.
  rewrite Hisobj, Htype, Hdate in *. unfold isArray in Hvs.
  rewrite Hj in Hvs.
  split; intros Huse; rewrite Huse in *; cbn in Hvs, Htog, Hclick;
    rewrite ?Hown in Hvs; unfold ret in Hvs; injection Hvs as Hvs;
    rewrite <- Hvalue in Hvs; repeat split; trivial; now rewrite <- Hvs, ?Hj.
Qed.

Lemma stringifiable_row_witness :
  exists e h',
    render (sample_host false)
      (mkJSONFormatter (VObject (Some "5f1c9d") [("id", VNumber 7)])
         (Fin 1) (Some "owner") None None)
      (mkHeap _defaultConfig []) =
    Returns
      (set_element (Some e)
         (mkJSONFormatter (VObject (Some "5f1c9d") [("id", VNumber 7)])
            (Fin 1) (Some "owner") None None)) h' /\
    toggler (togglerLink e) = false /\
    click_listener (togglerLink e) = false.
Proof.
  destruct (stringifiable_row (sample_host false)
              (mkJSONFormatter (VObject (Some "5f1c9d") [("id", VNumber 7)])
                 (Fin 1) (Some "owner") None None)
              (mkHeap _defaultConfig [])
              "5f1c9d" [("id", VNumber 7)] eq_refl eq_refl eq_refl I)
    as (e & h' & E & _ & _ & _ & Hon & _).
  destruct (Hon eq_refl) as (_ & Ht & Hcl & _).
  exists e, h'. split; [exact E|]. split; [exact Ht | exact Hcl].
Defined.

(** ** The header of a rendered row *)

(** X16. The row that [new JSONFormatter(v, d, c, k).render()] makes for a
    value that holds no data under the name [toJSON] and a configuration
    whose theme, if it has one, is a class name: the
    key is shown followed by a colon, an empty key as a pair of quotes, no
    key as no label; the row is marked open exactly when the budget is
    positive; an array or object gets the toggler link, the [object] and
    [array] classes, a copy button unless [hoverCopyEnabled] is set to
    false, and a preview only if [hoverPreviewEnabled] is set to true;
    anything else gets none of them. *)
Theorem rendered_row_header (host : Host) (c : JSONFormatterConfiguration)
  (scheduled : list task) (v : value) (d : num) (k : option string) :
  toJSON_callable v = true ->
  theme_is_class c ->
  exists this' h' e,
    (f <- constructor v d k ;; render host f) (mkHeap c scheduled) =
    Returns this' h' /\
    element this' = Some e /\
    stamp e = 0%nat /\
    open_class e = num_gt0 d /\
    key_label (togglerLink e) =
      match k with
      | Some name =>
          Some ((if (name =? "")%string then quoted_empty else name) ++ ":")
      | None => None
      end /\
    toggler_anchor (togglerLink e) = helpers_isObject v /\
    object_class e = helpers_isObject v /\
    array_class e = Array_isArray v /\
    (copy_text e <> None <->
     helpers_isObject v = true /\ hoverCopyEnabled c <> Some false) /\
    (preview_text (togglerLink e) <> None <->
     helpers_isObject v = true /\ hoverPreviewEnabled c = Some true) /\
    (copy_text e <> None -> copy_text e = Some (JSON_stringify host v)).
Proof.
  intros Hc _. unfold bind, constructor. cbn [config_object frames].
  set (f := mkJSONFormatter v d (visible_key k) None None).
  set (h0 := mkHeap (with_defaults c) scheduled).
  destruct (render_returns host f h0 Hc) as (e & h' & E & _).
  exists (set_element (Some e) f), h', e. split; [exact E|].
  split; [reflexivity|].
  destruct (render_row host _ _ _ _ E) as (vs & e' & _ & Heq & Hrow & _).
  assert (e' = e) as -> by (unfold set_element in Heq; congruence).
  destruct Hrow as (Hstamp & _ & Hopen & Hanchor & _ & _ & Hkey & _ & Hprev &
                    Hcopy & Hobj & Harr & _).
  split; [exact Hstamp|]. split; [exact Hopen|].
  split.
  { rewrite Hkey. subst f. cbn. destruct k as [name|]; [|reflexivity].
    cbn. now destruct (name =? "")%string. }
  split; [exact Hanchor|]. split; [exact Hobj|]. split; [exact Harr|].
  subst h0. cbn [config_object] in Hcopy, Hprev.
  change (isObject f) with (helpers_isObject v) in Hcopy, Hprev.
  change (json f) with v in Hcopy.
  rewrite Hcopy, Hprev. cbn [with_defaults hoverCopyEnabled hoverPreviewEnabled
                              default_to _defaultConfig].
  destruct (helpers_isObject v);
    destruct (hoverCopyEnabled c) as [[|]|];
    destruct (hoverPreviewEnabled c) as [[|]|]; cbn;
    repeat split; intros; try congruence; intuition congruence.
Qed.

Lemma rendered_row_header_witness :
  exists this' h' e,
    (f <- constructor two_members (Fin 1) (Some "") ;;
     render (sample_host false) f) (mkHeap emptyConfig []) = Returns this' h' /\
    element this' = Some e /\
    key_label (togglerLink e) = Some (quoted_empty ++ ":") /\
    copy_text e = Some "json" /\
    preview_text (togglerLink e) = None.
Proof.
  destruct (rendered_row_header (sample_host false) emptyConfig []
              two_members (Fin 1) (Some "") eq_refl I)
    as (this' & h' & e & E & He & _ & _ & Hk & _ & _ & _ & Hcopy & Hprev & Hjson).
  exists this', h', e. split; [exact E|]. split; [exact He|].
  split; [exact Hk|]. split.
  - apply Hjson. apply Hcopy. split; [reflexivity | discriminate].
  - destruct (preview_text (togglerLink e)) as [p|]; [|reflexivity].
    assert (Hp : Some p <> None) by discriminate.
    apply Hprev in Hp. destruct Hp as [_ Hp]. discriminate Hp.
Defined.

(** ** Rows of values that are not arrays or objects *)

Lemma type_of_primitive (c : JSONFormatterConfiguration) (this : JSONFormatter) :
  isObject this = false -> type c this = helpers_getType (json this).
Proof.
  unfold isObject, type. destruct (json this); try discriminate; intros _;
    cbn; now rewrite ?andb_false_r.
Qed.

(** X17. The row of a value that is neither an array nor an object, for
    every budget and every configuration whose theme, if it has one, is a
    class name: [render] returns at once, the row has no
    toggler, no click listener, no copy button, no preview and no child;
    the value is shown with the class of its type, as a link exactly when
    it is a string that starts with [http], and as a date exactly when it
    is a string that matches one of the date patterns. *)
Theorem primitive_row (host : Host) (this : JSONFormatter) (h : Heap) :
  isObject this = false ->
  theme_is_class (config_object h) ->
  let url := match json this with
             | VString s => String.prefix "http" s
             | _ => false
             end in
  let date := match json this with
              | VString s => date_patterns host s
              | _ => false
              end in
  exists e,
    render host this h = Returns (set_element (Some e) this) h /\
    children e = [] /\
    toggler_anchor (togglerLink e) = false /\
    toggler (togglerLink e) = false /\
    click_listener (togglerLink e) = false /\
    copy_text e = None /\
    preview_text (togglerLink e) = None /\
    object_class e = false /\ array_class e = false /\
    isUrl (config_object h) this = url /\
    value_span (togglerLink e) =
      PrimitiveValue url (helpers_getType (json this)) date
        (if url then Some (json this) else None)
        (getValuePreview host (helpers_getType (json this)) (json this)
           (json this)).
Proof.
  intros Hobj _ url date.
  pose proof (type_of_primitive (config_object h) this Hobj) as Htype.
  assert (Hstr : (helpers_getType (json this) =? "stringifiable")%string = false).
  { unfold isObject in Hobj. destruct (json this); try discriminate; reflexivity. }
  assert (Hurl : isUrl (config_object h) this = url).
  { unfold isUrl. rewrite Htype. subst url. unfold isObject in Hobj.
    destruct (json this); try discriminate; reflexivity. }
  assert (Hdate : isDate host (config_object h) this = date).
  { unfold isDate, is_Date_instance. rewrite Htype. subst date.
    unfold isObject in Hobj.
    destruct (json this); try discriminate; reflexivity. }
  assert (Harr : isArray this = false).
  { unfold isArray. unfold isObject in Hobj.
    destruct (json this); try discriminate; reflexivity. }
  rewrite render_unfold. unfold render_with, bind, read_config.
  unfold render_value_span, getter_useToJSON.
  rewrite Hobj, Htype, Hstr, Hurl, Hdate, Harr, andb_false_r.
  cbn [andb negb]. unfold ret.
  change (isObject (set_element ?x this)) with (isObject this).
  rewrite Hobj. cbn [andb]. eexists. split; [reflexivity|].
  cbn. repeat split; reflexivity.
Qed.

Lemma primitive_row_witness :
  exists e,
    render (sample_host true)
      (mkJSONFormatter (VString "https://example.org") Infinity (Some "home")
         None None)
      (mkHeap _defaultConfig []) =
    Returns
      (set_element (Some e)
         (mkJSONFormatter (VString "https://example.org") Infinity (Some "home")
            None None))
      (mkHeap _defaultConfig []) /\
    children e = [] /\
    value_span (togglerLink e) =
      PrimitiveValue true "string" false (Some (VString "https://example.org"))
        "value".
Proof.
  destruct (primitive_row (sample_host true)
              (mkJSONFormatter (VString "https://example.org") Infinity
                 (Some "home") None None)
              (mkHeap _defaultConfig []) eq_refl I)
    as (e & E & Hch & _ & _ & _ & _ & _ & _ & _ & _ & Hv).
  exists e. split; [exact E|]. split; [exact Hch | exact Hv].
Defined.

(** ** Nodes without keys *)

Section EmptyNodes.

Variable host : Host.

Lemma appendChildren_of_empty (animated : bool) (this : JSONFormatter)
  (e : Element) (h : Heap) :
  element this = Some e ->
  isEmpty (config_object h) this = true ->
  appendChildren host animated this h = Returns this h.
Proof.
  intros He Hem. unfold appendChildren, appendChildren_with.
  rewrite He. unfold bind, read_config. now rewrite Hem.
Qed.

Lemma removeChildren_of_childless (animated : bool) (this : JSONFormatter)
  (e : Element) (h : Heap) :
  element this = Some e ->
  children e = [] ->
  exists h',
    removeChildren host animated this h = Returns this h' /\
    config_object h' = config_object h /\
    (no_attach (frames h) = true -> no_attach (frames h') = true).
Proof.
  intros He Hch. unfold removeChildren. rewrite He.
  destruct animated.
  - unfold requestAnimationFrame.
    destruct (window_requestAnimationFrame host).
    + unfold bind, schedule, ret. eexists. split; [reflexivity|].
      split; [reflexivity|]. cbn [frames]. unfold no_attach.
      rewrite forallb_app. intros ->. reflexivity.
    + cbn [removeAChild]. rewrite He, Hch. unfold ret. eauto.
  - unfold ret. rewrite (emptied_same this e He Hch). eauto.
Qed.

Lemma run_tasks_childless (ts : list task) (this : JSONFormatter) (h : Heap) :
  no_attach ts = true ->
  materialized this = [] ->
  run_tasks host ts this h = Returns this h.
Proof.
  intros Hts Hch. induction ts as [|t ts IH]; [reflexivity|].
  cbn [no_attach forallb] in Hts. apply andb_prop in Hts.
  destruct Hts as [Ht Hts]. cbn [run_tasks]. unfold bind.
  assert (Ht1 : run_task host t this h = Returns this h).
  { unfold run_task, materialized in *.
    destruct (element this) as [e|] eqn:He; [|reflexivity].
    destruct t as [row index|row removed]; [discriminate|].
    destruct (row =? stamp e)%nat; [|reflexivity].
    cbn [removeAChild]. now rewrite He, Hch. }
  rewrite Ht1. now apply IH.
Qed.

Lemma perform_on_empty (op : operation) (this this' : JSONFormatter)
  (h h' : Heap) :
  keeps_node op = true ->
  isEmpty (config_object h) this = true ->
  materialized this = [] ->
  no_attach (frames h) = true ->
  perform host op this h = Returns this' h' ->
  isEmpty (config_object h') this' = true /\
  materialized this' = [] /\
  no_attach (frames h') = true.
Proof.
  intros Hop Hem Hch Hts E. split.
  { destruct (perform_effect host op _ _ _ _ Hop E) as (Hj & _).
    rewrite (isEmpty_evolves _ _ this' (steady_perform host op this _ _ _ E)).
    now rewrite (isEmpty_same_json _ _ _ Hj). }
  destruct op as [v0 d0 k0| | |d|animated|animated|]; try discriminate;
    cbn [perform] in E.
  - rewrite render_unfold in E.
    destruct (render_with_row host _ _ _ _ _ E)
      as (vs & e & _ & Hthis & _ & Hclosed & Hopen).
    destruct (isObject this && isOpen this).
    + specialize (Hopen eq_refl e). rewrite Hthis in Hopen.
      specialize (Hopen eq_refl). rewrite Hem in Hopen. cbn in Hopen.
      unfold ret in Hopen. injection Hopen as Hrow <-.
      split; [|exact Hts]. rewrite Hthis. unfold materialized. cbn.
      now rewrite <- Hrow.
    + destruct (Hclosed eq_refl) as [Hnil ->]. split; [|exact Hts].
      rewrite Hthis. exact Hnil.
  - destruct (element this) as [e|] eqn:He.
    + unfold materialized in Hch. rewrite He in Hch.
      destruct (isOpen this) eqn:Hio.
      * rewrite (toggleOpen_open host this e h He Hio) in E. unfold bind in E.
        destruct (removeChildren_of_childless
                    (flag (animateClose (config_object h)))
                    (set_isOpen (Some false) this) e h He Hch)
          as (h1 & Er & _ & Hts1).
        rewrite Er in E. unfold ret in E. injection E as <- <-.
        split; [|now apply Hts1].
        destruct this as [v d k o el]. cbn in He. subst el. exact Hch.
      * rewrite (toggleOpen_closed host this e h He Hio) in E. unfold bind in E.
        rewrite (appendChildren_of_empty _ (set_isOpen (Some true) this) e h
                   He Hem) in E.
        unfold ret in E. injection E as <- <-. split; [|exact Hts].
        destruct this as [v d k o el]. cbn in He. subst el. exact Hch.
    + rewrite (toggleOpen_unrendered host this h He) in E.
      injection E as <- <-. split; [|exact Hts].
      unfold materialized. cbn. now rewrite He.
  - destruct (num_lt0 d) eqn:Hlt.
    { rewrite (openAtDepth_negative host d this h Hlt) in E.
      injection E as <- <-. now split. }
    destruct (element this) as [e|] eqn:He.
    + unfold materialized in Hch. rewrite He in Hch.
      destruct (num_is0 d) eqn:H0.
      * apply num_is0_Fin0 in H0. subst d.
        rewrite (openAtDepth_zero host this e h He) in E.
        injection E as <- <-. now split.
      * rewrite (openAtDepth_positive host d this e h He (num_gt0_of d Hlt H0))
          in E.
        unfold bind in E.
        rewrite (appendChildren_of_empty _
                   (set_element (Some (set_children [] e))
                      (set_isOpen (Some true) (set_open d this)))
                   (set_children [] e) h eq_refl Hem) in E.
        unfold ret in E. injection E as <- <-. now split.
    + rewrite (openAtDepth_unrendered host d this h He Hlt) in E.
      injection E as <- <-. split; [|exact Hts].
      unfold materialized. cbn. now rewrite He.
  - destruct (element this) as [e|] eqn:He.
    + rewrite (appendChildren_of_empty animated this e h He Hem) in E.
      injection E as <- <-. now split.
    + unfold appendChildren, appendChildren_with in E. rewrite He in E.
      discriminate E.
  - destruct (element this) as [e|] eqn:He.
    + unfold materialized in Hch. rewrite He in Hch.
      destruct (removeChildren_of_childless animated this e h He Hch)
        as (h1 & Er & _ & Hts1).
      rewrite Er in E. injection E as <- <-.
      split; [|now apply Hts1]. unfold materialized. now rewrite He.
    + unfold removeChildren in E. rewrite He in E. discriminate E.
  - unfold frame in E. rewrite (run_tasks_childless _ this _ Hts Hch) in E.
    injection E as <- <-. now split.
Qed.

End EmptyNodes.

(** X18. A node without keys (a number, a string, [null], an empty array
    or object) never shows a child row: in every mode, after any sequence
    of [render], [toggleOpen], [openAtDepth], [appendChildren],
    [removeChildren] and frames of the window, its children container is
    empty and no callback of an animated attach waits. *)
Theorem empty_node_shows_no_child (host : Host) (ops : list operation)
  (this this' : JSONFormatter) (h h' : Heap) :
  forallb keeps_node ops = true ->
  isEmpty (config_object h) this = true ->
  materialized this = [] ->
  no_attach (frames h) = true ->
  perform_all host ops this h = Returns this' h' ->
  materialized this' = [] /\ no_attach (frames h') = true.
Proof.
  revert this h. induction ops as [|op ops IH]; intros this h Hops Hem Hch Hts.
  - cbn [perform_all]. unfold ret. intros [= <- <-]. now split.
  - cbn [forallb] in Hops. apply andb_prop in Hops. destruct Hops as [Hop Hops].
    cbn [perform_all]. unfold bind.
    destruct (perform host op this h) as [this1 h1| |] eqn:E1; try discriminate.
    destruct (perform_on_empty host op _ _ _ _ Hop Hem Hch Hts E1)
      as (Hem1 & Hch1 & Hts1).
    now apply IH.
Qed.

Lemma empty_node_shows_no_child_witness :
  match
    perform_all (sample_host true) a_session
      (mkJSONFormatter (VArray []) Infinity (Some "items") None None)
      (mkHeap _defaultConfig [])
  with
  | Returns this' h' => materialized this' = [] /\ no_attach (frames h') = true
  | _ => False
  end.
Proof.
  destruct (perform_all (sample_host true) a_session
              (mkJSONFormatter (VArray []) Infinity (Some "items") None None)
              (mkHeap _defaultConfig [])) as [this' h'| |] eqn:E.
  - exact (empty_node_shows_no_child (sample_host true) a_session
             (mkJSONFormatter (VArray []) Infinity (Some "items") None None)
             this' (mkHeap _defaultConfig []) h'
             eq_refl eq_refl eq_refl eq_refl E).
  - vm_compute in E. discriminate E.
  - vm_compute in E. discriminate E.
Defined.

(** ** Rendering with [useToJSON] off *)

Lemma forEach_key_total (I : Heap -> Prop)
  (r : JSONFormatter -> M JSONFormatter) (ks : list string)
  (this : JSONFormatter) (h : Heap) :
  (forall c scheduled,
     I (mkHeap c scheduled) -> I (mkHeap (with_defaults c) scheduled)) ->
  (forall name child h0,
     In name ks -> json child = get (json this) name -> I h0 ->
     exists child' h1, r child h0 = Returns child' h1 /\ I h1) ->
  I h ->
  exists this' h', forEach_key r ks this h = Returns this' h' /\ I h'.
Proof.
  intros Hdef. revert this h. induction ks as [|k ks IH]; intros this h Hr Hh.
  - exists this, h. now split.
  - cbn [forEach_key]. unfold bind, constructor.
    destruct (Hr k (mkJSONFormatter (get (json this) k) (num_pred (open this))
                      (visible_key (Some k)) None None)
                (mkHeap (with_defaults (config_object h)) (frames h))
                (or_introl eq_refl) eq_refl)
      as (child' & h1 & -> & Hh1).
    { apply Hdef. now rewrite heap_eta. }
    apply IH; [|exact Hh1].
    intros name child h0 Hin Hj Hh0.
    apply (Hr name child h0); [now right | | exact Hh0].
    rewrite Hj. now destruct (appendChild_fields child' this) as [-> _].
Qed.

Lemma render_fuel_returns_off (host : Host) (fuel : nat)
  (this : JSONFormatter) (h : Heap) :
  (depth (json this) < fuel)%nat ->
  useToJSON (config_object h) = Some false ->
  exists this' h',
    render_fuel host fuel this h = Returns this' h' /\
    useToJSON (config_object h') = Some false.
Proof.
  revert this h. induction fuel as [|fuel IH]; intros this h Hd Hoff; [lia|].
  cbn [render_fuel]. unfold render_with, bind, read_config.
  assert (Hg : getter_useToJSON (config_object h) this = false)
    by (unfold getter_useToJSON; now rewrite Hoff).
  unfold render_value_span. rewrite Hg.
  assert (Hvs : exists vs,
            (if isObject this && negb false
             then ret (ContainerValue (constructorName host this)
                         (if isArray this then Some (Array_length this)
                          else None))
             else ret (PrimitiveValue (isUrl (config_object h) this)
                         (type (config_object h) this)
                         (isDate host (config_object h) this)
                         (if isUrl (config_object h) this
                          then Some (json this) else None)
                         (getValuePreview host (type (config_object h) this)
                            (json this) (json this)))) h = Returns vs h)
    by (destruct (isObject this && negb false); unfold ret; eauto).
  destruct Hvs as [vs ->].
  match goal with
  | |- context [set_element (Some ?el) this] => generalize el; intros row
  end.
  change (isObject (set_element (Some row) this)) with (isObject this).
  change (isOpen (set_element (Some row) this)) with (isOpen this).
  destruct (isObject this && isOpen this) eqn:Hoi; [|unfold ret; eauto].
  unfold appendChildren_with, bind, read_config.
  change (element (set_element (Some row) this)) with (Some row).
  cbv beta iota.
  destruct (isEmpty _ _); [unfold ret; eauto|].
  apply andb_prop in Hoi. destruct Hoi as [Hobj _].
  apply (forEach_key_total
           (fun h0 => useToJSON (config_object h0) = Some false)).
  - intros c scheduled. cbn. now intros ->.
  - intros name child h0 _ Hj Hh0. apply IH; [|exact Hh0].
    rewrite Hj. cbn [json set_element].
    pose proof (depth_get (json this) name Hobj). lia.
  - exact Hoff.
Qed.

(** X19. With [useToJSON] set to false (and a theme, if any, that is a
    class name) every value can be rendered, a value with members or
    methods named [toJSON] included: [new JSONFormatter(v, d, c,
    k).render()] returns for every value, budget and key, and leaves the
    option off. *)
Theorem render_returns_without_useToJSON (host : Host)
  (c : JSONFormatterConfiguration) (scheduled : list task)
  (v : value) (d : num) (k : option string) :
  useToJSON c = Some false ->
  theme_is_class c ->
  exists this' h',
    (f <- constructor v d k ;; render host f) (mkHeap c scheduled) =
    Returns this' h' /\
    element this' <> None /\
    json this' = v /\
    useToJSON (config_object h') = Some false.
Proof.
  intros Hoff _. unfold bind, constructor. cbn [config_object frames].
  set (f := mkJSONFormatter v d (visible_key k) None None).
  set (h0 := mkHeap (with_defaults c) scheduled).
  destruct (render_fuel_returns_off host (S (depth (json f))) f h0)
    as (this' & h' & E & Hoff').
  - lia.
  - subst h0. cbn. now rewrite Hoff.
  - exists this', h'. split; [exact E|].
    destruct (render_row host _ _ _ _ E) as (vs & e & _ & -> & _).
    repeat split; trivial. discriminate.
Qed.

Lemma render_returns_without_useToJSON_witness :
  exists this' h',
    (f <- constructor
            (VObject None [("id", VNumber 7); ("toJSON", VString "text")])
            (Fin 1) None ;;
     render (sample_host false) f)
      (mkHeap (mkConfig None None None None None None None (Some false) None)
         []) = Returns this' h' /\
    element this' <> None.
Proof.
  destruct (render_returns_without_useToJSON (sample_host false)
              (mkConfig None None None None None None None (Some false) None)
              [] (VObject None [("id", VNumber 7); ("toJSON", VString "text")])
              (Fin 1) None eq_refl I) as (this' & h' & E & He & _).
  exists this', h'. split; [exact E | exact He].
Defined.

(** ** The children of a node once the animations have ended *)

Section Settling.

Variable host : Host.

(** An attach into an empty container, the marker set, and the frames that
    let the animation end: the container holds the children of the keys. *)
Lemma attach_settles (f : bool -> bool) (animated : bool)
  (this this' : JSONFormatter) (e : Element) (h h' : Heap) (n : nat) :
  element this = Some e ->
  children e = [] ->
  frames h = [] ->
  (11 <= n)%nat ->
  (this1 <- appendChildren host animated this ;;
   run_frames host n (classList_open f this1)) h = Returns this' h' ->
  exists cs,
    this' = classList_open f (with_children cs this) /\
    Forall2 (child_of this) (keys (config_object h') this) cs /\
    frames h' = [].
Proof.
  intros He Hch Hf Hn. unfold bind.
  assert (Hquick :
    forall this1 h1,
      forEach_key (render host) (keys (config_object h) this) this h =
      Returns this1 h1 ->
      run_frames host n (classList_open f this1) h1 = Returns this' h' ->
      exists cs,
        this' = classList_open f (with_children cs this) /\
        Forall2 (child_of this) (keys (config_object h') this) cs /\
        frames h' = []).
  { intros this1 h1 E1 E2.
    destruct (forEach_key_result host _ _ _ _ _ _ He E1)
      as (Hf1 & Hk1 & _ & _).
    destruct (forEach_key_children host _ _ _ _ _ E1) as (cs & -> & Hcs).
    rewrite run_frames_idle in E2 by congruence.
    injection E2 as <- <-. exists cs. split; [|split].
    - rewrite append_children_with. unfold materialized.
      now rewrite He, Hch.
    - now rewrite Hk1.
    - congruence. }
  destruct animated;
    [destruct (window_requestAnimationFrame host) eqn:Hraf|].
  - rewrite (appendChildren_later host this e h Hraf He), Hf. cbn [app].
    destruct (isEmpty (config_object h) this) eqn:Hem.
    + rewrite run_frames_idle by reflexivity. intros [= <- <-].
      exists []. cbn [config_object frames].
      rewrite (keys_nil_of_isEmpty _ _ Hem). split; [|split; trivial].
      now rewrite <- (emptied_is_with_children this e He),
        (emptied_same this e He Hch).
    + assert (He1 : element (classList_open f this) =
                    Some (set_open_class (f (open_class e)) e)).
      { unfold classList_open. now rewrite He. }
      rewrite (add_chain_drains host Hraf n 0 (classList_open f this)
                 (set_open_class (f (open_class e)) e)
                 (mkHeap (config_object h) [AddAChild (stamp e) 0])
                 He1 eq_refl);
        [ | cbn [config_object];
            rewrite (keys_same_json _ this (classList_open f this))
              by (unfold classList_open; now rewrite He);
            exact (keys_cons_of_isEmpty _ _ Hem)
          | unfold MAX_ANIMATED_TOGGLE_ITEMS; lia | lia ].
      cbn [config_object skipn]. intros E.
      destruct (forEach_key_result host _ _ _ _ _ _ He1 E)
        as (Hf1 & Hk1 & _ & _).
      destruct (forEach_key_children host _ _ _ _ _ E) as (cs & -> & Hcs).
      exists cs. split; [|split].
      * rewrite append_children_with. unfold materialized.
        rewrite He1. cbn [children set_open_class]. rewrite Hch. cbn [app].
        unfold classList_open, with_children. rewrite He. cbn.
        reflexivity.
      * rewrite Hk1. cbn [config_object].
        rewrite (keys_same_json _ this (classList_open f this)) in Hcs
          by (unfold classList_open; now rewrite He).
        eapply Forall2_impl; [|exact Hcs].
        intros name child. apply child_of_parent;
          unfold classList_open; now rewrite He.
      * exact Hf1.
  - rewrite (appendChildren_fallback host true this e h (or_intror Hraf) He).
    destruct (forEach_key _ _ _ _) as [this1 h1| |] eqn:E1; try discriminate.
    now apply Hquick.
  - rewrite (appendChildren_fallback host false this e h (or_introl eq_refl) He).
    destruct (forEach_key _ _ _ _) as [this1 h1| |] eqn:E1; try discriminate.
    now apply Hquick.
Qed.

Lemma settle_children_match (op : operation) (this this' : JSONFormatter)
  (h h' : Heap) :
  lifecycle op = true ->
  frames h = [] ->
  children_match (config_object h) this ->
  settle host op this h = Returns this' h' ->
  children_match (config_object h') this' /\ frames h' = [].
Proof.
  intros Hop Hf Hm. unfold settle.
  destruct op as [v0 d0 k0| | |d|animated|animated|]; try discriminate;
    cbn [perform]; unfold bind.
  - destruct (render host this h) as [this1 h1| |] eqn:E1; try discriminate.
    pose proof (quiet_render host this _ _ _ E1) as Hf1.
    rewrite run_frames_idle by congruence. intros [= <- <-].
    split; [exact (render_children_match host _ _ _ _ E1) | congruence].
  - destruct (element this) as [e|] eqn:He.
    + specialize (Hm e He). destruct (isOpen this) eqn:Hio.
      * pose proof (close_then_frames host this e h 11 He Hio Hf (le_n 11))
          as Hclose.
        unfold bind in Hclose. rewrite Hclose. intros [= <- <-].
        split; [|exact Hf].
        intros e' He'. destruct this as [v d k o el]. cbn in He. subst el.
        cbn in He'. injection He' as <-. cbn. constructor.
      * inversion Hm as [Hnil|]; subst. rename H into Hch. symmetry in Hch.
        rewrite (toggleOpen_closed host this e h He Hio).
        intros E.
        destruct (attach_settles negb (flag (animateOpen (config_object h)))
                    (set_isOpen (Some true) this) this' e h h' 11
                    He Hch Hf (le_n 11)) as (cs & -> & Hcs & Hf').
        { unfold bind in *.
          destruct (appendChildren host _ _ h) as [this1 h1| |];
            try discriminate; exact E. }
        split; [|exact Hf'].
        intros e' He'. destruct this as [v d k o el]. cbn in He. subst el.
        cbn in He'. injection He' as <-. cbn. exact Hcs.
    + rewrite (toggleOpen_unrendered host this h He).
      rewrite run_frames_idle by exact Hf. intros [= <- <-].
      split; [|exact Hf]. intros e' He'. cbn in He'. congruence.
  - destruct (num_lt0 d) eqn:Hlt.
    { rewrite (openAtDepth_negative host d this h Hlt).
      rewrite run_frames_idle by exact Hf. intros [= <- <-]. now split. }
    destruct (element this) as [e|] eqn:He.
    + destruct (num_is0 d) eqn:H0.
      * apply num_is0_Fin0 in H0. subst d.
        rewrite (openAtDepth_zero host this e h He).
        rewrite run_frames_idle by exact Hf. intros [= <- <-].
        split; [|exact Hf].
        intros e' He'. cbn in He'. injection He' as <-. cbn. constructor.
      * rewrite (openAtDepth_positive host d this e h He
                   (num_gt0_of d Hlt H0)).
        intros E.
        destruct (attach_settles (fun _ => true)
                    (flag (animateOpen (config_object h)))
                    (set_element (Some (set_children [] e))
                       (set_isOpen (Some true) (set_open d this)))
                    this' (set_children [] e) h h' 11
                    eq_refl eq_refl Hf (le_n 11)) as (cs & -> & Hcs & Hf').
        { unfold bind in *.
          destruct (appendChildren host _ _ h) as [this1 h1| |];
            try discriminate; exact E. }
        split; [|exact Hf'].
        intros e' He'. destruct this as [v d1 k o el]. cbn in He. subst el.
        cbn in He'. injection He' as <-. cbn. exact Hcs.
    + rewrite (openAtDepth_unrendered host d this h He Hlt).
      rewrite run_frames_idle by exact Hf. intros [= <- <-].
      split; [|exact Hf]. intros e' He'. cbn in He'. congruence.
Qed.

End Settling.

Lemma settle_step (host : Host) (op : operation) (this : JSONFormatter)
  (h : Heap) :
  lifecycle op = true ->
  frames h = [] ->
  toJSON_callable (json this) = true ->
  children_match (config_object h) this ->
  exists this' h',
    settle host op this h = Returns this' h' /\
    children_match (config_object h') this' /\
    frames h' = [] /\
    json this' = json this.
Proof.
  intros Hop Hf Hc Hm.
  assert (Hret : exists this' h',
            settle host op this h = Returns this' h' /\ json this' = json this).
  { unfold settle, bind.
    destruct (perform_returns host op this h) as (this1 & h1 & E1);
      [now destruct op | exact Hc |].
    rewrite E1.
    assert (Hj1 : json this1 = json this).
    { apply (perform_effect host op this this1 h h1);
        [now destruct op | exact E1]. }
    destruct (run_frames_returns host 11 this1 h1) as (this' & h' & E & Hj);
      [now rewrite Hj1|].
    exists this', h'. split; [exact E | congruence]. }
  destruct Hret as (this' & h' & E & Hj).
  exists this', h'. split; [exact E|].
  destruct (settle_children_match host op _ _ _ _ Hop Hf Hm E) as [Hm' Hf'].
  now repeat split.
Qed.

(** X20. In every mode, animated or not, over a value that holds no data
    under the name [toJSON] and with a theme that is a class name, a page
    that lets eleven frames pass after each [render], [toggleOpen] and
    [openAtDepth] never sees a duplicated or a missing row: every call
    returns, after each step nothing is left scheduled, and a rendered node
    holds exactly the child of each of its keys, in the order of the keys,
    when it is open, and no row when it is closed. *)
Theorem settled_children_match (host : Host) (ops : list operation)
  (this : JSONFormatter) (h : Heap) :
  forallb lifecycle ops = true ->
  frames h = [] ->
  toJSON_callable (json this) = true ->
  theme_is_class (config_object h) ->
  children_match (config_object h) this ->
  exists this' h',
    settle_all host ops this h = Returns this' h' /\
    children_match (config_object h') this' /\
    frames h' = [] /\
    (forall e, element this' = Some e ->
       length (children e) =
       if isOpen this' then length (keys (config_object h') this') else 0%nat).
Proof.
  intros Hops Hf Hc _ Hm.
  assert (Hmatch : exists this' h',
            settle_all host ops this h = Returns this' h' /\
            children_match (config_object h') this' /\ frames h' = []).
  { revert this h Hf Hc Hm.
    induction ops as [|op ops IH]; intros this h Hf Hc Hm.
    - exists this, h. now repeat split.
    - cbn [forallb] in Hops. apply andb_prop in Hops.
      destruct Hops as [Hop Hops]. cbn [settle_all]. unfold bind.
      destruct (settle_step host op this h Hop Hf Hc Hm)
        as (this1 & h1 & E1 & Hm1 & Hf1 & Hj1).
      rewrite E1. apply (IH Hops); [exact Hf1 | now rewrite Hj1 | exact Hm1]. }
  destruct Hmatch as (this' & h' & E & Hmatch & Hf').
  exists this', h'. split; [exact E|]. split; [exact Hmatch|].
  split; [exact Hf'|].
  intros e He. rewrite <- (Forall2_length (Hmatch e He)).
  now destruct (isOpen this').
Qed.

Lemma settled_children_match_witness :
  exists this' h',
    settle_all (sample_host true) a_lifecycle
      (mkJSONFormatter a_and_b (Fin 1) None None None)
      (mkHeap _defaultConfig []) = Returns this' h' /\
    children_match (config_object h') this' /\
    frames h' = [] /\
    isOpen this' = true /\
    map key (materialized this') = [Some "a"; Some "b"].
Proof.
  destruct (settled_children_match (sample_host true) a_lifecycle
              (mkJSONFormatter a_and_b (Fin 1) None None None)
              (mkHeap _defaultConfig []) eq_refl eq_refl eq_refl I)
    as (this' & h' & E & Hm & Hf & _).
  - intros e [=].
  - exists this', h'. split; [exact E|]. split; [exact Hm|].
    split; [exact Hf|].
    vm_compute in E. injection E as <- _. vm_compute. now split.
Defined.
